(** * make_readme.py: a summary report of a radio-astronomy data directory

    A shallow embedding of [make_readme.py] and of the parts of the Python
    runtime it leans on (string methods, [os.path], [glob], binary64
    arithmetic, a small file system), followed by the properties of the
    script that its specification states. *)

From Stdlib Require Import ZArith List Bool Ascii String Lia.
From Stdlib Require Import Permutation Sorted QArith.
From Stdlib Require Import SpecFloat DecimalString.
Import ListNotations.

Local Open Scope string_scope.
Local Open Scope Z_scope.

(** ** Python strings

    A [str] is modelled by [string]; its characters are the code points
    below 256, which covers the ASCII text of FITS and SIGPROC headers. *)

Module Str.

(** [len(s)] as an integer. *)
Definition len (s : string) : Z := Z.of_nat (String.length s).

(** [s[:n]] for [0 <= n]. *)
Fixpoint take (n : nat) (s : string) : string :=
  match n, s with
  | O, _ => ""
  | _, "" => ""
  | S k, String c r => String c (take k r)
  end.

(** [s[n:]] for [0 <= n]. *)
Fixpoint drop (n : nat) (s : string) : string :=
  match n, s with
  | O, _ => s
  | _, "" => ""
  | S k, String _ r => drop k r
  end.

(** [s.rfind(c)]: the highest index of the character [c], or -1. *)
Fixpoint rfind (c : ascii) (s : string) : Z :=
  match s with
  | "" => -1
  | String x r =>
      let i := rfind c r in
      if 0 <=? i then i + 1
      else if Ascii.eqb x c then 0 else -1
  end.

(** [c in s] for a single character. *)
Fixpoint contains (c : ascii) (s : string) : bool :=
  match s with
  | "" => false
  | String x r => Ascii.eqb x c || contains c r
  end.

(** [s.startswith(c)] for a single character. *)
Definition starts_with_char (c : ascii) (s : string) : bool :=
  match s with
  | String x _ => Ascii.eqb x c
  | "" => false
  end.

(** [s.endswith(t)]. *)
Fixpoint endswith (s t : string) : bool :=
  String.eqb s t ||
  match s with
  | "" => false
  | String _ r => endswith r t
  end.

(** [c * n]. *)
Fixpoint replicate (n : nat) (c : ascii) : string :=
  match n with
  | O => ""
  | S k => String c (replicate k c)
  end.

(** [str.isspace] on one character: the code points below 256 that
    Python counts as white space. *)
Definition isspace (c : ascii) : bool :=
  let n := Z.of_N (N_of_ascii c) in
  ((9 <=? n) && (n <=? 13)) || ((28 <=? n) && (n <=? 32))
  || (n =? 133) || (n =? 160).

(** [s.lstrip()] and [s.rstrip()], and their one-character variants. *)
Fixpoint lstrip_by (p : ascii -> bool) (s : string) : string :=
  match s with
  | "" => ""
  | String c r => if p c then lstrip_by p r else s
  end.

Fixpoint rstrip_by (p : ascii -> bool) (s : string) : string :=
  match s with
  | "" => ""
  | String c r =>
      match rstrip_by p r with
      | "" => if p c then "" else String c ""
      | r' => String c r'
      end
  end.

(** [s.strip()]. *)
Definition strip (s : string) : string :=
  rstrip_by isspace (lstrip_by isspace s).

(** [s.split(c)] for a one-character separator: never empty. *)
Fixpoint split_on (c : ascii) (s : string) : list string :=
  match s with
  | "" => [""]
  | String x r =>
      if Ascii.eqb x c then "" :: split_on c r
      else match split_on c r with
           | w :: ws => String x w :: ws
           | [] => [String x ""]
           end
  end.

(** [sep.join(l)]. *)
Definition join (sep : string) (l : list string) : string :=
  String.concat sep l.

(** [sorted(l)] on a list of strings: ascending in the code-point
    lexicographic order.  Python's sort is stable; on strings, where
    equal keys are equal values, every sorting algorithm returns the
    same list, and insertion sort stands for it. *)
Fixpoint insert (x : string) (l : list string) : list string :=
  match l with
  | [] => [x]
  | y :: r => if String.leb x y then x :: l else y :: insert x r
  end.

Fixpoint sorted (l : list string) : list string :=
  match l with
  | [] => []
  | x :: r => insert x (sorted r)
  end.





(** The order of [sorted]. *)
Definition le (a b : string) : Prop := String.leb a b = true.

(** [str(n)] and ['{}'.format(n)] for an integer. *)
Definition of_Z (n : Z) : string :=
  NilZero.string_of_int (Z.to_int n).

End Str.

(** ** [os.path] on POSIX *)

Module OsPath.

Definition sep : ascii := "/"%char.
Definition extsep : ascii := "."%char.

(** The loop of [genericpath._splitext] that skips leading dots: [true]
    when the [k] characters from the start of [s] are all dots, so that
    the loop runs to its end without returning. *)
Fixpoint only_dots (k : nat) (s : string) : bool :=
  match k, s with
  | O, _ => true
  | S _, "" => true
  | S k', String c r => if Ascii.eqb c extsep then only_dots k' r else false
  end.

(** [os.path.splitext(p)]. *)
Definition splitext (p : string) : string * string :=
  let sepIndex := Str.rfind sep p in
  let dotIndex := Str.rfind extsep p in
  if dotIndex >? sepIndex then
    let filenameIndex := sepIndex + 1 in
    if only_dots (Z.to_nat (dotIndex - filenameIndex))
                 (Str.drop (Z.to_nat filenameIndex) p)
    then (p, "")
    else (Str.take (Z.to_nat dotIndex) p, Str.drop (Z.to_nat dotIndex) p)
  else (p, "").

(** [os.path.split(p)]. *)
Definition split (p : string) : string * string :=
  let i := Z.to_nat (Str.rfind sep p + 1) in
  let head := Str.take i p in
  let tail := Str.drop i p in
  let head :=
    if negb (String.eqb head "")
       && negb (String.eqb head (Str.replicate (String.length head) sep))
    then Str.rstrip_by (Ascii.eqb sep) head
    else head in
  (head, tail).

(** [os.path.isabs(p)]. *)
Definition isabs (p : string) : bool := Str.starts_with_char sep p.

(** [os.path.join(a, b)]. *)
Definition join (a b : string) : string :=
  if isabs b then b
  else if String.eqb a "" || Str.endswith a "/" then a ++ b
  else a ++ "/" ++ b.

(** The component loop of [posixpath.normpath]. *)
Fixpoint norm_comps (initial_slashes : bool) (new_comps : list string)
         (comps : list string) : list string :=
  match comps with
  | [] => new_comps
  | comp :: rest =>
      if String.eqb comp "" || String.eqb comp "." then
        norm_comps initial_slashes new_comps rest
      else if negb (String.eqb comp "..")
              || (negb initial_slashes && Nat.eqb (List.length new_comps) 0)
              || (match List.last new_comps "" with
                  | ".." => negb (Nat.eqb (List.length new_comps) 0)
                  | _ => false
                  end)
      then norm_comps initial_slashes (new_comps ++ [comp])%list rest
      else norm_comps initial_slashes (List.removelast new_comps) rest
  end.

(** [os.path.normpath(path)]. *)
Definition normpath (path : string) : string :=
  if String.eqb path "" then "."
  else
    let initial_slashes := Str.starts_with_char sep path in
    let two :=
      initial_slashes
      && Str.starts_with_char sep (Str.drop 1 path)
      && negb (Str.starts_with_char sep (Str.drop 2 path)) in
    let comps := norm_comps initial_slashes [] (Str.split_on sep path) in
    let body := Str.join "/" comps in
    let path' :=
      if initial_slashes then (if two then "//" else "/") ++ body else body in
    if String.eqb path' "" then "." else path'.

End OsPath.

(** ** Python floats

    A [float] is an IEEE 754 binary64 number; the operations are those of
    the standard library's executable specification [SpecFloat], at
    precision 53 and maximal exponent 1024, rounding to nearest, ties to
    even. *)

Module Float64.

Definition prec : Z := 53.
Definition emax : Z := 1024.

Definition float : Type := spec_float.

Definition zero : float := S754_zero false.

(** [float(n)] for an integer [n], as in [n + x] or [x * n]. *)
Definition of_Z (n : Z) : float := binary_normalize prec emax n 0 false.

Definition add : float -> float -> float := SFadd prec emax.
Definition mul : float -> float -> float := SFmul prec emax.
Definition div : float -> float -> float := SFdiv prec emax.
Definition opp : float -> float := SFopp.

(** [x == y]: a NaN equals nothing, the two zeros are equal. *)
Definition eqb : float -> float -> bool := SFeqb.

(** An integer as an unrounded significand with exponent 0. *)
Definition unrounded (n : Z) : float :=
  match n with
  | Z0 => S754_zero false
  | Zpos p => S754_finite false p 0
  | Zneg p => S754_finite true p 0
  end.

(** [a / b] for two integers, [b] not zero: the quotient of the exact
    integers, rounded once. *)
Definition truediv_Z (a b : Z) : float :=
  div (unrounded a) (unrounded b).

(** The exact value of a finite float. *)
Definition to_Q (x : float) : option Q :=
  match x with
  | S754_zero _ => Some 0%Q
  | S754_finite s m e =>
      let v := match e with
               | Z0 => inject_Z (Zpos m)
               | Zpos k => inject_Z (Zpos m * 2 ^ Zpos k)
               | Zneg k => Qmake (Zpos m) (2 ^ k)%positive
               end in
      Some (if s then Qopp v else v)
  | _ => None
  end.

(** The magnitude [m * 2^e] in hundredths, rounded to the nearest
    integer, ties to even. *)
Definition hundredths (m : positive) (e : Z) : Z :=
  match e with
  | Zneg k =>
      let den := Zpos (2 ^ k)%positive in
      let num := Zpos m * 100 in
      let q := num / den in
      let r := num mod den in
      match 2 * r ?= den with
      | Lt => q
      | Gt => q + 1
      | Eq => if Z.even q then q else q + 1
      end
  | _ => Zpos m * 2 ^ e * 100
  end.

Definition two_digits (n : Z) : string :=
  if n <? 10 then "0" ++ Str.of_Z n else Str.of_Z n.

(** ['{:.2f}'.format(x)]: the decimal expansion of the exact binary
    value, correctly rounded to two places. *)
Definition format_2f (x : float) : string :=
  match x with
  | S754_nan => "nan"
  | S754_infinity s => if s then "-inf" else "inf"
  | S754_zero s => if s then "-0.00" else "0.00"
  | S754_finite s m e =>
      let h := hundredths m e in
      (if s then "-" else "") ++ Str.of_Z (h / 100) ++ "." ++ two_digits (h mod 100)
  end.

(** *** [repr(x)]

    [str(x)] is the shortest decimal string that reads back as [x], the
    closest to [x] among the shortest, printed with an exponent when the
    decimal point would fall more than 16 digits to the right or more
    than 3 zeros to the left. *)

(** Compare [d * 10^k] with [x * 2^E]. *)
Definition cmp_dec_bin (d k x E : Z) : comparison :=
  (d * 10 ^ Z.max k 0 * 2 ^ Z.max (- E) 0
   ?= x * 2 ^ Z.max E 0 * 10 ^ Z.max (- k) 0).

(** The integer part of [x * 2^E / 10^k]. *)
Definition floor_dec (x E k : Z) : Z :=
  (x * 2 ^ Z.max E 0 * 10 ^ Z.max (- k) 0)
  / (2 ^ Z.max (- E) 0 * 10 ^ Z.max k 0).

Fixpoint adjust_log10 (fuel : nat) (x E est : Z) : Z :=
  match fuel with
  | O => est
  | S f =>
      match cmp_dec_bin 1 (est + 1) x E with
      | Gt =>
          match cmp_dec_bin 1 est x E with
          | Gt => adjust_log10 f x E (est - 1)
          | _ => est
          end
      | _ => adjust_log10 f x E (est + 1)
      end
  end.

(** The decimal exponent of [x * 2^E], for [0 < x]. *)
Definition log10_floor (x E : Z) : Z :=
  adjust_log10 8 x E (((Z.log2 x + E) * 30103) / 100000).

Definition inside (incl : bool) (L H E d k : Z) : bool :=
  match cmp_dec_bin d k L E, cmp_dec_bin d k H E with
  | Gt, Lt => true
  | Eq, Lt => incl
  | Gt, Eq => incl
  | _, _ => false
  end.

(** The first number of digits, from the list [ns], at which a decimal
    falls in the rounding interval [(L, H) * 2^E] of [V * 2^E]; the
    result is the digits [d] and the exponent [k] of [d * 10^k]. *)
Fixpoint shortest (ns : list Z) (incl : bool) (V L H E p10 : Z) : Z * Z :=
  match ns with
  | [] => (floor_dec V E (p10 - 16), p10 - 16)
  | n :: rest =>
      let k := p10 - (n - 1) in
      let lo := floor_dec V E k in
      let hi := lo + 1 in
      let lo_in := inside incl L H E lo k in
      let hi_in := inside incl L H E hi k in
      if lo_in && hi_in then
        match cmp_dec_bin (2 * lo + 1) k (2 * V) E with
        | Gt => (lo, k)
        | Lt => (hi, k)
        | Eq => if Z.even lo then (lo, k) else (hi, k)
        end
      else if lo_in then (lo, k)
      else if hi_in then (hi, k)
      else shortest rest incl V L H E p10
  end.

Fixpoint strip_zeros (fuel : nat) (d k : Z) : Z * Z :=
  match fuel with
  | O => (d, k)
  | S f => if (d mod 10 =? 0) && negb (d =? 0)
           then strip_zeros f (d / 10) (k + 1) else (d, k)
  end.

Definition digit_counts : list Z :=
  [1; 2; 3; 4; 5; 6; 7; 8; 9; 10; 11; 12; 13; 14; 15; 16; 17].

(** The digits of the shortest decimal and the position of the decimal
    point: the value is [0.ds * 10^decpt]. *)
Definition shortest_digits (m : positive) (e : Z) : string * Z :=
  let boundary := (Zpos m =? 2 ^ (prec - 1)) && (3 - emax - prec <? e) in
  let V := 4 * Zpos m in
  let L := if boundary then V - 1 else V - 2 in
  let H := V + 2 in
  let E := e - 2 in
  let (d, k) := shortest digit_counts (Z.even (Zpos m)) V L H E (log10_floor V E) in
  let (d', k') := strip_zeros 20 d k in
  let ds := Str.of_Z d' in
  (ds, Str.len ds + k').

Definition repr_finite (m : positive) (e : Z) : string :=
  let (ds, decpt) := shortest_digits m e in
  let n := Str.len ds in
  if (decpt <=? -4) || (16 <? decpt) then
    let x := decpt - 1 in
    let mant := if n =? 1 then ds
                else Str.take 1 ds ++ "." ++ Str.drop 1 ds in
    mant ++ "e" ++ (if x <? 0 then "-" else "+") ++ two_digits (Z.abs x)
  else if decpt <=? 0 then
    "0." ++ Str.replicate (Z.to_nat (- decpt)) "0" ++ ds
  else if n <=? decpt then
    ds ++ Str.replicate (Z.to_nat (decpt - n)) "0" ++ ".0"
  else
    Str.take (Z.to_nat decpt) ds ++ "." ++ Str.drop (Z.to_nat decpt) ds.

(** [str(x)], which for a float is [repr(x)]. *)
Definition repr (x : float) : string :=
  match x with
  | S754_nan => "nan"
  | S754_infinity s => if s then "-inf" else "inf"
  | S754_zero s => if s then "-0.0" else "0.0"
  | S754_finite s m e => (if s then "-" else "") ++ repr_finite m e
  end.

End Float64.

(** ** Headers and the file system

    What the two header readers return, and the directory tree the script
    runs on. *)

(** The fields of [pdat.PyPSRFITS(path).hdr] that the script reads. *)
Module Psrfits.
Record hdr : Type := {
  TELESCOP : string;
  OBSERVER : string;
  PROJID : string;
  SRC_NAME : string;
  OBS_MODE : string;
  STT_IMJD : Z;
  STT_SMJD : Z;
  OBSFREQ : Float64.float
}.
End Psrfits.

(** The fields of [FilReader(path).header] that the script reads. *)
Module Fil.
Record header : Type := {
  telescope : string;
  source : string;
  tstart : Float64.float;
  fch1 : Float64.float;
  foff : Float64.float;
  nchans : Z
}.
End Fil.

(** What a regular file holds, as far as the readers can tell. *)
Inductive contents : Type :=
| PsrfitsData (h : Psrfits.hdr)
| FilterbankData (h : Fil.header)
| Text (s : string)
| OtherData.

(** A directory tree.  A symbolic link carries the tree it resolves to,
    when it resolves; links therefore never form a cycle. *)
#[local] Set Warnings "-register-all".
Inductive node : Type :=
| File (bytes : Z) (c : contents)
| Dir (entries : list (string * node))
| Link (target : node)
| BrokenLink.
#[local] Set Warnings "register-all".

Inductive exn : Type :=
| FileNotFoundError
| NotADirectoryError
| IsADirectoryError
| ReaderError
| UnboundLocalError
| EOFError.

Module Fs.

Fixpoint assoc (name : string) (es : list (string * node)) : option node :=
  match es with
  | [] => None
  | (x, n) :: r => if String.eqb x name then Some n else assoc name r
  end.

(** The node a link leads to; [None] for a dangling link. *)
Fixpoint follow (n : node) : option node :=
  match n with
  | Link t => follow t
  | BrokenLink => None
  | _ => Some n
  end.

Definition as_dir (n : node) : option (list (string * node)) :=
  match follow n with
  | Some (Dir es) => Some es
  | _ => None
  end.

(** The node at a list of names below [n]; links on the way are
    followed, the last name is not. *)
Fixpoint lookup (n : node) (p : list string) : option node :=
  match p with
  | [] => Some n
  | c :: p' =>
      match as_dir n with
      | Some es =>
          match assoc c es with
          | Some n' => lookup n' p'
          | None => None
          end
      | None => None
      end
  end.

(** One step of path resolution: the directory reached so far must
    exist and be a directory; [..] goes back along the names taken, which
    is where the kernel goes as long as no link to a directory has been
    stepped through. *)
Definition step (root : node) (cur : option (list string)) (comp : string)
  : option (list string) :=
  match cur with
  | None => None
  | Some p =>
      match lookup root p with
      | Some n =>
          match as_dir n with
          | Some _ =>
              if String.eqb comp "" || String.eqb comp "." then Some p
              else if String.eqb comp ".." then Some (List.removelast p)
              else Some (p ++ [comp])%list
          | None => None
          end
      | None => None
      end
  end.

(** The names from the root that a path string denotes, resolved from
    the working directory [cwd]. *)
Definition canon (root : node) (cwd : list string) (path : string)
  : option (list string) :=
  if String.eqb path "" then None
  else fold_left (step root) (Str.split_on OsPath.sep path)
                 (Some (if OsPath.isabs path then [] else cwd)).

Definition lstat (root : node) (cwd : list string) (path : string) : option node :=
  match canon root cwd path with
  | Some p => lookup root p
  | None => None
  end.

Definition stat (root : node) (cwd : list string) (path : string) : option node :=
  match lstat root cwd path with
  | Some n => follow n
  | None => None
  end.

(** Whether resolution stops at a regular file that stands where a
    directory is needed, which is [ENOTDIR]; when it stops for another
    reason, a name is missing or a link dangles, which is [ENOENT]. *)
Fixpoint through_file (root : node) (comps : list string) (cur : list string)
  : bool :=
  match comps with
  | [] => false
  | comp :: rest =>
      match step root (Some cur) comp with
      | Some q => through_file root rest q
      | None =>
          match lookup root cur with
          | Some n => match follow n with
                      | Some (File _ _) => true
                      | _ => false
                      end
          | None => false
          end
      end
  end.

(** The exception of a system call on a path that does not resolve. *)
Definition errno (root : node) (cwd : list string) (path : string) : exn :=
  if negb (String.eqb path "")
     && through_file root (Str.split_on OsPath.sep path)
          (if OsPath.isabs path then [] else cwd)
  then NotADirectoryError
  else FileNotFoundError.

(** What [open(name, 'w')], the writes and [close()] leave at a node
    that exists. *)
Fixpoint write_node (text : string) (n : node) : option node :=
  match n with
  | File _ _ => Some (File (Str.len text) (Text text))
  | Dir _ => None
  | Link t => option_map Link (write_node text t)
  | BrokenLink => Some (Link (File (Str.len text) (Text text)))
  end.

(** Apply [k] to the entries of the directory that [n] is or links to. *)
Fixpoint in_dir (k : list (string * node) -> option (list (string * node)))
         (n : node) : option node :=
  match n with
  | Dir es => option_map Dir (k es)
  | Link t => option_map Link (in_dir k t)
  | _ => None
  end.

(** Replace the first entry called [name] by [g] of it; [absent] says
    what to do when there is none. *)
Fixpoint update_entry (name : string) (g : node -> option node)
         (absent : option node) (es : list (string * node))
  : option (list (string * node)) :=
  match es with
  | [] => option_map (fun n => [(name, n)]) absent
  | (x, n) :: r =>
      if String.eqb x name then option_map (fun n' => (x, n') :: r) (g n)
      else option_map (cons (x, n)) (update_entry name g absent r)
  end.

(** Write [text] to the file at the names [p] below [n], creating it in
    an existing directory when it is missing. *)
Fixpoint write_at (text : string) (p : list string) (n : node) : option node :=
  match p with
  | [] => write_node text n
  | c :: p' =>
      in_dir (update_entry c (write_at text p')
                (match p' with
                 | [] => Some (File (Str.len text) (Text text))
                 | _ => None
                 end)) n
  end.

End Fs.

(** ** [glob.glob(root + '/**/*' + e, recursive=True)] *)

Module Glob.

(** [glob._ishidden]. *)
Definition ishidden (name : string) : bool :=
  Str.starts_with_char OsPath.extsep name.

Definition is_dir (n : node) : bool :=
  match Fs.as_dir n with Some _ => true | None => false end.

(** [glob._rlistdir] with [dironly]: every directory below [n] that is
    reached through names not starting with a dot, parents first. *)
Fixpoint rlistdir (n : node) : list (list string) :=
  match n with
  | Dir es =>
      flat_map (fun e : string * node =>
                  let (x, child) := e in
                  if negb (ishidden x) && is_dir child
                  then [x] :: map (cons x) (rlistdir child)
                  else [])
               es
  | Link t => rlistdir t
  | _ => []
  end.

(** [glob._glob1(dir, '*' + e)]: the names in one directory that do not
    start with a dot and end with [e]. *)
Definition glob1 (n : node) (e : string) : list string :=
  match Fs.as_dir n with
  | Some es =>
      filter (fun x => negb (ishidden x) && Str.endswith x e) (map fst es)
  | None => []
  end.

(** The path string glob builds for the names [p] below the root. *)
Definition render (root_path : string) (p : list string) : string :=
  root_path ++ "/" ++ Str.join "/" p.

(** The names below [n] of every match of ['**/*' + e]. *)
Definition matches (n : node) (e : string) : list (list string) :=
  flat_map (fun d =>
              match Fs.lookup n d with
              | Some dn => map (fun x => d ++ [x])%list (glob1 dn e)
              | None => []
              end)
           ([] :: rlistdir n).

(** [glob.has_magic]. *)
Definition has_magic (s : string) : bool :=
  Str.contains "*" s || Str.contains "?" s || Str.contains "[" s.

(** The whole call.  The root path is taken literally, which is what glob
    does when [has_magic] is false of it. *)
Definition glob (root : node) (cwd : list string) (root_path e : string)
  : list string :=
  match Fs.stat root cwd root_path with
  | Some n => map (render root_path) (matches n e)
  | None => []
  end.

End Glob.

(** ** The process

    The state the script acts on, and a small monad for a run that may
    stop early, by [sys.exit()] or by an exception nobody catches. *)

Record world : Type := {
  root : node;            (* the directory tree, from [/] *)
  cwd : list string;      (* the working directory, as names from the root *)
  stdout : list string    (* what has been printed, oldest first *)
}.

(** What the run is given from outside. *)
Record environ : Type := {
  user : string;                (* [getpass.getuser()] *)
  script_file : string;         (* [__file__] *)
  start_timestamp : string;     (* the clock before the scan, formatted *)
  end_timestamp : string;       (* the clock after the scan, formatted *)
  answer : option string        (* the line [input()] reads, if there is one *)
}.

Inductive signal : Type :=
| SystemExit
| Raise (e : exn).

Inductive result (A : Type) : Type :=
| Ok (a : A)
| Stop (s : signal).
Arguments Ok {A} a.
Arguments Stop {A} s.

Definition M (A : Type) : Type := world -> result A * world.

Definition ret {A} (a : A) : M A := fun w => (Ok a, w).

Definition bind {A B} (m : M A) (k : A -> M B) : M B :=
  fun w => match m w with
           | (Ok a, w') => k a w'
           | (Stop s, w') => (Stop s, w')
           end.

Notation "x <- m ;; k" := (bind m (fun x => k))
  (at level 61, m at next level, right associativity).
Notation "m ;; k" := (bind m (fun _ => k))
  (at level 61, right associativity).

Definition sys_exit {A} : M A := fun w => (Stop SystemExit, w).
Definition raise {A} (e : exn) : M A := fun w => (Stop (Raise e), w).

Definition print (line : string) : M unit :=
  fun w => (Ok tt, {| root := root w; cwd := cwd w;
                      stdout := (stdout w ++ [line])%list |}).

Definition when (b : bool) (m : M unit) : M unit := if b then m else ret tt.

(** [os.getcwd()]. *)
Definition getcwd : M string :=
  fun w => (Ok ("/" ++ Str.join "/" (cwd w)), w).

(** [os.path.abspath(p)]. *)
Definition abspath (p : string) : M string :=
  c <- getcwd ;; ret (OsPath.normpath (OsPath.join c p)).

(** [os.path.isdir], [os.path.exists] and [os.path.islink]. *)
Definition isdir (p : string) : M bool :=
  fun w => (Ok match Fs.stat (root w) (cwd w) p with
               | Some (Dir _) => true
               | _ => false
               end, w).

Definition exists_ (p : string) : M bool :=
  fun w => (Ok match Fs.stat (root w) (cwd w) p with
               | Some _ => true
               | None => false
               end, w).

Definition islink (p : string) : M bool :=
  fun w => (Ok match Fs.lstat (root w) (cwd w) p with
               | Some (Link _) | Some BrokenLink => true
               | _ => false
               end, w).

(** [os.chdir(p)]. *)
Definition chdir (p : string) : M unit :=
  fun w => match Fs.canon (root w) (cwd w) p with
           | Some names =>
               match Fs.lookup (root w) names with
               | Some n =>
                   if Glob.is_dir n
                   then (Ok tt, {| root := root w; cwd := names; stdout := stdout w |})
                   else (Stop (Raise match Fs.follow n with
                                     | Some _ => NotADirectoryError
                                     | None => FileNotFoundError
                                     end), w)
               | None => (Stop (Raise FileNotFoundError), w)
               end
           | None => (Stop (Raise (Fs.errno (root w) (cwd w) p)), w)
           end.

(** [f = open(name, 'w')], the writes of [text] and [f.close()]. *)
Definition write_file (name text : string) : M unit :=
  fun w => match Fs.canon (root w) (cwd w) name with
           | Some names =>
               match Fs.write_at text names (root w) with
               | Some r => (Ok tt, {| root := r; cwd := cwd w; stdout := stdout w |})
               | None => (Stop (Raise IsADirectoryError), w)
               end
           | None => (Stop (Raise (Fs.errno (root w) (cwd w) name)), w)
           end.

(** [input(prompt)]. *)
Definition input (env : environ) (prompt : string) : M string :=
  print prompt ;;
  match answer env with
  | Some line => ret line
  | None => raise EOFError
  end.

(** The size of a directory's own inode: it depends on the file system
    and never reaches the report, the header readers fail on a
    directory. *)
Definition dir_bytes : Z := 4096.

(** [os.path.getsize(p)]. *)
Definition getsize (p : string) : M Z :=
  fun w => match Fs.stat (root w) (cwd w) p with
           | Some (File b _) => (Ok b, w)
           | Some _ => (Ok dir_bytes, w)
           | None => (Stop (Raise (Fs.errno (root w) (cwd w) p)), w)
           end.

(** [pdat.PyPSRFITS(p).hdr]: fails on anything but a PSRFITS file. *)
Definition PyPSRFITS (p : string) : M Psrfits.hdr :=
  fun w => match Fs.stat (root w) (cwd w) p with
           | Some (File _ (PsrfitsData h)) => (Ok h, w)
           | Some _ => (Stop (Raise ReaderError), w)
           | None => (Stop (Raise FileNotFoundError), w)
           end.

(** [FilReader(p).header]: fails on anything but a filterbank file. *)
Definition FilReader (p : string) : M Fil.header :=
  fun w => match Fs.stat (root w) (cwd w) p with
           | Some (File _ (FilterbankData h)) => (Ok h, w)
           | Some _ => (Stop (Raise ReaderError), w)
           | None => (Stop (Raise FileNotFoundError), w)
           end.

(** ** The script, top to bottom *)

(** The option values as typed on the command line. *)
Module Cli.
Record argv : Type := {
  d : option string;
  n : option string;
  l : option string;
  o : option string;
  g : option string;
  v : option string
}.
End Cli.

(** [args = parser.parse_args()]: every option has [type=str] but [-v],
    which has [type=bool], so that its value [s] becomes [bool(s)]. *)
Module Args.
Record namespace : Type := {
  d : option string;
  n : option string;
  l : option string;
  o : option string;
  g : option string;
  v : option bool
}.
End Args.

(** [bool(s)] for a string. *)
Definition py_bool (s : string) : bool := negb (String.eqb s "").

Definition parse_args (a : Cli.argv) : Args.namespace :=
  {| Args.d := Cli.d a; Args.n := Cli.n a; Args.l := Cli.l a;
     Args.o := Cli.o a; Args.g := Cli.g a;
     Args.v := option_map py_bool (Cli.v a) |}.

(** The truth value of [args.x] in [if args.x:]. *)
Definition truthy (x : option string) : bool :=
  match x with
  | Some s => py_bool s
  | None => false
  end.

Definition value (x : option string) : string :=
  match x with
  | Some s => s
  | None => ""
  end.

Record settings : Type := {
  data_directory : string;
  output_name : string;
  output_directory : string;
  owner : string;
  generator : string;
  verbose : bool
}.

(** Lines 69-96. *)
Definition use_arguments (env : environ) (args : Args.namespace) : M settings :=
  here <- getcwd ;;
  let data_directory :=
    if truthy (Args.d args) then value (Args.d args) else here ++ "/" in
  let output_name :=
    if truthy (Args.n args) then value (Args.n args) else "README.txt" in
  let output_directory :=
    if truthy (Args.l args) then value (Args.l args) else here ++ "/" in
  let owner :=
    if truthy (Args.o args) then value (Args.o args) else "Unknown" in
  let generator :=
    if truthy (Args.g args) then value (Args.g args) else user env in
  verbose <-
    match Args.v args with
    | Some true =>
        let verbose := true in
        (if negb (existsb (Bool.eqb verbose) [true; false])
         then print "-v must be True or False!" ;; sys_exit
         else ret tt) ;;
        ret verbose
    | _ => ret false
    end ;;
  ret {| data_directory := data_directory; output_name := output_name;
         output_directory := output_directory; owner := owner;
         generator := generator; verbose := verbose |}.

(** What [parse_data] returns. *)
Record FileRecord : Type := {
  path : string;
  file : string;
  ext : string;
  size : Float64.float;
  telescope : string;
  observer : string;
  project_id : string;
  source : string;
  mode : string;
  MJD : Float64.float;
  center_freq : Float64.float
}.

Definition psrfits_exts : list string := [".fits"; ".sf"; ".rf"].
Definition fil_exts : list string := [".fil"].

(** [x in l] for strings. *)
Definition str_in (x : string) (l : list string) : bool :=
  existsb (fun y => String.eqb y x) l.

(** Lines 98-149.  With an extension of neither family no branch binds
    the locals and the [return] fails. *)
Definition parse_data (data_file : string) : M FileRecord :=
  let (path, file) := OsPath.split data_file in
  let (name, ext) := OsPath.splitext data_file in
  bytes <- getsize data_file ;;
  let size := Float64.truediv_Z bytes (10 ^ 9) in
  if str_in ext psrfits_exts then
    header <- PyPSRFITS data_file ;;
    ret {| path := path; file := file; ext := ext; size := size;
           telescope := Str.strip (Psrfits.TELESCOP header);
           observer := Str.strip (Psrfits.OBSERVER header);
           project_id := Str.strip (Psrfits.PROJID header);
           source := Str.strip (Psrfits.SRC_NAME header);
           mode := Str.strip (Psrfits.OBS_MODE header);
           MJD := Float64.add (Float64.of_Z (Psrfits.STT_IMJD header))
                    (Float64.truediv_Z (Psrfits.STT_SMJD header) (24 * 60 * 60));
           center_freq := Psrfits.OBSFREQ header |}
  else if str_in ext fil_exts then
    header <- FilReader data_file ;;
    ret {| path := path; file := file; ext := ext; size := size;
           telescope := Str.strip (Fil.telescope header);
           observer := "Unknown";
           project_id := "Unknown";
           source := Str.strip (Fil.source header);
           mode := "Unknown";
           MJD := Fil.tstart header;
           center_freq :=
             Float64.add (Fil.fch1 header)
               (Float64.div
                  (Float64.mul (Fil.foff header)
                     (Float64.of_Z (Fil.nchans header - 1)))
                  (Float64.of_Z 2)) |}
  else raise UnboundLocalError.

(** Lines 154-162. *)
Definition check_directories (st : settings) : M unit :=
  ok_data <- isdir (data_directory st) ;;
  when (negb ok_data)
    (print ("Data directory " ++ data_directory st ++ " does not exist!") ;;
     sys_exit) ;;
  ok_out <- isdir (output_directory st) ;;
  when (negb ok_out)
    (print ("Output directory " ++ output_directory st ++ " does not exist!") ;;
     sys_exit) ;;
  taken <- exists_ (OsPath.join (output_directory st) (output_name st)) ;;
  when taken
    (print ("There is already a file named "
            ++ OsPath.join (output_directory st) (output_name st) ++ "!") ;;
     sys_exit).

Definition extensions : list string := [".fits"; ".sf"; ".rf"; ".fil"].

(** Lines 177-179: [abspath] is evaluated at each turn of the loop, in
    the working directory of that moment. *)
Fixpoint pick_files (st : settings) (es : list string) (available_files : list string)
  : M (list string) :=
  match es with
  | [] => ret available_files
  | e :: rest =>
      top <- abspath (data_directory st) ;;
      found <- (fun w => (Ok (Glob.glob (root w) (cwd w) top e), w)) ;;
      pick_files st rest (available_files ++ found)%list
  end.

(** Lines 185-189. *)
Definition confirm (env : environ) (available_files : list string) : M unit :=
  when (10 ^ 3 <? Z.of_nat (List.length available_files))
    (result <- input env ("There are "
                          ++ Str.of_Z (Z.of_nat (List.length available_files))
                          ++ " files to read. Are you sure you want to proceed? [Y/N] ") ;;
     when (negb (String.eqb result "Y")) sys_exit).

(** The quantities of interest, lines 194-203. *)
Record Summary : Type := {
  n_files : Z;
  tot_size : Float64.float;
  exts : list string;
  telescopes : list string;
  observers : list string;
  project_ids : list string;
  sources : list string;
  modes : list string;
  MJDs : list Float64.float;
  center_freqs : list Float64.float
}.

Definition empty_summary : Summary :=
  {| n_files := 0; tot_size := Float64.zero; exts := []; telescopes := [];
     observers := []; project_ids := []; sources := []; modes := [];
     MJDs := []; center_freqs := [] |}.

(** [if x not in l: l.append(x)], with the equality test of the element
    type. *)
Definition append_new {A : Type} (eqb : A -> A -> bool) (x : A) (l : list A)
  : list A :=
  if existsb (fun y => eqb y x) l then l else (l ++ [x])%list.

(** Lines 213-230: one file read into the summary. *)
Definition tally (s : Summary) (r : FileRecord) : Summary :=
  {| n_files := n_files s + 1;
     tot_size := Float64.add (tot_size s) (size r);
     exts := append_new String.eqb (ext r) (exts s);
     telescopes := append_new String.eqb (telescope r) (telescopes s);
     observers := append_new String.eqb (observer r) (observers s);
     project_ids := append_new String.eqb (project_id r) (project_ids s);
     sources := append_new String.eqb (source r) (sources s);
     modes := append_new String.eqb (mode r) (modes s);
     MJDs := append_new Float64.eqb (MJD r) (MJDs s);
     center_freqs := append_new Float64.eqb (center_freq r) (center_freqs s) |}.

(** Lines 208-233. *)
Fixpoint scan (st : settings) (available_files : list string) (s : Summary)
  : M Summary :=
  match available_files with
  | [] => ret s
  | af :: rest =>
      linked <- islink af ;;
      if negb linked then
        when (verbose st) (print ("Reading header of " ++ af ++ ".")) ;;
        r <- parse_data af ;;
        scan st rest (tally s r)
      else
        when (verbose st) (print (af ++ " is a symlink and will not be read.")) ;;
        scan st rest s
  end.

Definition nl : string := String (ascii_of_nat 10) "".

(** Lines 253-267: the text of the README. *)
Definition readme (st : settings) (env : environ) (s : Summary) : string :=
  let string_center_freqs := map Float64.repr (center_freqs s) in
  "README file for " ++ data_directory st ++ " generated by "
    ++ script_file env ++ "." ++ nl
  ++ "Owner: " ++ owner st ++ nl
  ++ "Generated by: " ++ generator st ++ nl
  ++ "Started at " ++ start_timestamp env ++ "; completed at "
    ++ end_timestamp env ++ "." ++ nl
  ++ "Number of files: " ++ Str.of_Z (n_files s) ++ nl
  ++ "Total size (GB): " ++ Float64.format_2f (tot_size s) ++ nl
  ++ "File types: " ++ Str.join ", " (Str.sorted (exts s)) ++ nl
  ++ "Telescope: " ++ Str.join ", " (Str.sorted (telescopes s)) ++ nl
  ++ "Observers: " ++ Str.join ", " (Str.sorted (observers s)) ++ nl
  ++ "Project IDs: " ++ Str.join ", " (Str.sorted (project_ids s)) ++ nl
  ++ "Sources: " ++ Str.join ", " (Str.sorted (sources s)) ++ nl
  ++ "Modes: " ++ Str.join ", " (Str.sorted (modes s)) ++ nl
  ++ "Center frequencies (MHz): "
    ++ Str.join ", " (Str.sorted string_center_freqs) ++ nl
  ++ nl
  ++ "Notes:".

(** The whole script. *)
Definition main (env : environ) (a : Cli.argv) : M unit :=
  st <- use_arguments env (parse_args a) ;;
  check_directories st ;;
  chdir (data_directory st) ;;
  available_files <- pick_files st extensions [] ;;
  confirm env available_files ;;
  s <- scan st available_files empty_summary ;;
  chdir (output_directory st) ;;
  write_file (output_name st) (readme st env s).

(** ** Vocabulary of the properties *)

(** What [append_new] leaves in a list that starts as [l0], after the
    values [xs] have come by in that order. *)
Definition collect {A : Type} (eqb : A -> A -> bool) (xs l0 : list A) : list A :=
  fold_left (fun l x => append_new eqb x l) xs l0.

(** No entry compares equal to a later one. *)
Definition pairwise_distinct {A : Type} (eqb : A -> A -> bool) (l : list A) : Prop :=
  ForallOrdPairs (fun a b => eqb a b = false) l.

(** Two states of the process with the same files and the same working
    directory: they differ in what has been printed only. *)
Definition same_files (w1 w2 : world) : Prop :=
  root w1 = root w2 /\ cwd w1 = cwd w2.

(** [os.path.islink(af)] in the state [w]. *)
Definition is_link (w : world) (af : string) : bool :=
  match Fs.lstat (root w) (cwd w) af with
  | Some (Link _) | Some BrokenLink => true
  | _ => false
  end.

(** The candidates the loop hands to [parse_data]. *)
Definition read_files (w : world) (available_files : list string) : list string :=
  filter (fun af => negb (is_link w af)) available_files.

(** What [parse_data(af)] returns or raises in the state [w]. *)
Definition record_of (w : world) (af : string) : result FileRecord :=
  fst (parse_data af w).

(** A name a directory entry can have. *)
Definition valid_name (x : string) : bool :=
  negb (String.eqb x "") && negb (String.eqb x ".") && negb (String.eqb x "..")
  && negb (Str.contains OsPath.sep x).

Fixpoint distinct_names (l : list string) : bool :=
  match l with
  | [] => true
  | x :: r => negb (str_in x r) && distinct_names r
  end.

(** A tree in which every entry has such a name, and no directory has
    two entries of the same name. *)
Fixpoint well_formed (n : node) : bool :=
  match n with
  | Dir es =>
      distinct_names (map fst es)
      && forallb (fun e : string * node =>
                    let (x, child) := e in valid_name x && well_formed child) es
  | Link t => well_formed t
  | _ => true
  end.

(** The names [p] lead from [n] to an entry, and none of them starts with
    a dot. *)
Definition visible (n : node) (p : list string) : Prop :=
  Forall (fun x => Glob.ishidden x = false) p
  /\ exists m, Fs.lookup n p = Some m.

(** The file a path leads to, links followed to the end. *)
Definition file_at (n : node) (p : list string) : option node :=
  match Fs.lookup n p with
  | Some m => Fs.follow m
  | None => None
  end.

(** The centre of a filterbank band over the rationals, where nothing is
    rounded. *)
Definition center_exact (fch1 foff : Q) (nchans : Z) : Q :=
  (fch1 + foff * inject_Z (nchans - 1) / 2)%Q.


(** The half-band offset [foff*(nchans - 1)/2] as the script computes it. *)
Definition half_band (foff : Float64.float) (nchans : Z) : Float64.float :=
  Float64.div (Float64.mul foff (Float64.of_Z (nchans - 1))) (Float64.of_Z 2).

(** Sizes in gigabytes added up over the rationals, file by file. *)
Definition gigabytes_exact (bytes : list Z) : Q :=
  fold_left Qplus (map (fun b => inject_Z b / inject_Z (10 ^ 9))%Q bytes) 0%Q.

(** The same sizes added up as the script adds them. *)
Definition gigabytes (bytes : list Z) (start : Float64.float) : Float64.float :=
  fold_left Float64.add (map (fun b => Float64.truediv_Z b (10 ^ 9)) bytes) start.

(** The outcome of the loop as a function of the files alone: what
    [scan] returns, its prints left out. *)
Fixpoint scan_result (w : world) (available_files : list string) (s : Summary)
  : result Summary :=
  match available_files with
  | [] => Ok s
  | af :: rest =>
      if is_link w af then scan_result w rest s
      else match record_of w af with
           | Ok r => scan_result w rest (tally s r)
           | Stop sig => Stop sig
           end
  end.

(** A symbolic link to a regular file. *)
Definition links_to_file (n : node) : bool :=
  match n with
  | Link t => match Fs.follow t with
              | Some (File _ _) => true
              | _ => false
              end
  | _ => false
  end.

(** The summary with other epochs in it. *)
Definition with_MJDs (s : Summary) (epochs : list Float64.float) : Summary :=
  {| n_files := n_files s; tot_size := tot_size s; exts := exts s;
     telescopes := telescopes s; observers := observers s;
     project_ids := project_ids s; sources := sources s; modes := modes s;
     MJDs := epochs; center_freqs := center_freqs s |}.

(** The size on disk of the regular file at a path. *)
Definition bytes_of (w : world) (af : string) : option Z :=
  match Fs.stat (root w) (cwd w) af with
  | Some (File b _) => Some b
  | _ => None
  end.

(** The line of a text at a position, counted from 0. *)
Definition line (k : nat) (text : string) : string :=
  nth k (Str.split_on (ascii_of_nat 10) text) "".

(** The names the guard of line 160 looks at, in the state the run starts
    in. *)
Definition guarded (st : settings) (w : world) : option (list string) :=
  Fs.canon (root w) (cwd w) (OsPath.join (output_directory st) (output_name st)).

(** The names line 252 opens, in the state the run has reached then. *)
Definition opened (st : settings) (w : world) : option (list string) :=
  Fs.canon (root w) (cwd w) (output_name st).

(** An action that leaves the tree as it is, however it ends. *)
Definition keeps_tree {A : Type} (m : M A) : Prop :=
  forall w r w', m w = (r, w') -> root w' = root w.

(** An action that leaves the tree as it is when it stops early. *)
Definition stops_clean {A : Type} (m : M A) : Prop :=
  forall w sig w', m w = (Stop sig, w') -> root w' = root w.

(** The state a second process starts in: the tree the first one left,
    the working directory and the terminal of the first start. *)
Definition start_again (first : world) (r : result unit * world) : world :=
  {| root := root (snd r); cwd := cwd first; stdout := [] |}.

(** ** Sample data

    The scenario of the specification, one PSRFITS file and one
    filterbank file in a directory, and variations on it. *)

Module Sample.

Definition fits_hdr : Psrfits.hdr :=
  {| Psrfits.TELESCOP := "GBT";
     Psrfits.OBSERVER := "Smith  ";
     Psrfits.PROJID := "P001";
     Psrfits.SRC_NAME := " J0000+00";
     Psrfits.OBS_MODE := "SEARCH";
     Psrfits.STT_IMJD := 59000;
     Psrfits.STT_SMJD := 0;
     Psrfits.OBSFREQ := Float64.of_Z 1400 |}.

Definition fil_hdr : Fil.header :=
  {| Fil.telescope := "GBT";
     Fil.source := "J0000+00";
     Fil.tstart := Float64.of_Z 59001;
     Fil.fch1 := Float64.of_Z 1500;
     Fil.foff := Float64.of_Z (-1);
     Fil.nchans := 100 |}.

Definition fits_file (bytes : Z) : node := File bytes (PsrfitsData fits_hdr).

(** A PSRFITS file observed at a frequency of whole MHz. *)
Definition fits_at (mhz : Z) : node :=
  File 8 (PsrfitsData
            {| Psrfits.TELESCOP := "GBT"; Psrfits.OBSERVER := "Smith";
               Psrfits.PROJID := "P001"; Psrfits.SRC_NAME := "J0000+00";
               Psrfits.OBS_MODE := "SEARCH"; Psrfits.STT_IMJD := 59000;
               Psrfits.STT_SMJD := 0; Psrfits.OBSFREQ := Float64.of_Z mhz |}).
Definition fil_file (bytes : Z) : node := File bytes (FilterbankData fil_hdr).

(** The PSRFITS header of the scenario, started on another day at another
    second of the day. *)
Definition fits_hdr_on (imjd smjd : Z) : Psrfits.hdr :=
  {| Psrfits.TELESCOP := "GBT";
     Psrfits.OBSERVER := "Smith  ";
     Psrfits.PROJID := "P001";
     Psrfits.SRC_NAME := " J0000+00";
     Psrfits.OBS_MODE := "SEARCH";
     Psrfits.STT_IMJD := imjd;
     Psrfits.STT_SMJD := smjd;
     Psrfits.OBSFREQ := Float64.of_Z 1400 |}.


(** A tree with a data directory [/data] that holds [entries], next to a
    home directory; both have a directory [out]. *)
Definition tree (entries : list (string * node)) : node :=
  Dir [("data", Dir (entries ++ [("out", Dir [])]));
       ("home", Dir [("u", Dir [("out", Dir [])])])].

Definition at_home (entries : list (string * node)) : world :=
  {| root := tree entries; cwd := ["home"; "u"]; stdout := [] |}.

Definition env : environ :=
  {| user := "u"; script_file := "make_readme.py";
     start_timestamp := "2024-01-01 00:00:00";
     end_timestamp := "2024-01-01 00:00:01";
     answer := None |}.

(** A later run. *)
Definition env_later : environ :=
  {| user := "u"; script_file := "make_readme.py";
     start_timestamp := "2024-01-02 00:00:00";
     end_timestamp := "2024-01-02 00:00:01";
     answer := None |}.

Definition options (d l v : option string) : Cli.argv :=
  {| Cli.d := d; Cli.n := None; Cli.l := l; Cli.o := None; Cli.g := None;
     Cli.v := v |}.

Definition scenario : list (string * node) :=
  [("a.fits", fits_file 25000000); ("sub", Dir [("b.fil", fil_file 3000000)])].

(** The scenario with other epochs in the headers. *)
Definition other_epochs : list (string * node) :=
  [("a.fits", File 25000000 (PsrfitsData (fits_hdr_on 60000 86399)));
   ("sub", Dir [("b.fil",
                 File 3000000
                   (FilterbankData
                      {| Fil.telescope := "GBT";
                         Fil.source := "J0000+00";
                         Fil.tstart := Float64.of_Z 60002;
                         Fil.fch1 := Float64.of_Z 1500;
                         Fil.foff := Float64.of_Z (-1);
                         Fil.nchans := 100 |}))])].


(** Two records as [parse_data] makes them. *)
Definition record_a : FileRecord :=
  {| path := "/data"; file := "a.fits"; ext := ".fits";
     size := Float64.truediv_Z 8 (10 ^ 9);
     telescope := "GBT"; observer := "Smith"; project_id := "P001";
     source := "J0000+00"; mode := "SEARCH";
     MJD := Float64.of_Z 59000; center_freq := Float64.of_Z 1400 |}.

Definition record_b : FileRecord :=
  {| path := "/data"; file := "b.fil"; ext := ".fil";
     size := Float64.truediv_Z 8 (10 ^ 9);
     telescope := "GBT"; observer := "Unknown"; project_id := "Unknown";
     source := "J0000+00"; mode := "Unknown";
     MJD := Float64.of_Z 59001; center_freq := Float64.of_Z 1450 |}.

End Sample.

Module Runs.

(** The README that a run leaves at [/home/u/out] or at [/data/out]. *)
Definition readme_at (dir : list string) (r : result unit * world) : option string :=
  match file_at (root (snd r)) (dir ++ ["README.txt"]) with
  | Some (File _ (Text t)) => Some t
  | _ => None
  end.

Definition home_out : list string := ["home"; "u"; "out"].
Definition data_out : list string := ["data"; "out"].

(** [make_readme.py -d /data -l /home/u/out], run from [/home/u]. *)
Definition absolute : Cli.argv :=
  Sample.options (Some "/data") (Some "/home/u/out") None.

(** [make_readme.py -d /data -l out], run from [/home/u]. *)
Definition relative_out : Cli.argv :=
  Sample.options (Some "/data") (Some "out") None.

(** One file of 25 000 000 bytes, and the same bytes in two files. *)
Definition one_file : list (string * node) :=
  [("a.fits", Sample.fits_file 25000000)].

Definition two_files : list (string * node) :=
  [("a.fits", Sample.fits_file 3000000); ("b.fits", Sample.fits_file 22000000)].

(** Two files, at 350 and at 1400 MHz. *)
Definition two_bands : list (string * node) :=
  [("a.fits", Sample.fits_at 350); ("b.fits", Sample.fits_at 1400)].

(** A directory of links to files. *)
Definition only_links : world :=
  {| root := Dir [("data", Dir [("l1.fits", Link (Sample.fits_file 10));
                                ("l2.fil", Link (Sample.fil_file 20))])];
     cwd := ["data"]; stdout := [] |}.

Definition settings_of (d : string) (v : bool) : settings :=
  {| data_directory := d; output_name := "README.txt";
     output_directory := "/home/u/out"; owner := "Unknown";
     generator := "u"; verbose := v |}.

End Runs.

Module Zeros.

(** Filterbank headers whose band centre is [0.0], [-0.0] and NaN. *)
Definition header_of (f : Float64.float) : Fil.header :=
  {| Fil.telescope := "GBT"; Fil.source := "J0000+00";
     Fil.tstart := Float64.of_Z 59001;
     Fil.fch1 := f; Fil.foff := f; Fil.nchans := 1 |}.

Definition plus : node := File 8 (FilterbankData (header_of (S754_zero false))).
Definition minus : node := File 8 (FilterbankData (header_of (S754_zero true))).
Definition nan : node := File 8 (FilterbankData (header_of S754_nan)).

End Zeros.

Module Band.

(** The band from 1400 MHz in 2 channels of 0.2 MHz, in ascending order
    and mirrored: the same first channel, edge and width as doubles. *)
Definition f_low : Float64.float := Float64.of_Z 1400.
Definition width : Float64.float := Float64.truediv_Z 2 10.
Definition f_high : Float64.float := Float64.truediv_Z 14002 10.

Definition ascending : Fil.header :=
  {| Fil.telescope := "GBT"; Fil.source := "J0000+00";
     Fil.tstart := Float64.of_Z 59001;
     Fil.fch1 := f_low; Fil.foff := width; Fil.nchans := 2 |}.

Definition descending : Fil.header :=
  {| Fil.telescope := "GBT"; Fil.source := "J0000+00";
     Fil.tstart := Float64.of_Z 59001;
     Fil.fch1 := f_high; Fil.foff := Float64.opp width; Fil.nchans := 2 |}.

(** A band whose upper edge is a double exactly: from 2^-52 in 4 channels
    of 1 + 2^-52. *)
Definition tiny : Float64.float := S754_finite false 1 (-52).
Definition wide : Float64.float := S754_finite false (2 ^ 52 + 1) (-52).
Definition edge : Float64.float := S754_finite false (3 * 2 ^ 51 + 2) (-51).

Definition ascending_exact : Fil.header :=
  {| Fil.telescope := "GBT"; Fil.source := "J0000+00";
     Fil.tstart := Float64.of_Z 59001;
     Fil.fch1 := tiny; Fil.foff := wide; Fil.nchans := 4 |}.

Definition descending_exact : Fil.header :=
  {| Fil.telescope := "GBT"; Fil.source := "J0000+00";
     Fil.tstart := Float64.of_Z 59001;
     Fil.fch1 := edge; Fil.foff := Float64.opp wide; Fil.nchans := 4 |}.

Definition files : world :=
  Sample.at_home [("up.fil", File 8 (FilterbankData ascending));
                  ("down.fil", File 8 (FilterbankData descending));
                  ("up2.fil", File 8 (FilterbankData ascending_exact));
                  ("down2.fil", File 8 (FilterbankData descending_exact))].

(** The centre frequency [parse_data] returns for a path. *)
Definition center_of (p : string) : option Float64.float :=
  match record_of files p with
  | Ok r => Some (center_freq r)
  | Stop _ => None
  end.

End Band.

Module Hidden.

(** A data directory with a file whose name starts with a dot, a
    directory whose name ends in [.fits], and a plain data file; the
    state is the one after [os.chdir('/data')]. *)
Definition entries : list (string * node) :=
  [(".hidden.fits", Sample.fits_file 10);
   ("dir.fits", Dir []);
   ("a.fits", Sample.fits_file 20)].

Definition searched : world :=
  {| root := Sample.tree entries; cwd := ["data"]; stdout := [] |}.

End Hidden.

(** ** Vocabulary of the further properties *)

(** The state after one more line has been printed. *)
Definition printed (w : world) (text : string) : world :=
  {| root := root w; cwd := cwd w; stdout := (stdout w ++ [text])%list |}.

(** [os.path.isdir(p)] and [os.path.exists(p)] in the state [w]. *)
Definition is_directory (w : world) (p : string) : bool :=
  match Fs.stat (root w) (cwd w) p with
  | Some (Dir _) => true
  | _ => false
  end.

Definition path_exists (w : world) (p : string) : bool :=
  match Fs.stat (root w) (cwd w) p with
  | Some _ => true
  | None => false
  end.

(** What the loop prints for a candidate when it is verbose. *)
Definition scan_message (w : world) (af : string) : string :=
  if is_link w af then af ++ " is a symlink and will not be read."
  else "Reading header of " ++ af ++ ".".

(** The state after the loop has announced a candidate, or not. *)
Definition told (st : settings) (w : world) (af : string) : world :=
  if verbose st then printed w (scan_message w af) else w.

(** The question of line 187. *)
Definition prompt (available_files : list string) : string :=
  "There are " ++ Str.of_Z (Z.of_nat (List.length available_files))
  ++ " files to read. Are you sure you want to proceed? [Y/N] ".

(** An option with an empty value, taken as not given. *)
Definition omit_empty (x : option string) : option string :=
  match x with
  | Some s => if String.eqb s "" then None else Some s
  | None => None
  end.

Definition without_empty (a : Cli.argv) : Cli.argv :=
  {| Cli.d := omit_empty (Cli.d a); Cli.n := omit_empty (Cli.n a);
     Cli.l := omit_empty (Cli.l a); Cli.o := omit_empty (Cli.o a);
     Cli.g := omit_empty (Cli.g a); Cli.v := omit_empty (Cli.v a) |}.

(** The same command line with another value, or none, for [-v]. *)
Definition with_v (a : Cli.argv) (v : option string) : Cli.argv :=
  {| Cli.d := Cli.d a; Cli.n := Cli.n a; Cli.l := Cli.l a; Cli.o := Cli.o a;
     Cli.g := Cli.g a; Cli.v := v |}.

(** The same settings with another verbosity. *)
Definition with_verbose (st : settings) (b : bool) : settings :=
  {| data_directory := data_directory st; output_name := output_name st;
     output_directory := output_directory st; owner := owner st;
     generator := generator st; verbose := b |}.

(** Two actions that do the same to the files and return the same,
    whatever has been printed before and whatever they print. *)
Definition agree {A : Type} (m1 m2 : M A) : Prop :=
  forall w1 w2, same_files w1 w2 ->
    fst (m1 w1) = fst (m2 w2) /\ same_files (snd (m1 w1)) (snd (m2 w2)).

(** A float that is neither a NaN nor below zero nor the negative zero. *)
Definition nonnegative (x : Float64.float) : Prop :=
  match x with
  | S754_zero false | S754_infinity false | S754_finite false _ _ => True
  | _ => False
  end.

(** The names [p] lead from [n] to a directory. *)
Definition dir_at (n : node) (p : list string) : Prop :=
  exists m es, Fs.lookup n p = Some m /\ Fs.as_dir m = Some es.

(** A tree without symbolic links: every path names an entry of its
    own. *)
Fixpoint link_free (n : node) : bool :=
  match n with
  | File _ _ => true
  | Dir es => forallb (fun e : string * node => let (_, child) := e in link_free child) es
  | Link _ | BrokenLink => false
  end.

(** Two lists of names that part ways: after a common start, each goes on
    with a name of its own. *)
Definition diverge (p q : list string) : Prop :=
  exists common c c' r r',
    p = (common ++ c :: r)%list /\ q = (common ++ c' :: r')%list /\ c <> c'.

(** The script after the settings are resolved, lines 154-268. *)
Definition run (env : environ) (st : settings) : M unit :=
  check_directories st ;;
  chdir (data_directory st) ;;
  available_files <- pick_files st extensions [] ;;
  confirm env available_files ;;
  s <- scan st available_files empty_summary ;;
  chdir (output_directory st) ;;
  write_file (output_name st) (readme st env s).

(** ** More sample data *)

Module Broken.

(** A data directory with a text file, a file named as PSRFITS that is
    none, and a PSRFITS file named as a filterbank file. *)
Definition entries : list (string * node) :=
  [("notes.txt", File 5 (Text "hello"));
   ("bad.fits", File 5 OtherData);
   ("x.fil", Sample.fits_file 8);
   ("good.fits", Sample.fits_file 8)].

Definition searched : world :=
  {| root := Sample.tree entries; cwd := ["data"]; stdout := [] |}.

(** [make_readme.py -d /nowhere] and [make_readme.py -d /data -l /nowhere]. *)
Definition no_data : Cli.argv := Sample.options (Some "/nowhere") None None.
Definition no_output : Cli.argv :=
  Sample.options (Some "/data") (Some "/nowhere") None.

(** A data directory that holds a README already, and
    [make_readme.py -d /data -l /data]. *)
Definition taken : world :=
  Sample.at_home [("README.txt", File 3 (Text "old"))].
Definition into_data : Cli.argv :=
  Sample.options (Some "/data") (Some "/data") None.

(** A thousand and one candidates. *)
Definition many : list string := List.repeat "/data/a.fits" 1001.

Definition yes : environ :=
  {| user := "u"; script_file := "make_readme.py";
     start_timestamp := "2024-01-01 00:00:00";
     end_timestamp := "2024-01-01 00:00:01";
     answer := Some "Y" |}.

(** A home directory with a data directory that holds a file, and
    [make_readme.py -d data] run there. *)
Definition at_start : world :=
  {| root := Dir [("home", Dir [("u", Dir [("data",
                    Dir [("a.fits", Sample.fits_file 8)])])])];
     cwd := ["home"; "u"]; stdout := [] |}.
Definition relative : Cli.argv := Sample.options (Some "data") None None.
Definition relative_settings : settings :=
  {| data_directory := "data"; output_name := "README.txt";
     output_directory := "/home/u/"; owner := "Unknown";
     generator := "u"; verbose := false |}.

(** A data directory with a directory and a link to it; the state is the
    one after [os.chdir('/data')]. *)
Definition linked : world :=
  {| root := Dir [("data", Dir [("sub", Dir [("a.fits", Sample.fits_file 8)]);
                                ("lnk", Link (Dir [("a.fits", Sample.fits_file 8)]))])];
     cwd := ["data"]; stdout := [] |}.

End Broken.

(** * Properties *)

(** ** Strings *)

Module StrFacts.
Import Str.

Lemma append_assoc (a b c : string) : (a ++ b) ++ c = a ++ b ++ c.
Proof. induction a as [|x a IH]; simpl; [reflexivity | now rewrite IH]. Qed.

Lemma append_nil_r (a : string) : a ++ "" = a.
Proof. induction a as [|x a IH]; simpl; [reflexivity | now rewrite IH]. Qed.

Lemma length_append (a b : string) :
  String.length (a ++ b) = (String.length a + String.length b)%nat.
Proof. induction a as [|x a IH]; simpl; [reflexivity | now rewrite IH]. Qed.

Lemma take_append (a b : string) : Str.take (String.length a) (a ++ b) = a.
Proof. induction a as [|x a IH]; simpl; [now destruct b | now rewrite IH]. Qed.

Lemma drop_append (a b : string) : Str.drop (String.length a) (a ++ b) = b.
Proof. induction a as [|x a IH]; simpl; [reflexivity | exact IH]. Qed.

(** No occurrence, no index. *)
Lemma rfind_absent (c : ascii) (s : string) :
  Str.contains c s = false -> Str.rfind c s = -1.
Proof.
  induction s as [|x s IH]; simpl; [reflexivity|].
  intros H. apply orb_false_iff in H as [Hx Hs].
  rewrite (IH Hs), Hx. reflexivity.
Qed.

(** The last occurrence is the one after which there is none. *)
Lemma rfind_last (c : ascii) (a b : string) :
  Str.contains c b = false ->
  Str.rfind c (a ++ String c b) = Str.len a.
Proof.
  intros Hb. unfold Str.len.
  induction a as [|x a IH]; simpl.
  - rewrite (rfind_absent _ _ Hb). simpl. now rewrite Ascii.eqb_refl.
  - rewrite IH.
    destruct (0 <=? Z.of_nat (String.length a)) eqn:E.
    + lia.
    + apply Z.leb_gt in E. lia.
Qed.

(** [endswith] says what its name says. *)
Lemma endswith_spec (s t : string) :
  Str.endswith s t = true <-> exists a, s = a ++ t.
Proof.
  split.
  - induction s as [|x s IH]; intros H.
    + destruct t; [now exists ""|discriminate].
    + change (String.eqb (String x s) t || Str.endswith s t = true) in H.
      apply orb_true_iff in H as [H | H].
      * apply String.eqb_eq in H. now exists "".
      * destruct (IH H) as [a ->]. now exists (String x a).
  - intros [a ->]. induction a as [|x a IH]; simpl.
    + destruct t; simpl; [reflexivity|].
      now rewrite Ascii.eqb_refl, String.eqb_refl.
    + rewrite IH. apply orb_true_r.
Qed.

(** Splitting at a separator: the pieces of the two sides. *)
Lemma split_on_absent (c : ascii) (s : string) :
  Str.contains c s = false -> Str.split_on c s = [s].
Proof.
  induction s as [|x s IH]; simpl; [reflexivity|].
  intros H. apply orb_false_iff in H as [Hx Hs].
  now rewrite Hx, (IH Hs).
Qed.

Lemma split_on_nonempty (c : ascii) (s : string) : Str.split_on c s <> [].
Proof.
  induction s as [|x s IH]; simpl; [discriminate|].
  destruct (Ascii.eqb x c); [discriminate|].
  destruct (Str.split_on c s); [contradiction | discriminate].
Qed.

Lemma split_on_append (c : ascii) (a b : string) :
  Str.split_on c (a ++ String c b)
  = (Str.split_on c a ++ Str.split_on c b)%list.
Proof.
  induction a as [|x a IH]; simpl.
  - now rewrite Ascii.eqb_refl.
  - destruct (Ascii.eqb x c); [now rewrite IH|].
    rewrite IH.
    destruct (Str.split_on c a) as [|w ws] eqn:E; [|reflexivity].
    now apply split_on_nonempty in E.
Qed.





End StrFacts.

(** ** Extensions *)

Module PathFacts.
Import StrFacts.

(** A path that ends in a name without a slash, the name being a stem
    that does not begin with a dot, followed by a dot and a dotless
    suffix: [splitext] cuts at that last dot. *)
Lemma splitext_name (pre : string) (c : ascii) (stem x : string) :
  (pre = "" \/ exists pre', pre = pre' ++ "/") ->
  Ascii.eqb c OsPath.extsep = false ->
  Str.contains OsPath.sep (String c stem ++ String OsPath.extsep x) = false ->
  Str.contains OsPath.extsep x = false ->
  OsPath.splitext (pre ++ String c stem ++ String OsPath.extsep x)
  = (pre ++ String c stem, String OsPath.extsep x).
Proof.
  intros Hpre Hc Hsep Hdot.
  set (name := String c stem ++ String OsPath.extsep x) in *.
  assert (Hsi : Str.rfind OsPath.sep (pre ++ name) = Str.len pre - 1).
  { destruct Hpre as [-> | [pre' ->]].
    - simpl (_ ++ _). rewrite (rfind_absent _ _ Hsep). reflexivity.
    - rewrite append_assoc. change ("/" ++ name) with (String OsPath.sep name).
      rewrite (rfind_last _ _ _ Hsep). unfold Str.len.
      rewrite length_append. simpl. lia. }
  assert (Hdi : Str.rfind OsPath.extsep (pre ++ name)
                = Str.len (pre ++ String c stem)).
  { unfold name. rewrite <- append_assoc. now apply rfind_last. }
  unfold OsPath.splitext. rewrite Hsi, Hdi.
  unfold Str.len. rewrite length_append. simpl String.length.
  replace (Z.of_nat (String.length pre + S (String.length stem))
           >? Z.of_nat (String.length pre) - 1) with true
    by (symmetry; apply Z.gtb_lt; lia).
  replace (Z.to_nat (Z.of_nat (String.length pre) - 1 + 1))
    with (String.length pre) by lia.
  rewrite drop_append.
  replace (Z.to_nat (Z.of_nat (String.length pre + S (String.length stem))
                     - (Z.of_nat (String.length pre) - 1 + 1)))
    with (S (String.length stem)) by lia.
  unfold name at 1. simpl OsPath.only_dots. rewrite Hc.
  replace (Z.to_nat (Z.of_nat (String.length pre + S (String.length stem))))
    with (String.length (pre ++ String c stem))
    by (rewrite length_append; simpl; lia).
  unfold name. rewrite <- append_assoc.
  now rewrite take_append, drop_append.
Qed.

(** The four extensions are a dot and a dotless, slashless word. *)
Lemma extension_shape (e : string) :
  In e extensions ->
  exists x, e = String OsPath.extsep x
            /\ Str.contains OsPath.extsep x = false
            /\ Str.contains OsPath.sep x = false.
Proof.
  intros H. simpl in H.
  destruct H as [<- | [<- | [<- | [<- | []]]]];
    eexists; (split; [reflexivity | split; reflexivity]).
Qed.

(** What glob's name test gives: a name that does not start with a dot
    and ends in an extension has that extension, wherever it lies. *)
Lemma splitext_matched (pre name e : string) :
  In e extensions ->
  (pre = "" \/ exists pre', pre = pre' ++ "/") ->
  Glob.ishidden name = false ->
  Str.endswith name e = true ->
  Str.contains OsPath.sep name = false ->
  snd (OsPath.splitext (pre ++ name)) = e.
Proof.
  intros He Hpre Hhid Hend Hsep.
  destruct (extension_shape e He) as [x [-> [Hx _]]].
  apply endswith_spec in Hend as [a ->].
  destruct a as [|c stem].
  - discriminate Hhid.
  - unfold Glob.ishidden in Hhid. simpl in Hhid.
    now rewrite (splitext_name pre c stem x Hpre Hhid Hsep Hx).
Qed.

End PathFacts.

(** ** The order of strings and [sorted] *)

Module SortFacts.
Import Str.

Lemma ascii_compare_lt (a b : ascii) :
  Ascii.compare a b = Lt <-> (N_of_ascii a < N_of_ascii b)%N.
Proof. unfold Ascii.compare. now rewrite N.compare_lt_iff. Qed.

Lemma ascii_compare_eq (a b : ascii) : Ascii.compare a b = Eq <-> a = b.
Proof.
  split; [apply Ascii.compare_eq_iff|].
  intros ->. unfold Ascii.compare. apply N.compare_refl.
Qed.

Lemma compare_trans (a b c : string) :
  String.compare a b <> Gt -> String.compare b c <> Gt ->
  String.compare a c <> Gt
  /\ (String.compare a c = Eq ->
      String.compare a b = Eq /\ String.compare b c = Eq).
Proof.
  revert b c. induction a as [|x a IH]; intros [|y b] [|z c]; simpl;
    try (intros; repeat split; congruence).
  destruct (Ascii.compare x y) eqn:Exy; try congruence;
    destruct (Ascii.compare y z) eqn:Eyz; try congruence; intros Hab Hbc.
  - apply ascii_compare_eq in Exy, Eyz. subst y z.
    rewrite (proj2 (ascii_compare_eq x x) eq_refl). now apply IH.
  - apply ascii_compare_eq in Exy. subst y. rewrite Eyz. repeat split; congruence.
  - apply ascii_compare_eq in Eyz. subst z. rewrite Exy. repeat split; congruence.
  - apply ascii_compare_lt in Exy. apply ascii_compare_lt in Eyz.
    assert (E : Ascii.compare x z = Lt)
      by (apply ascii_compare_lt; eapply N.lt_trans; eassumption).
    rewrite E. repeat split; congruence.
Qed.

Lemma le_trans (a b c : string) : le a b -> le b c -> le a c.
Proof.
  unfold le, String.leb. intros Hab Hbc.
  destruct (compare_trans a b c) as [H _].
  - destruct (String.compare a b); congruence.
  - destruct (String.compare b c); congruence.
  - destruct (String.compare a c); congruence.
Qed.
Lemma le_total (a b : string) : le a b \/ le b a.
Proof. apply String.leb_total. Qed.

Lemma le_refl (a : string) : le a a.
Proof. now destruct (String.leb_total a a). Qed.

Lemma le_antisym (a b : string) : le a b -> le b a -> a = b.
Proof. apply String.leb_antisym. Qed.

Lemma insert_perm (x : string) (l : list string) :
  Permutation (Str.insert x l) (x :: l).
Proof.
  induction l as [|y l IH]; simpl; [reflexivity|].
  destruct (String.leb x y); [reflexivity|].
  rewrite IH. apply perm_swap.
Qed.

Lemma sorted_perm (l : list string) : Permutation (Str.sorted l) l.
Proof.
  induction l as [|x l IH]; simpl; [reflexivity|].
  rewrite insert_perm. now constructor.
Qed.

Lemma insert_sorted (x : string) (l : list string) :
  StronglySorted le l -> StronglySorted le (Str.insert x l).
Proof.
  induction 1 as [|y l Hs IH Hy]; simpl.
  - repeat constructor.
  - destruct (String.leb x y) eqn:E.
    + constructor; [now constructor|].
      constructor; [exact E|].
      eapply Forall_impl; [|exact Hy]. intros z Hz. now apply le_trans with y.
    + constructor; [exact IH|].
      eapply Permutation_Forall; [symmetry; apply insert_perm|].
      constructor; [|exact Hy].
      destruct (le_total x y) as [H | H]; [unfold le in H; congruence | exact H].
Qed.

Lemma sorted_sorted (l : list string) : StronglySorted le (Str.sorted l).
Proof.
  induction l as [|x l IH]; simpl; [constructor | now apply insert_sorted].
Qed.

(** A sorted list is determined by its elements. *)
Lemma sorted_unique (l1 l2 : list string) :
  StronglySorted le l1 -> StronglySorted le l2 -> Permutation l1 l2 ->
  l1 = l2.
Proof.
  intros H1. revert l2. induction H1 as [|x l1 Hs1 IH Hx]; intros l2 H2 Hp.
  - now apply Permutation_nil in Hp.
  - destruct H2 as [|y l2 Hs2 Hy].
    + symmetry in Hp. now apply Permutation_nil in Hp.
    + assert (x = y).
      { apply le_antisym.
        - assert (Hin : In y (x :: l1))
            by (eapply Permutation_in; [symmetry; exact Hp | now left]).
          destruct Hin as [Heq | Hin]; [subst; apply le_refl|].
          rewrite Forall_forall in Hx. now apply Hx.
        - assert (Hin : In x (y :: l2))
            by (eapply Permutation_in; [exact Hp | now left]).
          destruct Hin as [Heq | Hin]; [subst; apply le_refl|].
          rewrite Forall_forall in Hy. now apply Hy. }
      subst y. f_equal. apply IH; [exact Hs2|].
      now apply Permutation_cons_inv in Hp.
Qed.

Lemma sorted_of_perm (l1 l2 : list string) :
  Permutation l1 l2 -> Str.sorted l1 = Str.sorted l2.
Proof.
  intros Hp. apply sorted_unique; try apply sorted_sorted.
  rewrite !sorted_perm. exact Hp.
Qed.

End SortFacts.

(** ** The accumulators *)

Module TallyFacts.

Section AppendNew.
Context {A : Type} (eqb : A -> A -> bool).

Lemma append_new_keeps (x y : A) (l : list A) :
  In y l -> In y (append_new eqb x l).
Proof.
  unfold append_new. destruct (existsb _ l); [auto|].
  intros H. apply in_app_iff. now left.
Qed.

Lemma collect_keeps (xs l0 : list A) (y : A) :
  In y l0 -> In y (collect eqb xs l0).
Proof.
  revert l0. induction xs as [|x xs IH]; simpl; intros l0 H; [exact H|].
  apply IH. now apply append_new_keeps.
Qed.

Lemma pairwise_snoc (l : list A) (x : A) :
  pairwise_distinct eqb l ->
  Forall (fun y => eqb y x = false) l ->
  pairwise_distinct eqb (l ++ [x]).
Proof.
  unfold pairwise_distinct.
  induction 1 as [|a l Ha Hl IH]; simpl; intros Hx.
  - constructor; constructor.
  - inversion Hx as [|? ? Hax Hlx]; subst.
    constructor; [|now apply IH].
    apply Forall_app. split; [exact Ha | now constructor].
Qed.

Lemma append_new_pairwise (x : A) (l : list A) :
  pairwise_distinct eqb l -> pairwise_distinct eqb (append_new eqb x l).
Proof.
  intros H. unfold append_new.
  destruct (existsb (fun y => eqb y x) l) eqn:E; [exact H|].
  apply pairwise_snoc; [exact H|].
  apply Forall_forall. intros y Hy.
  destruct (eqb y x) eqn:Eyx; [|reflexivity].
  assert (existsb (fun y => eqb y x) l = true)
    by (apply existsb_exists; now exists y).
  congruence.
Qed.

Lemma collect_pairwise (xs l0 : list A) :
  pairwise_distinct eqb l0 -> pairwise_distinct eqb (collect eqb xs l0).
Proof.
  revert l0. induction xs as [|x xs IH]; simpl; intros l0 H; [exact H|].
  apply IH. now apply append_new_pairwise.
Qed.

(** Every value that came by is in the list, or an equal one is. *)
Lemma collect_covers (xs l0 : list A) (x : A) :
  In x xs ->
  exists y, In y (collect eqb xs l0) /\ (y = x \/ eqb y x = true).
Proof.
  revert l0. induction xs as [|a xs IH]; simpl; intros l0 H; [contradiction|].
  destruct H as [-> | H]; [|now apply IH].
  unfold append_new at 1.
  destruct (existsb (fun y => eqb y x) l0) eqn:E.
  - apply existsb_exists in E as [y [Hy Hyx]].
    exists y. split; [now apply collect_keeps | now right].
  - exists x. split; [|now left].
    apply collect_keeps. apply in_app_iff. right. now left.
Qed.

End AppendNew.

(** *** Lists of strings *)

Lemma str_in_iff (x : string) (l : list string) :
  existsb (fun y => String.eqb y x) l = true <-> In x l.
Proof.
  rewrite existsb_exists. split.
  - intros [y [Hy E]]. apply String.eqb_eq in E. now subst.
  - intros H. exists x. split; [exact H | apply String.eqb_refl].
Qed.

Lemma append_new_str_in (x y : string) (l : list string) :
  In y (append_new String.eqb x l) <-> In y l \/ y = x.
Proof.
  unfold append_new.
  destruct (existsb (fun z => String.eqb z x) l) eqn:E.
  - apply str_in_iff in E. split; [now left|]. intros [H | ->]; assumption.
  - rewrite in_app_iff. simpl. intuition.
Qed.

Lemma append_new_str_nodup (x : string) (l : list string) :
  NoDup l -> NoDup (append_new String.eqb x l).
Proof.
  intros H. unfold append_new.
  destruct (existsb (fun z => String.eqb z x) l) eqn:E; [exact H|].
  assert (Hx : ~ In x l).
  { intros Hin. apply str_in_iff in Hin. congruence. }
  apply NoDup_app; [exact H | repeat constructor; auto |].
  intros a Ha [<- | []]. contradiction.
Qed.

Lemma collect_str_in (xs l0 : list string) (y : string) :
  In y (collect String.eqb xs l0) <-> In y l0 \/ In y xs.
Proof.
  revert l0. induction xs as [|x xs IH]; simpl; intros l0; [intuition|].
  rewrite IH, append_new_str_in. intuition.
Qed.

Lemma collect_str_nodup (xs l0 : list string) :
  NoDup l0 -> NoDup (collect String.eqb xs l0).
Proof.
  revert l0. induction xs as [|x xs IH]; simpl; intros l0 H; [exact H|].
  apply IH. now apply append_new_str_nodup.
Qed.

(** The list holds the distinct values, whatever the order they came in. *)
Lemma collect_str_nodup_perm (xs : list string) :
  Permutation (collect String.eqb xs []) (nodup string_dec xs).
Proof.
  apply NoDup_Permutation.
  - apply collect_str_nodup. constructor.
  - apply NoDup_nodup.
  - intros y. rewrite collect_str_in, nodup_In. simpl. intuition.
Qed.

Lemma collect_str_perm (xs xs' : list string) :
  Permutation xs xs' ->
  Permutation (collect String.eqb xs []) (collect String.eqb xs' []).
Proof.
  intros Hp. apply NoDup_Permutation;
    try (apply collect_str_nodup; constructor).
  intros y. rewrite !collect_str_in. simpl.
  split; (intros [[] | H]; right);
    [eapply Permutation_in; eauto | eapply Permutation_in; [symmetry|]; eauto].
Qed.

(** *** The summary, field by field *)

Lemma tally_fields (rs : list FileRecord) (s : Summary) :
  let s' := fold_left tally rs s in
  n_files s' = n_files s + Z.of_nat (List.length rs)
  /\ tot_size s' = fold_left Float64.add (map size rs) (tot_size s)
  /\ exts s' = collect String.eqb (map ext rs) (exts s)
  /\ telescopes s' = collect String.eqb (map telescope rs) (telescopes s)
  /\ observers s' = collect String.eqb (map observer rs) (observers s)
  /\ project_ids s' = collect String.eqb (map project_id rs) (project_ids s)
  /\ sources s' = collect String.eqb (map source rs) (sources s)
  /\ modes s' = collect String.eqb (map mode rs) (modes s)
  /\ MJDs s' = collect Float64.eqb (map MJD rs) (MJDs s)
  /\ center_freqs s' = collect Float64.eqb (map center_freq rs) (center_freqs s).
Proof.
  revert s. induction rs as [|r rs IH]; intros s; simpl.
  - repeat split; lia.
  - destruct (IH (tally s r)) as (H1 & H2 & H3 & H4 & H5 & H6 & H7 & H8 & H9 & H10).
    simpl in *. repeat split; try assumption. lia.
Qed.

End TallyFacts.

(** ** The scan loop *)

Module ScanFacts.

Lemma same_files_refl (w : world) : same_files w w.
Proof. split; reflexivity. Qed.

Lemma same_files_trans (w1 w2 w3 : world) :
  same_files w1 w2 -> same_files w2 w3 -> same_files w1 w3.
Proof. intros [H1 H2] [H3 H4]. split; congruence. Qed.

Lemma islink_eq (af : string) (w : world) : islink af w = (Ok (is_link w af), w).
Proof.
  unfold islink, is_link.
  destruct (Fs.lstat (root w) (cwd w) af) as [[| | |]|]; reflexivity.
Qed.

Lemma is_link_same (w1 w2 : world) (af : string) :
  same_files w1 w2 -> is_link w1 af = is_link w2 af.
Proof. intros [H1 H2]. unfold is_link. now rewrite H1, H2. Qed.

Lemma read_files_same (w1 w2 : world) (afs : list string) :
  same_files w1 w2 -> read_files w1 afs = read_files w2 afs.
Proof.
  intros H. unfold read_files. apply filter_ext.
  intros af. now rewrite (is_link_same w1 w2 af H).
Qed.

(** [parse_data] reads and leaves the state as it is. *)
Lemma parse_data_state (af : string) (w : world) : snd (parse_data af w) = w.
Proof.
  unfold parse_data.
  destruct (OsPath.split af) as [p f]. destruct (OsPath.splitext af) as [nm e].
  unfold bind, getsize, PyPSRFITS, FilReader, ret, raise.
  destruct (str_in e psrfits_exts); [|destruct (str_in e fil_exts)];
    destruct (Fs.stat (root w) (cwd w) af) as [[b c| | |]|] eqn:E;
    cbv beta iota zeta; rewrite ?E; try destruct c; reflexivity.
Qed.

Lemma parse_data_eq (af : string) (w : world) :
  parse_data af w = (record_of w af, w).
Proof.
  unfold record_of. rewrite <- (parse_data_state af w) at 3.
  now destruct (parse_data af w).
Qed.

Lemma record_of_same (w1 w2 : world) (af : string) :
  same_files w1 w2 -> record_of w1 af = record_of w2 af.
Proof.
  intros [H1 H2]. destruct w1 as [r1 c1 o1], w2 as [r2 c2 o2].
  simpl in H1, H2. subst r2 c2.
  unfold record_of, parse_data.
  destruct (OsPath.split af) as [p f]. destruct (OsPath.splitext af) as [nm e].
  unfold bind, getsize, PyPSRFITS, FilReader, ret, raise. cbn [root cwd].
  destruct (str_in e psrfits_exts); [|destruct (str_in e fil_exts)];
    destruct (Fs.stat r1 c1 af) as [[b c| | |]|] eqn:E;
    cbv beta iota zeta; cbn [root cwd]; rewrite ?E; try destruct c; reflexivity.
Qed.

Lemma when_print (b : bool) (line : string) (w : world) :
  exists w1, when b (print line) w = (Ok tt, w1) /\ same_files w w1.
Proof.
  destruct b; simpl.
  - eexists. split; [reflexivity|]. split; reflexivity.
  - exists w. split; [reflexivity | apply same_files_refl].
Qed.

(** One turn of the loop. *)
Lemma scan_cons (st : settings) (af : string) (rest : list string)
      (s : Summary) (w : world) :
  exists w1, same_files w w1 /\
    scan st (af :: rest) s w =
    if is_link w af then scan st rest s w1
    else match record_of w af with
         | Ok r => scan st rest (tally s r) w1
         | Stop sig => (Stop sig, w1)
         end.
Proof.
  cbn [scan]. unfold bind at 1. rewrite islink_eq.
  destruct (is_link w af); cbn [negb].
  - unfold bind at 1.
    destruct (when_print (verbose st) (af ++ " is a symlink and will not be read.") w)
      as [w1 [-> Hw1]].
    exists w1. now split.
  - unfold bind at 1.
    destruct (when_print (verbose st) ("Reading header of " ++ af ++ ".") w)
      as [w1 [-> Hw1]].
    exists w1. split; [exact Hw1|].
    unfold bind at 1. rewrite parse_data_eq.
    rewrite <- (record_of_same w w1 af Hw1).
    now destruct (record_of w af).
Qed.

(** The loop never touches the files. *)
Lemma scan_same_files (st : settings) (afs : list string) (s : Summary) (w : world) :
  same_files w (snd (scan st afs s w)).
Proof.
  revert s w. induction afs as [|af rest IH]; intros s w.
  - apply same_files_refl.
  - destruct (scan_cons st af rest s w) as [w1 [Hw1 ->]].
    destruct (is_link w af).
    + eapply same_files_trans; [exact Hw1 | apply IH].
    + destruct (record_of w af); [|exact Hw1].
      eapply same_files_trans; [exact Hw1 | apply IH].
Qed.

(** When the loop ends, it has tallied, in order, the records of the
    candidates that are not links. *)
Lemma scan_ok (st : settings) (afs : list string) (s s' : Summary) (w w' : world) :
  scan st afs s w = (Ok s', w') ->
  exists rs, map Ok rs = map (record_of w) (read_files w afs)
             /\ s' = fold_left tally rs s.
Proof.
  revert s w. induction afs as [|af rest IH]; intros s w H.
  - simpl in H. injection H as <- _. now exists [].
  - destruct (scan_cons st af rest s w) as [w1 [Hw1 E]]. rewrite E in H.
    unfold read_files. simpl. fold (read_files w rest).
    destruct (is_link w af); simpl.
    + destruct (IH _ _ H) as [rs [H1 H2]]. exists rs.
      rewrite (read_files_same w w1 rest Hw1). split; [|exact H2].
      rewrite H1. apply map_ext. intros a. symmetry. now apply record_of_same.
    + destruct (record_of w af) as [r|sig]; [|discriminate].
      destruct (IH _ _ H) as [rs [H1 H2]]. exists (r :: rs). simpl.
      rewrite (read_files_same w w1 rest Hw1). split; [|exact H2].
      rewrite H1. f_equal. apply map_ext. intros a. symmetry.
      now apply record_of_same.
Qed.

(** And it does end, when every file it reads can be parsed. *)
Lemma scan_total (st : settings) (afs : list string) (rs : list FileRecord)
      (s : Summary) (w : world) :
  map Ok rs = map (record_of w) (read_files w afs) ->
  exists w', scan st afs s w = (Ok (fold_left tally rs s), w').
Proof.
  revert rs s w. induction afs as [|af rest IH]; intros rs s w H.
  - destruct rs; [|discriminate]. now exists w.
  - destruct (scan_cons st af rest s w) as [w1 [Hw1 E]]. rewrite E.
    unfold read_files in H. simpl in H. fold (read_files w rest) in H.
    assert (Hm : map (record_of w) (read_files w rest)
                 = map (record_of w1) (read_files w1 rest)).
    { rewrite (read_files_same w w1 rest Hw1). apply map_ext.
      intros a. now apply record_of_same. }
    destruct (is_link w af); simpl in H.
    + apply IH. now rewrite <- Hm.
    + destruct rs as [|r rs]; [discriminate|]. simpl in H.
      injection H as Hr Hrs. rewrite <- Hr. simpl.
      apply IH. now rewrite <- Hm.
Qed.

End ScanFacts.

(** ** The file system *)

Module FsFacts.

Lemma follow_idem (n m : node) : Fs.follow n = Some m -> Fs.follow m = Some m.
Proof.
  induction n as [b c|es|t IH|]; simpl; intros H;
    try (injection H as <-; reflexivity); auto; discriminate.
Qed.

Lemma as_dir_follow (n m : node) : Fs.follow n = Some m -> Fs.as_dir m = Fs.as_dir n.
Proof.
  intros H. unfold Fs.as_dir. now rewrite (follow_idem n m H), H.
Qed.

Lemma lookup_app (n : node) (p q : list string) :
  Fs.lookup n (p ++ q)
  = match Fs.lookup n p with
    | Some m => Fs.lookup m q
    | None => None
    end.
Proof.
  revert n. induction p as [|c p IH]; intros n; simpl; [reflexivity|].
  destruct (Fs.as_dir n) as [es|]; [|reflexivity].
  destruct (Fs.assoc c es) as [n'|]; [apply IH | reflexivity].
Qed.

(** Below a directory, a link to it and the directory itself look the
    same. *)
Lemma lookup_follow (n m : node) (p : list string) :
  Fs.follow n = Some m -> p <> [] -> Fs.lookup n p = Fs.lookup m p.
Proof.
  intros H Hp. destruct p as [|c p]; [contradiction|]. simpl.
  now rewrite (as_dir_follow n m H).
Qed.

Lemma valid_name_sep (x : string) :
  valid_name x = true -> Str.contains OsPath.sep x = false.
Proof.
  unfold valid_name. intros H. apply andb_true_iff in H as [_ H].
  now apply negb_true_iff in H.
Qed.

Lemma valid_name_step (x : string) :
  valid_name x = true ->
  String.eqb x "" || String.eqb x "." = false /\ String.eqb x ".." = false.
Proof.
  unfold valid_name. intros H.
  apply andb_true_iff in H as [H _]. apply andb_true_iff in H as [H H3].
  apply andb_true_iff in H as [H1 H2].
  apply negb_true_iff in H1, H2, H3. now rewrite H1, H2, H3.
Qed.

(** Joining names with slashes and splitting at the slashes again. *)
Lemma split_join (p : list string) :
  p <> [] -> Forall (fun x => valid_name x = true) p ->
  Str.split_on OsPath.sep (Str.join "/" p) = p.
Proof.
  induction p as [|x p IH]; [contradiction|]. intros _ H.
  inversion H as [|? ? Hx Hp]; subst.
  destruct p as [|y p].
  - simpl. now apply StrFacts.split_on_absent, valid_name_sep.
  - change (Str.join "/" (x :: y :: p)) with (x ++ String OsPath.sep (Str.join "/" (y :: p))).
    rewrite StrFacts.split_on_append, IH by (auto; discriminate).
    now rewrite (StrFacts.split_on_absent _ _ (valid_name_sep x Hx)).
Qed.

(** Resolution walks down valid names one at a time. *)
Lemma walk_names (root : node) (p0 p : list string) (m : node) :
  Forall (fun x => valid_name x = true) p ->
  Fs.lookup root (p0 ++ p) = Some m ->
  fold_left (Fs.step root) p (Some p0) = Some (p0 ++ p)%list.
Proof.
  revert p0. induction p as [|c p IH]; intros p0 Hv Hl.
  - simpl. now rewrite app_nil_r.
  - inversion Hv as [|? ? Hc Hp]; subst. simpl.
    rewrite lookup_app in Hl.
    destruct (Fs.lookup root p0) as [n0|] eqn:E0; [|discriminate].
    simpl in Hl.
    destruct (Fs.as_dir n0) as [es|] eqn:Ed; [|discriminate].
    destruct (valid_name_step c Hc) as [-> ->].
    replace (p0 ++ c :: p)%list with ((p0 ++ [c]) ++ p)%list
      by (now rewrite <- app_assoc).
    apply IH; [exact Hp|].
    rewrite <- app_assoc. simpl. rewrite lookup_app, E0. simpl. now rewrite Ed.
Qed.

Lemma isabs_append (a b : string) :
  a <> "" -> OsPath.isabs (a ++ b) = OsPath.isabs a.
Proof. destruct a; [contradiction | reflexivity]. Qed.

(** The path glob builds for an entry leads back to that entry. *)
Lemma lstat_render (root : node) (cwd : list string) (top : string)
      (n : node) (p : list string) (m : node) :
  Fs.stat root cwd top = Some n ->
  p <> [] -> Forall (fun x => valid_name x = true) p ->
  Fs.lookup n p = Some m ->
  Fs.lstat root cwd (Glob.render top p) = Some m.
Proof.
  unfold Fs.stat, Fs.lstat, Fs.canon. intros Hs Hp Hv Hl.
  destruct (String.eqb top "") eqn:Et; [discriminate|].
  apply String.eqb_neq in Et.
  destruct (fold_left (Fs.step root) (Str.split_on OsPath.sep top)
              (Some (if OsPath.isabs top then [] else cwd))) as [p0|] eqn:E0;
    [|discriminate].
  destruct (Fs.lookup root p0) as [n0|] eqn:En0; [|discriminate].
  unfold Glob.render.
  replace (String.eqb (top ++ "/" ++ Str.join "/" p) "") with false
    by (destruct top; [contradiction | reflexivity]).
  rewrite (isabs_append top _ Et).
  change ("/" ++ Str.join "/" p) with (String OsPath.sep (Str.join "/" p)).
  rewrite StrFacts.split_on_append, fold_left_app, E0, (split_join p Hp Hv).
  assert (Hl0 : Fs.lookup root (p0 ++ p) = Some m).
  { rewrite lookup_app, En0. now rewrite (lookup_follow n0 n p Hs Hp). }
  now rewrite (walk_names root p0 p m Hv Hl0).
Qed.

(** *** Writing *)

Lemma write_node_follow (text : string) (n n' : node) :
  Fs.write_node text n = Some n' ->
  Fs.follow n' = Some (File (Str.len text) (Text text)).
Proof.
  revert n'. induction n as [b c|es|t IH|]; simpl; intros n' H.
  - now injection H as <-.
  - discriminate.
  - destruct (Fs.write_node text t) as [t'|]; [|discriminate].
    injection H as <-. simpl. now apply IH.
  - now injection H as <-.
Qed.

Lemma in_dir_as_dir (k : list (string * node) -> option (list (string * node)))
      (n n' : node) :
  Fs.in_dir k n = Some n' ->
  exists es es', Fs.as_dir n = Some es /\ k es = Some es' /\ Fs.as_dir n' = Some es'.
Proof.
  revert n'. induction n as [b c|es|t IH|]; simpl; intros n' H; try discriminate.
  - destruct (k es) as [es'|] eqn:E; [|discriminate]. injection H as <-.
    now exists es, es'.
  - destruct (Fs.in_dir k t) as [t'|]; [|discriminate]. injection H as <-.
    destruct (IH t' eq_refl) as [es [es' [H1 [H2 H3]]]].
    exists es, es'. unfold Fs.as_dir in *. simpl. now repeat split.
Qed.

Lemma update_entry_assoc (name : string) (g : node -> option node)
      (absent : option node) (es es' : list (string * node)) :
  Fs.update_entry name g absent es = Some es' ->
  exists m', Fs.assoc name es' = Some m'
             /\ ((exists m, Fs.assoc name es = Some m /\ g m = Some m')
                 \/ (Fs.assoc name es = None /\ absent = Some m')).
Proof.
  revert es'. induction es as [|[x n] es IH]; simpl; intros es' H.
  - destruct absent as [m'|]; [|discriminate]. injection H as <-.
    exists m'. simpl. rewrite String.eqb_refl. auto.
  - destruct (String.eqb x name) eqn:E.
    + destruct (g n) as [n'|] eqn:Eg; [|discriminate]. injection H as <-.
      exists n'. simpl. rewrite E. split; [reflexivity|]. left. now exists n.
    + destruct (Fs.update_entry name g absent es) as [r|]; [|discriminate].
      injection H as <-. destruct (IH r eq_refl) as [m' [H1 H2]].
      exists m'. simpl. now rewrite E.
Qed.

(** After [open(name, 'w')], the writes and [close()], the text is in the
    file. *)
Lemma write_at_file_at (text : string) (p : list string) (n n' : node) :
  Fs.write_at text p n = Some n' ->
  file_at n' p = Some (File (Str.len text) (Text text)).
Proof.
  unfold file_at. revert n n'. induction p as [|c p IH]; intros n n' H.
  - simpl in *. now apply write_node_follow with n.
  - simpl in H. apply in_dir_as_dir in H as [es [es' [H1 [H2 H3]]]].
    apply update_entry_assoc in H2 as [m' [Ha [[m [Hm Hg]] | [Hm Hab]]]].
    + simpl. rewrite H3, Ha. now apply IH with m.
    + simpl. rewrite H3, Ha. destruct p; [|discriminate].
      injection Hab as <-. reflexivity.
Qed.

End FsFacts.

(** ** Globbing *)

Module GlobFacts.

(** Induction on a tree, with the hypothesis for every entry of a
    directory. *)
Lemma node_induction (P : node -> Prop) :
  (forall b c, P (File b c)) ->
  (forall es, Forall (fun e => P (snd e)) es -> P (Dir es)) ->
  (forall t, P t -> P (Link t)) ->
  P BrokenLink ->
  forall n, P n.
Proof.
  intros HF HD HL HB.
  fix IH 1. intros [b c|es|t|].
  - apply HF.
  - apply HD. induction es as [|[x n] es IHes]; constructor; [apply IH | exact IHes].
  - apply HL, IH.
  - exact HB.
Qed.

Lemma assoc_in (x : string) (es : list (string * node)) (m : node) :
  Fs.assoc x es = Some m -> In (x, m) es.
Proof.
  induction es as [|[y n] es IH]; simpl; [discriminate|].
  destruct (String.eqb y x) eqn:E.
  - apply String.eqb_eq in E. intros H. injection H as <-. subst. now left.
  - intros H. right. now apply IH.
Qed.

Lemma in_assoc (x : string) (es : list (string * node)) :
  In x (map fst es) -> exists m, Fs.assoc x es = Some m.
Proof.
  induction es as [|[y n] es IH]; simpl; [contradiction|].
  destruct (String.eqb y x) eqn:E; [now exists n|].
  intros [H | H]; [apply String.eqb_neq in E; contradiction | now apply IH].
Qed.

Lemma assoc_unique (x : string) (es : list (string * node)) (m : node) :
  distinct_names (map fst es) = true -> In (x, m) es -> Fs.assoc x es = Some m.
Proof.
  induction es as [|[y n] es IH]; simpl; [contradiction|].
  intros H. apply andb_true_iff in H as [Hy Hd].
  intros [Heq | Hin].
  - injection Heq as <- <-. now rewrite String.eqb_refl.
  - destruct (String.eqb y x) eqn:E; [|now apply IH].
    apply String.eqb_eq in E. subst y.
    apply negb_true_iff in Hy.
    assert (str_in x (map fst es) = true).
    { apply TallyFacts.str_in_iff. apply in_map_iff. now exists (x, m). }
    congruence.
Qed.

Lemma well_formed_dir (es : list (string * node)) (x : string) (child : node) :
  well_formed (Dir es) = true -> In (x, child) es ->
  valid_name x = true /\ well_formed child = true.
Proof.
  simpl. intros H Hin. apply andb_true_iff in H as [_ H].
  rewrite forallb_forall in H. specialize (H _ Hin). simpl in H.
  now apply andb_true_iff in H.
Qed.

Lemma well_formed_follow (n m : node) :
  well_formed n = true -> Fs.follow n = Some m -> well_formed m = true.
Proof.
  induction n as [b c|es|t IH|]; simpl; intros Hw H;
    try (injection H as <-; exact Hw); auto; discriminate.
Qed.

Lemma as_dir_well_formed (n : node) (es : list (string * node)) :
  well_formed n = true -> Fs.as_dir n = Some es -> well_formed (Dir es) = true.
Proof.
  unfold Fs.as_dir. intros Hw H.
  destruct (Fs.follow n) as [[| es' | |]|] eqn:E; try discriminate.
  injection H as <-. now apply well_formed_follow with n.
Qed.

(** In a well-formed tree every path is made of valid names. *)
Lemma lookup_valid (n : node) (p : list string) (m : node) :
  well_formed n = true -> Fs.lookup n p = Some m ->
  Forall (fun x => valid_name x = true) p /\ well_formed m = true.
Proof.
  revert n. induction p as [|c p IH]; intros n Hw H; simpl in H.
  - injection H as <-. now split.
  - destruct (Fs.as_dir n) as [es|] eqn:Ed; [|discriminate].
    destruct (Fs.assoc c es) as [n'|] eqn:Ea; [|discriminate].
    destruct (well_formed_dir es c n' (as_dir_well_formed n es Hw Ed)
                (assoc_in _ _ _ Ea)) as [Hc Hn'].
    destruct (IH n' Hn' H) as [Hp Hm]. split; [now constructor | exact Hm].
Qed.

Lemma is_dir_lookup (n : node) (c : string) (p : list string) (m : node) :
  Fs.lookup n (c :: p) = Some m -> Glob.is_dir n = true.
Proof.
  simpl. unfold Glob.is_dir. destruct (Fs.as_dir n); [reflexivity | discriminate].
Qed.

(** [rlistdir] lists the directories reached through names without a
    leading dot. *)
Lemma rlistdir_spec (n : node) :
  well_formed n = true ->
  forall d, In d (Glob.rlistdir n)
            <-> d <> [] /\ Forall (fun x => Glob.ishidden x = false) d
                /\ exists m, Fs.lookup n d = Some m /\ Glob.is_dir m = true.
Proof.
  induction n as [b c|es IH|t IH|] using node_induction; intros Hw d.
  - simpl. split; [contradiction|]. intros [Hd [_ [m [H _]]]].
    destruct d; [contradiction | discriminate].
  - cbn [Glob.rlistdir]. rewrite in_flat_map. split.
    + intros [[x child] [Hin Hd]].
      destruct (negb (Glob.ishidden x) && Glob.is_dir child) eqn:E; [|contradiction].
      apply andb_true_iff in E as [Hx Hc]. apply negb_true_iff in Hx.
      assert (Ha : Fs.assoc x es = Some child).
      { apply assoc_unique; [|exact Hin]. simpl in Hw.
        now apply andb_true_iff in Hw. }
      destruct Hd as [<- | Hd].
      * split; [discriminate|]. split; [now repeat constructor|].
        exists child. simpl. unfold Fs.as_dir. simpl. now rewrite Ha.
      * apply in_map_iff in Hd as [d' [<- Hd']].
        rewrite Forall_forall in IH. specialize (IH _ Hin). simpl in IH.
        destruct (well_formed_dir es x child Hw Hin) as [_ Hwc].
        apply (IH Hwc) in Hd' as [Hne [Hh [m [Hm Hdm]]]].
        split; [discriminate|]. split; [now constructor|].
        exists m. split; [|exact Hdm]. simpl. unfold Fs.as_dir. simpl.
        now rewrite Ha.
    + intros [Hne [Hh [m [Hm Hdm]]]].
      destruct d as [|x d']; [contradiction|].
      inversion Hh as [|? ? Hx Hh']; subst.
      simpl in Hm. unfold Fs.as_dir in Hm. simpl in Hm.
      destruct (Fs.assoc x es) as [child|] eqn:Ea; [|discriminate].
      exists (x, child). split; [now apply assoc_in|].
      assert (Hc : Glob.is_dir child = true).
      { destruct d'; [simpl in Hm; now injection Hm as -> |].
        now apply is_dir_lookup in Hm. }
      rewrite Hx, Hc. simpl.
      destruct d' as [|y d'']; [now left|]. right.
      apply in_map. rewrite Forall_forall in IH.
      specialize (IH _ (assoc_in _ _ _ Ea)). simpl in IH.
      destruct (well_formed_dir es x child Hw (assoc_in _ _ _ Ea)) as [_ Hwc].
      apply (IH Hwc). split; [discriminate|]. split; [exact Hh'|]. now exists m.
  - cbn [Glob.rlistdir]. rewrite (IH Hw d).
    split; intros [Hne [Hh [m [Hm Hdm]]]]; (split; [exact Hne|]);
      (split; [exact Hh|]); exists m; (split; [|exact Hdm]);
      destruct d; try contradiction; exact Hm.
  - simpl. split; [contradiction|]. intros [Hd [_ [m [H _]]]].
    destruct d; [contradiction | discriminate].
Qed.

Lemma glob1_spec (dn : node) (e x : string) :
  In x (Glob.glob1 dn e)
  <-> Glob.ishidden x = false /\ Str.endswith x e = true
      /\ exists m, Fs.lookup dn [x] = Some m.
Proof.
  unfold Glob.glob1. simpl Fs.lookup.
  destruct (Fs.as_dir dn) as [es|].
  - rewrite filter_In, andb_true_iff, negb_true_iff. split.
    + intros [Hin [Hh He]]. repeat split; try assumption.
      destruct (in_assoc x es Hin) as [m Hm]. exists m. now rewrite Hm.
    + intros [Hh [He [m Hm]]]. repeat split; try assumption.
      destruct (Fs.assoc x es) as [m'|] eqn:Ea; [|discriminate].
      apply assoc_in in Ea. apply in_map_iff. now exists (x, m').
  - simpl. split; [contradiction|]. intros [_ [_ [m Hm]]]. discriminate.
Qed.

(** What ['**/*' + e] matches below a directory: the entries of any kind
    whose name ends in [e] and that are reached, themselves included,
    through names without a leading dot. *)
Lemma matches_spec (n : node) (e : string) (p : list string) :
  well_formed n = true ->
  In p (Glob.matches n e)
  <-> p <> [] /\ visible n p /\ Str.endswith (last p "") e = true.
Proof.
  intros Hw. unfold Glob.matches, visible. rewrite in_flat_map. split.
  - intros [d [Hd Hp]].
    destruct (Fs.lookup n d) as [dn|] eqn:El; [|contradiction].
    apply in_map_iff in Hp as [x [<- Hx]].
    apply glob1_spec in Hx as [Hh [He [m Hm]]].
    split; [now destruct d|].
    assert (Hhd : Forall (fun x => Glob.ishidden x = false) d).
    { destruct Hd as [<- | Hd]; [constructor|].
      now apply (rlistdir_spec n Hw) in Hd. }
    split; [split|].
    + apply Forall_app. split; [exact Hhd | now constructor].
    + exists m. now rewrite FsFacts.lookup_app, El.
    + now rewrite last_last.
  - intros [Hne [[Hh [m Hm]] He]].
    destruct (exists_last Hne) as [d [x ->]].
    rewrite last_last in He. apply Forall_app in Hh as [Hhd Hhx].
    inversion Hhx as [|? ? Hx _]; subst.
    rewrite FsFacts.lookup_app in Hm.
    destruct (Fs.lookup n d) as [dn|] eqn:El; [|discriminate].
    exists d. split.
    + destruct d as [|c d']; [now left|]. right.
      apply (rlistdir_spec n Hw). split; [discriminate|]. split; [exact Hhd|].
      exists dn. split; [exact El|]. now apply is_dir_lookup in Hm.
    + rewrite El. apply in_map_iff. exists x. split; [reflexivity|].
      apply glob1_spec. repeat split; try assumption. now exists m.
Qed.

Lemma join_cons (c : string) (l : list string) :
  l <> [] -> Str.join "/" (c :: l) = c ++ "/" ++ Str.join "/" l.
Proof. destruct l; [contradiction | reflexivity]. Qed.

Lemma join_snoc (d : list string) (x : string) :
  exists pre, Str.join "/" (d ++ [x]) = pre ++ x
              /\ (pre = "" \/ exists pre', pre = pre' ++ "/").
Proof.
  induction d as [|c d [pre [E Hpre]]].
  - exists "". split; [reflexivity | now left].
  - exists (c ++ "/" ++ pre). split.
    + change ((c :: d) ++ [x])%list with (c :: d ++ [x])%list.
      rewrite join_cons by (now destruct d). rewrite E.
      now rewrite !StrFacts.append_assoc.
    + right. destruct Hpre as [-> | [pre' ->]].
      * exists c. reflexivity.
      * exists (c ++ "/" ++ pre'). now rewrite !StrFacts.append_assoc.
Qed.

(** Every path glob returns for a real extension has that extension. *)
Lemma render_splitext (n : node) (top e : string) (p : list string) :
  well_formed n = true -> In e extensions ->
  In p (Glob.matches n e) ->
  snd (OsPath.splitext (Glob.render top p)) = e.
Proof.
  intros Hw He Hp. apply (matches_spec n e p Hw) in Hp as [Hne [[Hh [m Hm]] Hend]].
  destruct (lookup_valid n p m Hw Hm) as [Hv _].
  destruct (exists_last Hne) as [d [x ->]].
  rewrite last_last in Hend.
  apply Forall_app in Hh as [_ Hhx]. inversion Hhx as [|? ? Hx _]; subst.
  apply Forall_app in Hv as [_ Hvx]. inversion Hvx as [|? ? Hxv _]; subst.
  destruct (join_snoc d x) as [pre [E Hpre]].
  unfold Glob.render. rewrite E.
  replace (top ++ "/" ++ pre ++ x) with ((top ++ "/" ++ pre) ++ x)
    by (now rewrite !StrFacts.append_assoc).
  apply PathFacts.splitext_matched; try assumption.
  - right. destruct Hpre as [-> | [pre' ->]].
    + exists top. now rewrite StrFacts.append_nil_r.
    + exists (top ++ "/" ++ pre'). now rewrite !StrFacts.append_assoc.
  - now apply FsFacts.valid_name_sep.
Qed.

End GlobFacts.

(** ** Floating point *)

Module FloatFacts.

(** Rounding does not look at the sign. *)
Lemma binary_round_aux_opp (s : bool) (m e : Z) (l : location) :
  binary_round_aux Float64.prec Float64.emax (negb s) m e l
  = SFopp (binary_round_aux Float64.prec Float64.emax s m e l).
Proof.
  unfold binary_round_aux.
  destruct (shr_fexp Float64.prec Float64.emax m e l) as [mrs' e'].
  destruct (shr_fexp Float64.prec Float64.emax _ e' loc_Exact) as [mrs'' e''].
  destruct (shr_m mrs''); try reflexivity.
  destruct (e'' <=? Float64.emax - Float64.prec); reflexivity.
Qed.

Lemma xorb_negb_l (a b : bool) : xorb (negb a) b = negb (xorb a b).
Proof. now destruct a, b. Qed.

Lemma mul_opp (x y : Float64.float) :
  Float64.mul (Float64.opp x) y = Float64.opp (Float64.mul x y).
Proof.
  unfold Float64.mul, Float64.opp.
  destruct x as [sx|sx| |sx mx ex], y as [sy|sy| |sy my ey]; simpl;
    rewrite ?xorb_negb_l; try reflexivity.
  apply binary_round_aux_opp.
Qed.

Lemma div_opp (x y : Float64.float) :
  Float64.div (Float64.opp x) y = Float64.opp (Float64.div x y).
Proof.
  unfold Float64.div, Float64.opp.
  destruct x as [sx|sx| |sx mx ex], y as [sy|sy| |sy my ey]; simpl;
    rewrite ?xorb_negb_l; try reflexivity.
  destruct (SFdiv_core_binary Float64.prec Float64.emax (Z.pos mx) ex (Z.pos my) ey)
    as [[mz ez] lz].
  apply binary_round_aux_opp.
Qed.

(** The half-band offset of the mirrored header is the exact opposite. *)
Lemma half_band_opp (foff : Float64.float) (nchans : Z) :
  half_band (Float64.opp foff) nchans = Float64.opp (half_band foff nchans).
Proof. unfold half_band. now rewrite mul_opp, div_opp. Qed.

(** [format_2f] prints the nearest hundredth of the binary value. *)
Lemma hundredths_nearest (m k : positive) :
  2 * Z.abs (Zpos m * 100 - Float64.hundredths m (Zneg k) * Zpos (2 ^ k))
  <= Zpos (2 ^ k).
Proof.
  unfold Float64.hundredths.
  set (den := Zpos (2 ^ k)). set (num := Zpos m * 100).
  assert (Hden : 0 < den) by (unfold den; lia).
  pose proof (Z.div_mod num den ltac:(lia)) as Hdm.
  pose proof (Z.mod_pos_bound num den Hden) as Hr.
  clearbody den num.
  generalize dependent (num / den). generalize dependent (num mod den).
  intros r Hr q Hdm.
  destruct (Z.compare_spec (2 * r) den) as [E | E | E]; cbv iota.
  - destruct (Z.even q); lia.
  - lia.
  - lia.
Qed.

(** Over the rationals, dividing each size and adding is dividing the
    sum. *)
Lemma gigabytes_exact_sum (bytes : list Z) :
  (gigabytes_exact bytes == inject_Z (fold_left Z.add bytes 0%Z) / inject_Z (10 ^ 9))%Q.
Proof.
  unfold gigabytes_exact.
  assert (Hc : ~ (inject_Z (10 ^ 9) == 0)%Q) by discriminate.
  generalize dependent (inject_Z (10 ^ 9)). intros c Hc.
  assert (H : forall (a : Q) (z : Z),
             (a == inject_Z z / c)%Q ->
             (fold_left Qplus (map (fun b => inject_Z b / c)%Q bytes) a
              == inject_Z (fold_left Z.add bytes z) / c)%Q).
  { induction bytes as [|b bytes IH]; intros a z Ha; simpl; [exact Ha|].
    apply IH. rewrite Ha, inject_Z_plus. now field. }
  apply H. now field.
Qed.

(** Over the rationals, the two orderings of a band have one centre. *)
Lemma center_exact_mirror (f_low w : Q) (n : Z) :
  (center_exact (f_low + w * inject_Z (n - 1)) (- w) n == center_exact f_low w n)%Q.
Proof. unfold center_exact. field. Qed.

End FloatFacts.

(** ** The run, step by step *)

Module RunFacts.

Lemma bind_ok {A B : Type} (m : M A) (k : A -> M B) (w w' : world) (b : B) :
  bind m k w = (Ok b, w') ->
  exists a w1, m w = (Ok a, w1) /\ k a w1 = (Ok b, w').
Proof.
  unfold bind. destruct (m w) as [[a|s] w1]; [|discriminate].
  intros H. now exists a, w1.
Qed.

(** The settings the options resolve to: the verbosity test of line 92
    never fires, since [verbose] is [True] when it is reached. *)
Lemma use_arguments_eq (env : environ) (args : Args.namespace) (w : world) :
  let here := "/" ++ Str.join "/" (cwd w) in
  use_arguments env args w =
  (Ok {| data_directory :=
           if truthy (Args.d args) then value (Args.d args) else here ++ "/";
         output_name :=
           if truthy (Args.n args) then value (Args.n args) else "README.txt";
         output_directory :=
           if truthy (Args.l args) then value (Args.l args) else here ++ "/";
         owner := if truthy (Args.o args) then value (Args.o args) else "Unknown";
         generator := if truthy (Args.g args) then value (Args.g args) else user env;
         verbose := match Args.v args with Some true => true | _ => false end |},
   w).
Proof.
  unfold use_arguments, bind, getcwd, ret.
  destruct (Args.v args) as [[|]|]; reflexivity.
Qed.

End RunFacts.

(** ** The loop as a function *)

Module LoopFacts.
Import ScanFacts.

Lemma scan_result_same (w1 w2 : world) (afs : list string) (s : Summary) :
  same_files w1 w2 -> scan_result w1 afs s = scan_result w2 afs s.
Proof.
  intros H. revert s. induction afs as [|af rest IH]; intros s; simpl; [reflexivity|].
  rewrite (is_link_same w1 w2 af H), (record_of_same w1 w2 af H).
  destruct (is_link w2 af); [apply IH|].
  destruct (record_of w2 af); [apply IH | reflexivity].
Qed.

(** [scan] returns what [scan_result] says. *)
Lemma scan_result_eq (st : settings) (afs : list string) (s : Summary) (w : world) :
  fst (scan st afs s w) = scan_result w afs s.
Proof.
  revert s w. induction afs as [|af rest IH]; intros s w; [reflexivity|].
  destruct (scan_cons st af rest s w) as [w1 [Hw1 ->]]. simpl.
  destruct (is_link w af).
  - rewrite IH. symmetry. now apply scan_result_same.
  - destruct (record_of w af); [|reflexivity].
    rewrite IH. symmetry. now apply scan_result_same.
Qed.

Lemma scan_result_skip (w : world) (l1 l2 : list string) (af : string) (s : Summary) :
  is_link w af = true ->
  scan_result w (l1 ++ af :: l2) s = scan_result w (l1 ++ l2) s.
Proof.
  intros H. revert s. induction l1 as [|x l1 IH]; intros s; simpl.
  - now rewrite H.
  - destruct (is_link w x); [apply IH|].
    destruct (record_of w x); [apply IH | reflexivity].
Qed.

Lemma scan_result_links (w : world) (afs : list string) (s : Summary) :
  Forall (fun af => is_link w af = true) afs -> scan_result w afs s = Ok s.
Proof.
  induction 1 as [|af rest H _ IH]; simpl; [reflexivity|]. now rewrite H.
Qed.

(** Lines 177-179 glob once for each extension, below the absolute form
    of the data directory. *)
Lemma pick_files_eq (st : settings) (es acc : list string) (w : world) :
  let top := OsPath.normpath
               (OsPath.join ("/" ++ Str.join "/" (cwd w)) (data_directory st)) in
  pick_files st es acc w
  = (Ok (acc ++ flat_map (Glob.glob (root w) (cwd w) top) es)%list, w).
Proof.
  revert acc. induction es as [|e es IH]; intros acc; simpl.
  - now rewrite app_nil_r.
  - unfold bind at 1. unfold abspath at 1, bind at 1, getcwd at 1, ret at 1.
    unfold bind at 1. rewrite IH. now rewrite <- app_assoc.
Qed.

(** In a directory of links to files, every candidate is a link. *)
Lemma candidates_are_links (w : world) (top e : string) (es : list (string * node))
      (af : string) :
  Fs.stat (root w) (cwd w) top = Some (Dir es) ->
  well_formed (Dir es) = true ->
  Forall (fun x => links_to_file (snd x) = true) es ->
  In af (Glob.glob (root w) (cwd w) top e) ->
  is_link w af = true.
Proof.
  intros Hs Hw Hl Hin. unfold Glob.glob in Hin. rewrite Hs in Hin.
  apply in_map_iff in Hin as [p [<- Hp]].
  apply (GlobFacts.matches_spec _ _ _ Hw) in Hp as [Hne [[_ [m Hm]] _]].
  destruct (GlobFacts.lookup_valid _ _ _ Hw Hm) as [Hv _].
  destruct p as [|x p']; [contradiction|].
  assert (Hc : exists child, Fs.assoc x es = Some child /\ Fs.lookup child p' = Some m).
  { simpl in Hm. unfold Fs.as_dir in Hm. simpl in Hm.
    destruct (Fs.assoc x es) as [child|]; [|discriminate]. now exists child. }
  destruct Hc as [child [Ha Hc]].
  assert (Hlf : links_to_file child = true).
  { rewrite Forall_forall in Hl. apply (Hl (x, child)).
    now apply GlobFacts.assoc_in. }
  destruct child as [| |t|]; try discriminate.
  assert (p' = []).
  { destruct p' as [|y p'']; [reflexivity|]. exfalso.
    simpl in Hc, Hlf. unfold Fs.as_dir in Hc. simpl in Hc.
    destruct (Fs.follow t) as [[| | |]|]; discriminate. }
  subst p'. simpl in Hc. injection Hc as <-.
  unfold is_link.
  rewrite (FsFacts.lstat_render (root w) (cwd w) top (Dir es) [x] (Link t) Hs Hne Hv Hm).
  reflexivity.
Qed.

End LoopFacts.
(** ** Sizes *)

Module SizeFacts.
Import ScanFacts.

(** A record carries the size of its file, divided once. *)
Lemma record_size (w : world) (af : string) (r : FileRecord) :
  record_of w af = Ok r ->
  exists b, bytes_of w af = Some b /\ size r = Float64.truediv_Z b (10 ^ 9).
Proof.
  unfold record_of, bytes_of, parse_data.
  destruct (OsPath.split af) as [p f]. destruct (OsPath.splitext af) as [nm e].
  unfold bind, getsize, PyPSRFITS, FilReader, ret, raise.
  destruct (str_in e psrfits_exts); [|destruct (str_in e fil_exts)];
    destruct (Fs.stat (root w) (cwd w) af) as [[b c| | |]|] eqn:E;
    cbv beta iota zeta; rewrite ?E; try destruct c; simpl; intros H;
    try discriminate; injection H as <-; now exists b.
Qed.

Lemma records_sizes (w : world) (fs : list string) (rs : list FileRecord) :
  map Ok rs = map (record_of w) fs ->
  exists bytes, map Some bytes = map (bytes_of w) fs
                /\ map size rs = map (fun b => Float64.truediv_Z b (10 ^ 9)) bytes.
Proof.
  revert rs. induction fs as [|af fs IH]; intros [|r rs] H; try discriminate.
  - now exists [].
  - simpl in H. injection H as Hr Hrs.
    destruct (IH rs Hrs) as [bytes [H1 H2]].
    destruct (record_size w af r (eq_sym Hr)) as [b [Hb Hsz]].
    exists (b :: bytes). simpl. now rewrite H1, H2, Hb, Hsz.
Qed.

(** The total the loop ends on: the sizes of the files it read, each
    divided by 10^9 and added in the order of the scan. *)
Lemma scan_sizes (st : settings) (afs : list string) (s s' : Summary) (w w' : world) :
  scan st afs s w = (Ok s', w') ->
  exists bytes, map Some bytes = map (bytes_of w) (read_files w afs)
                /\ n_files s' = n_files s + Z.of_nat (List.length bytes)
                /\ tot_size s' = gigabytes bytes (tot_size s).
Proof.
  intros H. apply scan_ok in H as [rs [Hrs ->]].
  destruct (records_sizes w _ rs Hrs) as [bytes [H1 H2]].
  exists bytes. split; [exact H1|].
  destruct (TallyFacts.tally_fields rs s) as [Hn [Ht _]].
  split.
  - rewrite Hn. f_equal. f_equal.
    rewrite <- (length_map size rs), H2. now rewrite length_map.
  - rewrite Ht. unfold gigabytes. now rewrite H2.
Qed.

End SizeFacts.

(** ** The whole run *)

Module MainFacts.
Import RunFacts.

(** A run that completes has gone through every step. *)
Lemma main_ok (env : environ) (a : Cli.argv) (w w' : world) :
  main env a w = (Ok tt, w') ->
  exists st w1 w2 w3 w4 w5 available_files s,
    use_arguments env (parse_args a) w = (Ok st, w)
    /\ check_directories st w = (Ok tt, w1)
    /\ chdir (data_directory st) w1 = (Ok tt, w2)
    /\ pick_files st extensions [] w2 = (Ok available_files, w2)
    /\ confirm env available_files w2 = (Ok tt, w3)
    /\ scan st available_files empty_summary w3 = (Ok s, w4)
    /\ chdir (output_directory st) w4 = (Ok tt, w5)
    /\ write_file (output_name st) (readme st env s) w5 = (Ok tt, w').
Proof.
  unfold main. intros H.
  apply bind_ok in H as [st [w0 [H0 H]]].
  assert (w0 = w) by (rewrite use_arguments_eq in H0; now injection H0).
  subst w0.
  apply bind_ok in H as [[] [w1 [H1 H]]].
  apply bind_ok in H as [[] [w2 [H2 H]]].
  apply bind_ok in H as [afs [w2' [H3 H]]].
  assert (w2' = w2)
    by (rewrite LoopFacts.pick_files_eq in H3; now injection H3).
  subst w2'.
  apply bind_ok in H as [[] [w3 [H4 H]]].
  apply bind_ok in H as [s [w4 [H5 H]]].
  apply bind_ok in H as [[] [w5 [H6 H]]].
  exists st, w1, w2, w3, w4, w5, afs, s. now repeat split.
Qed.

(** What [write_file] leaves. *)
Lemma write_file_ok (name text : string) (w w' : world) :
  write_file name text w = (Ok tt, w') ->
  exists names, Fs.canon (root w) (cwd w) name = Some names
                /\ file_at (root w') names = Some (File (Str.len text) (Text text)).
Proof.
  unfold write_file.
  destruct (Fs.canon (root w) (cwd w) name) as [names|]; [|discriminate].
  destruct (Fs.write_at text names (root w)) as [r|] eqn:E; [|discriminate].
  intros H. injection H as <-. exists names. split; [reflexivity|].
  simpl. now apply FsFacts.write_at_file_at with (root w).
Qed.

(** The text of the README, line by line. *)
Lemma readme_lines (st : settings) (env : environ) (s : Summary) :
  readme st env s
  = Str.join nl
      ["README file for " ++ data_directory st ++ " generated by "
         ++ script_file env ++ ".";
       "Owner: " ++ owner st;
       "Generated by: " ++ generator st;
       "Started at " ++ start_timestamp env ++ "; completed at "
         ++ end_timestamp env ++ ".";
       "Number of files: " ++ Str.of_Z (n_files s);
       "Total size (GB): " ++ Float64.format_2f (tot_size s);
       "File types: " ++ Str.join ", " (Str.sorted (exts s));
       "Telescope: " ++ Str.join ", " (Str.sorted (telescopes s));
       "Observers: " ++ Str.join ", " (Str.sorted (observers s));
       "Project IDs: " ++ Str.join ", " (Str.sorted (project_ids s));
       "Sources: " ++ Str.join ", " (Str.sorted (sources s));
       "Modes: " ++ Str.join ", " (Str.sorted (modes s));
       "Center frequencies (MHz): "
         ++ Str.join ", " (Str.sorted (map Float64.repr (center_freqs s)));
       "";
       "Notes:"].
Proof.
  symmetry. unfold Str.join at 1. cbn [String.concat].
  unfold readme. rewrite ?StrFacts.append_assoc. reflexivity.
Qed.

End MainFacts.

(** ** Runs that stop early *)

Module StopFacts.

Lemma keeps_tree_bind {A B : Type} (m : M A) (k : A -> M B) :
  keeps_tree m -> (forall a, keeps_tree (k a)) -> keeps_tree (bind m k).
Proof.
  intros Hm Hk w r w'. unfold bind.
  destruct (m w) as [[a|sig] w1] eqn:E; intros H.
  - rewrite (Hk a w1 r w' H). now apply (Hm w (Ok a) w1).
  - injection H as <- <-. now apply (Hm w (Stop sig) w1).
Qed.

Lemma stops_clean_bind {A B : Type} (m : M A) (k : A -> M B) :
  keeps_tree m -> (forall a, stops_clean (k a)) -> stops_clean (bind m k).
Proof.
  intros Hm Hk w sig w'. unfold bind.
  destruct (m w) as [[a|sig1] w1] eqn:E; intros H.
  - rewrite (Hk a w1 sig w' H). now apply (Hm w (Ok a) w1).
  - injection H as <- <-. now apply (Hm w (Stop sig1) w1).
Qed.

Lemma keeps_tree_ret {A : Type} (a : A) : keeps_tree (ret a).
Proof. intros w r w' H. now injection H as <- <-. Qed.

Lemma keeps_tree_exit {A : Type} : keeps_tree (@sys_exit A).
Proof. intros w r w' H. now injection H as <- <-. Qed.

Lemma keeps_tree_raise {A : Type} (e : exn) : keeps_tree (@raise A e).
Proof. intros w r w' H. now injection H as <- <-. Qed.

Lemma keeps_tree_print (s : string) : keeps_tree (print s).
Proof. intros w r w' H. now injection H as <- <-. Qed.

Lemma keeps_tree_when (b : bool) (m : M unit) : keeps_tree m -> keeps_tree (when b m).
Proof. destruct b; [auto | intros _; apply keeps_tree_ret]. Qed.

Lemma keeps_tree_isdir (p : string) : keeps_tree (isdir p).
Proof. intros w r w' H. now injection H as <- <-. Qed.

Lemma keeps_tree_exists (p : string) : keeps_tree (exists_ p).
Proof. intros w r w' H. now injection H as <- <-. Qed.

Lemma keeps_tree_chdir (p : string) : keeps_tree (chdir p).
Proof.
  intros w r w'. unfold chdir.
  destruct (Fs.canon (root w) (cwd w) p) as [names|];
    [destruct (Fs.lookup (root w) names) as [n|];
     [destruct (Glob.is_dir n)|]|];
    intros H; now injection H as <- <-.
Qed.

Lemma keeps_tree_use_arguments (env : environ) (args : Args.namespace) :
  keeps_tree (use_arguments env args).
Proof.
  intros w r w'. rewrite RunFacts.use_arguments_eq. intros H.
  now injection H as <- <-.
Qed.

Lemma keeps_tree_check_directories (st : settings) : keeps_tree (check_directories st).
Proof.
  unfold check_directories.
  repeat (apply keeps_tree_bind; [|intros ?]);
    repeat first [ apply keeps_tree_isdir | apply keeps_tree_exists
                 | apply keeps_tree_when | apply keeps_tree_print
                 | apply keeps_tree_exit
                 | apply keeps_tree_bind; [|intros ?] ].
Qed.

Lemma keeps_tree_pick_files (st : settings) :
  keeps_tree (pick_files st extensions []).
Proof.
  intros w r w'. rewrite LoopFacts.pick_files_eq. intros H.
  now injection H as <- <-.
Qed.

Lemma keeps_tree_confirm (env : environ) (afs : list string) :
  keeps_tree (confirm env afs).
Proof.
  unfold confirm, input. apply keeps_tree_when.
  apply keeps_tree_bind.
  - apply keeps_tree_bind; [apply keeps_tree_print|]. intros _.
    destruct (answer env); [apply keeps_tree_ret | apply keeps_tree_raise].
  - intros result. apply keeps_tree_when, keeps_tree_exit.
Qed.

Lemma keeps_tree_scan (st : settings) (afs : list string) (s : Summary) :
  keeps_tree (scan st afs s).
Proof.
  intros w r w' H.
  pose proof (ScanFacts.scan_same_files st afs s w) as [Hr _].
  rewrite H in Hr. simpl in Hr. congruence.
Qed.

Lemma stops_clean_write_file (name text : string) :
  stops_clean (write_file name text).
Proof.
  intros w sig w'. unfold write_file.
  destruct (Fs.canon (root w) (cwd w) name) as [names|];
    [destruct (Fs.write_at text names (root w))|];
    intros H; try discriminate; now injection H as _ <-.
Qed.

(** A run that stops early, by [sys.exit()] or by an exception, has
    written nothing. *)
Lemma stopped_run_keeps_tree (env : environ) (a : Cli.argv) :
  stops_clean (main env a).
Proof.
  unfold main.
  apply stops_clean_bind; [apply keeps_tree_use_arguments|]. intros st.
  apply stops_clean_bind; [apply keeps_tree_check_directories|]. intros _.
  apply stops_clean_bind; [apply keeps_tree_chdir|]. intros _.
  apply stops_clean_bind; [apply keeps_tree_pick_files|]. intros afs.
  apply stops_clean_bind; [apply keeps_tree_confirm|]. intros _.
  apply stops_clean_bind; [apply keeps_tree_scan|]. intros s.
  apply stops_clean_bind; [apply keeps_tree_chdir|]. intros _.
  apply stops_clean_write_file.
Qed.

(** A file at the path the guard looks at stops the run. *)
Lemma taken_output_stops (env : environ) (a : Cli.argv) (w : world) (st : settings) :
  use_arguments env (parse_args a) w = (Ok st, w) ->
  fst (exists_ (OsPath.join (output_directory st) (output_name st)) w) = Ok true ->
  exists w', main env a w = (Stop SystemExit, w') /\ root w' = root w.
Proof.
  intros Hst Hex.
  assert (H : exists w', main env a w = (Stop SystemExit, w')).
  { unfold main, bind at 1. rewrite Hst. unfold bind at 1.
    unfold check_directories.
    unfold bind at 1. unfold isdir at 1.
    destruct (Fs.stat (root w) (cwd w) (data_directory st)) as [[| | |]|];
      try (eexists; reflexivity).
    cbn [negb when]. unfold bind at 1, ret at 1. unfold bind at 1, isdir at 1.
    destruct (Fs.stat (root w) (cwd w) (output_directory st)) as [[| | |]|];
      try (eexists; reflexivity).
    cbn [negb when]. unfold bind at 1, ret at 1. unfold bind at 1.
    unfold exists_ in *. simpl in Hex.
    destruct (Fs.stat (root w) (cwd w)
                (OsPath.join (output_directory st) (output_name st)));
      [|discriminate].
    eexists. reflexivity. }
  destruct H as [w' H]. exists w'. split; [exact H|].
  now apply (stopped_run_keeps_tree env a w SystemExit w').
Qed.

End StopFacts.

(** ** Steps of the run as equations *)

Module StepFacts.

Lemma bind_eq {A B : Type} (m : M A) (k : A -> M B) (w w1 : world) (a : A) :
  m w = (Ok a, w1) -> bind m k w = k a w1.
Proof. intros H. unfold bind. now rewrite H. Qed.

Lemma bind_stop_eq {A B : Type} (m : M A) (k : A -> M B) (w w1 : world) (s : signal) :
  m w = (Stop s, w1) -> bind m k w = (Stop s, w1).
Proof. intros H. unfold bind. now rewrite H. Qed.

Lemma isdir_eq (p : string) (w : world) : isdir p w = (Ok (is_directory w p), w).
Proof. reflexivity. Qed.

Lemma exists_eq (p : string) (w : world) : exists_ p w = (Ok (path_exists w p), w).
Proof. reflexivity. Qed.

(** A guard that fires: the message, then [sys.exit()]. *)
Lemma guard_fires (text : string) (w : world) :
  when true (print text ;; sys_exit) w = (Stop SystemExit, printed w text).
Proof. reflexivity. Qed.

Lemma guard_passes (m : M unit) (w : world) : when false m w = (Ok tt, w).
Proof. reflexivity. Qed.

(** The three tests of lines 154-162, one after the other. *)
Lemma check_directories_eq (st : settings) (w : world) :
  check_directories st w =
  if negb (is_directory w (data_directory st)) then
    (Stop SystemExit,
     printed w ("Data directory " ++ data_directory st ++ " does not exist!"))
  else if negb (is_directory w (output_directory st)) then
    (Stop SystemExit,
     printed w ("Output directory " ++ output_directory st ++ " does not exist!"))
  else if path_exists w (OsPath.join (output_directory st) (output_name st)) then
    (Stop SystemExit,
     printed w ("There is already a file named "
                ++ OsPath.join (output_directory st) (output_name st) ++ "!"))
  else (Ok tt, w).
Proof.
  unfold check_directories.
  rewrite (bind_eq _ _ _ _ _ (isdir_eq _ w)).
  destruct (is_directory w (data_directory st)); cbn [negb].
  - rewrite (bind_eq _ _ _ _ _ (guard_passes _ w)).
    rewrite (bind_eq _ _ _ _ _ (isdir_eq _ w)).
    destruct (is_directory w (output_directory st)); cbn [negb].
    + rewrite (bind_eq _ _ _ _ _ (guard_passes _ w)).
      rewrite (bind_eq _ _ _ _ _ (exists_eq _ w)).
      destruct (path_exists w _); reflexivity.
    + now rewrite (bind_stop_eq _ _ _ _ _ (guard_fires _ w)).
  - now rewrite (bind_stop_eq _ _ _ _ _ (guard_fires _ w)).
Qed.

End StepFacts.

(** ** The loop, turn by turn *)

Module TurnFacts.
Import ScanFacts.

(** One turn of the loop, with what it prints. *)
Lemma scan_step (st : settings) (af : string) (rest : list string)
      (s : Summary) (w : world) :
  scan st (af :: rest) s w =
  if is_link w af then scan st rest s (told st w af)
  else match record_of w af with
       | Ok r => scan st rest (tally s r) (told st w af)
       | Stop sig => (Stop sig, told st w af)
       end.
Proof.
  cbn [scan]. unfold bind at 1. rewrite islink_eq.
  unfold told, scan_message.
  destruct (is_link w af); cbn [negb].
  - unfold bind at 1. now destruct (verbose st).
  - unfold bind at 1.
    destruct (verbose st); cbn [when]; unfold print, ret;
      unfold bind at 1; rewrite parse_data_eq.
    + rewrite (record_of_same
                 {| root := root w; cwd := cwd w;
                    stdout := (stdout w ++ [("Reading header of " ++ af ++ ".")%string])%list |}
                 w af (conj eq_refl eq_refl)).
      now destruct (record_of w af).
    + now destruct (record_of w af).
Qed.

Lemma scan_result_app (w : world) (l1 l2 : list string) (s : Summary) :
  scan_result w (l1 ++ l2) s
  = match scan_result w l1 s with
    | Ok s1 => scan_result w l2 s1
    | Stop sig => Stop sig
    end.
Proof.
  revert s. induction l1 as [|af l1 IH]; intros s; simpl; [reflexivity|].
  destruct (is_link w af); [apply IH|].
  destruct (record_of w af); [apply IH | reflexivity].
Qed.

(** What a verbose loop that ends has printed. *)
Lemma scan_verbose (st : settings) (afs : list string) (s s' : Summary) (w w' : world) :
  verbose st = true ->
  scan st afs s w = (Ok s', w') ->
  w' = {| root := root w; cwd := cwd w;
          stdout := (stdout w ++ map (scan_message w) afs)%list |}.
Proof.
  intros Hv. revert s w. induction afs as [|af rest IH]; intros s w H.
  - simpl in H. injection H as _ <-. simpl. rewrite app_nil_r. now destruct w.
  - rewrite scan_step in H.
    assert (Hnext : forall s1, scan st rest s1 (told st w af) = (Ok s', w') ->
              w' = {| root := root w; cwd := cwd w;
                      stdout := (stdout w ++ map (scan_message w) (af :: rest))%list |}).
    { intros s1 H1. apply IH in H1. rewrite H1.
      unfold told. rewrite Hv. unfold printed. cbn [root cwd stdout map].
      rewrite <- app_assoc. reflexivity. }
    destruct (is_link w af); [now apply Hnext with s|].
    destruct (record_of w af) as [r|sig]; [now apply Hnext with (tally s r) | discriminate].
Qed.

(** A quiet loop leaves the state as it is, however it ends. *)
Lemma scan_quiet (st : settings) (afs : list string) (s : Summary) (w : world) :
  verbose st = false -> snd (scan st afs s w) = w.
Proof.
  intros Hv. revert s. induction afs as [|af rest IH]; intros s; [reflexivity|].
  rewrite scan_step. unfold told. rewrite Hv.
  destruct (is_link w af); [apply IH|].
  destruct (record_of w af); [apply IH | reflexivity].
Qed.

End TurnFacts.

(** ** Options *)

Module OptionFacts.

Lemma pick_omit_empty (x : option string) (default : string) :
  (if truthy (omit_empty x) then value (omit_empty x) else default)
  = (if truthy x then value x else default).
Proof.
  destruct x as [s|]; [|reflexivity]. unfold omit_empty.
  destruct (String.eqb s "") eqn:E; cbn [truthy value]; unfold py_bool; now rewrite E.
Qed.

Lemma verbose_omit_empty (x : option string) :
  match option_map py_bool (omit_empty x) with Some true => true | _ => false end
  = match option_map py_bool x with Some true => true | _ => false end.
Proof.
  destruct x as [s|]; [|reflexivity]. unfold omit_empty.
  destruct (String.eqb s "") eqn:E; cbn [option_map]; unfold py_bool; now rewrite E.
Qed.

Lemma use_arguments_without_empty (env : environ) (a : Cli.argv) (w : world) :
  use_arguments env (parse_args (without_empty a)) w
  = use_arguments env (parse_args a) w.
Proof.
  rewrite !RunFacts.use_arguments_eq. cbv zeta.
  unfold parse_args, without_empty.
  cbn [Args.d Args.n Args.l Args.o Args.g Args.v Cli.d Cli.n Cli.l Cli.o Cli.g Cli.v].
  now rewrite !pick_omit_empty, verbose_omit_empty.
Qed.

(** The settings depend on [-v] through their verbosity alone. *)
Lemma use_arguments_with_v (env : environ) (a : Cli.argv) (v : option string)
      (w : world) (st : settings) :
  use_arguments env (parse_args a) w = (Ok st, w) ->
  use_arguments env (parse_args (with_v a v)) w
  = (Ok (with_verbose st (truthy v)), w).
Proof.
  rewrite !RunFacts.use_arguments_eq. cbv zeta. intros H. injection H as <-.
  unfold parse_args, with_v, with_verbose.
  cbn [Args.d Args.n Args.l Args.o Args.g Args.v Cli.d Cli.n Cli.l Cli.o Cli.g Cli.v
       data_directory output_name output_directory owner generator verbose].
  destruct v as [s|]; [|reflexivity]. unfold truthy. cbn [option_map].
  now destruct (py_bool s).
Qed.

End OptionFacts.

(** ** Actions that do not look at what has been printed *)

Module AgreeFacts.
Import ScanFacts.

Lemma agree_bind {A B : Type} (m1 m2 : M A) (k1 k2 : A -> M B) :
  agree m1 m2 -> (forall a, agree (k1 a) (k2 a)) -> agree (bind m1 k1) (bind m2 k2).
Proof.
  intros Hm Hk w1 w2 Hw. unfold bind.
  destruct (Hm w1 w2 Hw) as [H1 H2].
  destruct (m1 w1) as [[a1|s1] u1], (m2 w2) as [[a2|s2] u2];
    simpl in H1, H2; try discriminate.
  - injection H1 as <-. now apply Hk.
  - injection H1 as <-. now split.
Qed.

Lemma agree_ret {A : Type} (a : A) : agree (ret a) (ret a).
Proof. intros w1 w2 H. now split. Qed.

Lemma agree_exit {A : Type} : agree (@sys_exit A) (@sys_exit A).
Proof. intros w1 w2 H. now split. Qed.

Lemma agree_raise {A : Type} (e : exn) : agree (@raise A e) (@raise A e).
Proof. intros w1 w2 H. now split. Qed.

Lemma agree_print (s : string) : agree (print s) (print s).
Proof. intros w1 w2 [H1 H2]. now repeat split. Qed.

Lemma agree_when (b : bool) (m : M unit) : agree m m -> agree (when b m) (when b m).
Proof. destruct b; [auto | intros _; apply agree_ret]. Qed.

Lemma agree_isdir (p : string) : agree (isdir p) (isdir p).
Proof.
  intros w1 w2 [H1 H2]. unfold isdir. simpl. rewrite H1, H2. now repeat split.
Qed.

Lemma agree_exists (p : string) : agree (exists_ p) (exists_ p).
Proof.
  intros w1 w2 [H1 H2]. unfold exists_. simpl. rewrite H1, H2. now repeat split.
Qed.

Lemma agree_chdir (p : string) : agree (chdir p) (chdir p).
Proof.
  intros w1 w2 [H1 H2]. unfold chdir. rewrite H1, H2.
  destruct (Fs.canon (root w2) (cwd w2) p) as [names|];
    [destruct (Fs.lookup (root w2) names) as [n|];
     [destruct (Glob.is_dir n)|]|];
    simpl; now repeat split.
Qed.

Lemma agree_write_file (name text : string) :
  agree (write_file name text) (write_file name text).
Proof.
  intros w1 w2 [H1 H2]. unfold write_file. rewrite H1, H2.
  destruct (Fs.canon (root w2) (cwd w2) name) as [names|];
    [destruct (Fs.write_at text names (root w2))|];
    simpl; now repeat split.
Qed.

Lemma agree_check_directories (st : settings) :
  agree (check_directories st) (check_directories st).
Proof.
  unfold check_directories.
  repeat (apply agree_bind; [|intros ?]);
    repeat first [ apply agree_isdir | apply agree_exists
                 | apply agree_when | apply agree_print
                 | apply agree_exit
                 | apply agree_bind; [|intros ?] ].
Qed.

Lemma agree_pick_files (st st' : settings) (es acc : list string) :
  data_directory st = data_directory st' ->
  agree (pick_files st es acc) (pick_files st' es acc).
Proof.
  intros Hd w1 w2 [H1 H2]. rewrite !LoopFacts.pick_files_eq. cbv zeta.
  simpl. rewrite H1, H2, Hd. now repeat split.
Qed.

Lemma agree_confirm (env : environ) (afs : list string) :
  agree (confirm env afs) (confirm env afs).
Proof.
  unfold confirm, input. apply agree_when.
  apply agree_bind.
  - apply agree_bind; [apply agree_print|]. intros _.
    destruct (answer env); [apply agree_ret | apply agree_raise].
  - intros result. apply agree_when, agree_exit.
Qed.

(** The loop returns the same, verbose or not. *)
Lemma agree_scan (st st' : settings) (afs : list string) (s : Summary) :
  agree (scan st afs s) (scan st' afs s).
Proof.
  intros w1 w2 Hw. split.
  - rewrite !LoopFacts.scan_result_eq. now apply LoopFacts.scan_result_same.
  - pose proof (scan_same_files st afs s w1) as [A1 A2].
    pose proof (scan_same_files st' afs s w2) as [B1 B2].
    destruct Hw as [H1 H2]. split; congruence.
Qed.

End AgreeFacts.

(** ** The run after the settings *)

Module RestFacts.
Import AgreeFacts.

Lemma main_run (env : environ) (a : Cli.argv) :
  main env a = bind (use_arguments env (parse_args a)) (run env).
Proof. reflexivity. Qed.

(** The verbosity changes neither the outcome nor the files. *)
Lemma agree_run (env : environ) (st : settings) (b : bool) :
  agree (run env (with_verbose st b)) (run env st).
Proof.
  unfold run.
  change (check_directories (with_verbose st b)) with (check_directories st).
  cbn [with_verbose data_directory output_directory output_name].
  apply agree_bind; [apply agree_check_directories|]. intros _.
  apply agree_bind; [apply agree_chdir|]. intros _.
  apply agree_bind; [now apply agree_pick_files|]. intros afs.
  apply agree_bind; [apply agree_confirm|]. intros _.
  apply agree_bind; [apply agree_scan|]. intros s.
  apply agree_bind; [apply agree_chdir|]. intros _.
  change (readme (with_verbose st b) env s) with (readme st env s).
  apply agree_write_file.
Qed.

Lemma write_file_tree (name text : string) (w w' : world) :
  write_file name text w = (Ok tt, w') ->
  exists names, Fs.canon (root w) (cwd w) name = Some names
                /\ Fs.write_at text names (root w) = Some (root w')
                /\ cwd w' = cwd w.
Proof.
  unfold write_file.
  destruct (Fs.canon (root w) (cwd w) name) as [names|]; [|discriminate].
  destruct (Fs.write_at text names (root w)) as [r|] eqn:E; [|discriminate].
  intros H. injection H as <-. exists names. now repeat split.
Qed.

Lemma update_entry_other (name : string) (g : node -> option node)
      (absent : option node) (es es' : list (string * node)) (c : string) :
  Fs.update_entry name g absent es = Some es' -> c <> name ->
  Fs.assoc c es' = Fs.assoc c es.
Proof.
  intros H Hc. revert es' H. induction es as [|[x n] es IH]; simpl; intros es' H.
  - destruct absent as [m|]; [|discriminate]. injection H as <-. simpl.
    destruct (String.eqb name c) eqn:E; [|reflexivity].
    apply String.eqb_eq in E. now subst.
  - destruct (String.eqb x name) eqn:E.
    + destruct (g n) as [n'|]; [|discriminate]. injection H as <-. simpl.
      apply String.eqb_eq in E. subst x.
      destruct (String.eqb name c) eqn:E'; [|reflexivity].
      apply String.eqb_eq in E'. now subst.
    + destruct (Fs.update_entry name g absent es) as [r|]; [|discriminate].
      injection H as <-. simpl. now rewrite (IH r eq_refl).
Qed.

(** Writing a file changes no entry off the way to it. *)
Lemma write_at_elsewhere (text : string) (p q : list string) (n n' : node) :
  Fs.write_at text p n = Some n' -> diverge p q -> Fs.lookup n' q = Fs.lookup n q.
Proof.
  intros H [common [c [c' [r [r' [-> [-> Hc]]]]]]].
  revert n n' H. induction common as [|x common IH]; intros n n' H.
  - simpl in H. apply FsFacts.in_dir_as_dir in H as [es [es' [H1 [H2 H3]]]].
    simpl. rewrite H1, H3.
    rewrite (update_entry_other _ _ _ _ _ c' H2); [reflexivity|].
    intros E. now apply Hc.
  - simpl in H. apply FsFacts.in_dir_as_dir in H as [es [es' [H1 [H2 H3]]]].
    simpl. rewrite H1, H3.
    apply FsFacts.update_entry_assoc in H2 as [m' [Ha [[m [Hm Hg]] | [Hm Hab]]]].
    + rewrite Ha, Hm. now apply IH.
    + destruct common; discriminate.
Qed.

End RestFacts.

(** ** No path twice *)

Module UniqueFacts.
Import GlobFacts.












End UniqueFacts.

(** ** The path of the output file *)

Module OutputFacts.

Lemma write_node_dir (text : string) (n : node) (es : list (string * node)) :
  Fs.as_dir n = Some es -> Fs.write_node text n = None.
Proof.
  unfold Fs.as_dir. induction n as [b c|es'|t IH|]; simpl; intros H;
    try discriminate; [reflexivity|].
  now rewrite (IH H).
Qed.

(** Writing a file leaves every directory a directory. *)
Lemma write_at_dir_at (text : string) (p q : list string) (n n' : node) :
  Fs.write_at text p n = Some n' -> dir_at n q -> dir_at n' q.
Proof.
  revert p n n'. induction q as [|x q IH]; intros p n n' H [m [es [Hl Hd]]].
  - simpl in Hl. injection Hl as <-.
    destruct p as [|c p].
    + simpl in H. rewrite (write_node_dir text n es Hd) in H. discriminate.
    + simpl in H. apply FsFacts.in_dir_as_dir in H as [es0 [es' [_ [_ H3]]]].
      exists n', es'. now split.
  - simpl in Hl.
    destruct (Fs.as_dir n) as [es0|] eqn:E0; [|discriminate].
    destruct (Fs.assoc x es0) as [n1|] eqn:E1; [|discriminate].
    destruct p as [|c p].
    + simpl in H. rewrite (write_node_dir text n es0 E0) in H. discriminate.
    + simpl in H. apply FsFacts.in_dir_as_dir in H as [es1 [es' [H1 [H2 H3]]]].
      rewrite E0 in H1. injection H1 as <-.
      destruct (String.eqb c x) eqn:Ecx.
      * apply String.eqb_eq in Ecx. subst c.
        apply FsFacts.update_entry_assoc in H2
          as [m' [Ha [[m0 [Hm0 Hg]] | [Hm0 _]]]]; [|congruence].
        rewrite E1 in Hm0. injection Hm0 as <-.
        destruct (IH p n1 m' Hg) as [m2 [es2 [Hl2 Hd2]]]; [now exists m, es|].
        exists m2, es2. split; [|exact Hd2]. simpl. now rewrite H3, Ha.
      * apply String.eqb_neq in Ecx.
        exists m, es. split; [|exact Hd]. simpl. rewrite H3.
        rewrite (RestFacts.update_entry_other _ _ _ _ _ x H2) by congruence.
        now rewrite E1.
Qed.

Lemma fold_step_none (r : node) (comps : list string) :
  fold_left (Fs.step r) comps None = None.
Proof. induction comps; [reflexivity | exact IHcomps]. Qed.

Section Stable.
Variables r r' : node.
Hypothesis Hdirs : forall p, dir_at r p -> dir_at r' p.

Lemma step_stable (cur : option (list string)) (comp : string) (q : list string) :
  Fs.step r cur comp = Some q -> Fs.step r' cur comp = Some q.
Proof.
  unfold Fs.step. destruct cur as [p|]; [|discriminate].
  destruct (Fs.lookup r p) as [n|] eqn:El; [|discriminate].
  destruct (Fs.as_dir n) as [es|] eqn:Ed; [|discriminate].
  destruct (Hdirs p) as [n' [es' [Hl' Hd']]]; [now exists n, es|].
  now rewrite Hl', Hd'.
Qed.

Lemma fold_stable (comps : list string) (cur : option (list string)) (q : list string) :
  fold_left (Fs.step r) comps cur = Some q ->
  fold_left (Fs.step r') comps cur = Some q.
Proof.
  revert cur. induction comps as [|c comps IH]; intros cur H; [exact H|].
  simpl in *. destruct (Fs.step r cur c) as [q1|] eqn:E.
  - rewrite (step_stable cur c q1 E). now apply IH.
  - now rewrite fold_step_none in H.
Qed.

(** A path that resolved resolves to the same names. *)
Lemma canon_stable (c : list string) (path : string) (q : list string) :
  Fs.canon r c path = Some q -> Fs.canon r' c path = Some q.
Proof.
  unfold Fs.canon. destruct (String.eqb path ""); [discriminate|].
  apply fold_stable.
Qed.

End Stable.

Lemma canon_absolute (r : node) (c c' : list string) (path : string) :
  OsPath.isabs path = true -> Fs.canon r c path = Fs.canon r c' path.
Proof. unfold Fs.canon. now intros ->. Qed.

Lemma valid_name_relative (name : string) :
  valid_name name = true -> OsPath.isabs name = false /\ name <> "".
Proof.
  intros H. pose proof (FsFacts.valid_name_sep name H) as Hs.
  destruct name as [|ch name]; [discriminate|]. split; [|discriminate].
  unfold OsPath.isabs, Str.starts_with_char. simpl in Hs.
  now apply orb_false_iff in Hs.
Qed.

Lemma step_name (r : node) (p : list string) (name : string) :
  valid_name name = true -> dir_at r p ->
  Fs.step r (Some p) name = Some (p ++ [name])%list.
Proof.
  intros Hv [m [es [Hl Hd]]]. unfold Fs.step. rewrite Hl, Hd.
  now destruct (FsFacts.valid_name_step name Hv) as [-> ->].
Qed.

(** A plain name resolves to an entry of the working directory. *)
Lemma canon_name (r : node) (c : list string) (name : string) :
  valid_name name = true -> dir_at r c ->
  Fs.canon r c name = Some (c ++ [name])%list.
Proof.
  intros Hv Hd. unfold Fs.canon.
  destruct (valid_name_relative name Hv) as [-> Hne].
  apply String.eqb_neq in Hne. rewrite Hne.
  rewrite (StrFacts.split_on_absent _ _ (FsFacts.valid_name_sep name Hv)).
  simpl. now apply step_name.
Qed.

(** And [os.path.join] of an absolute directory and a plain name to that
    entry of the directory, from anywhere. *)
Lemma canon_join (r : node) (c c' : list string) (od name : string) (p : list string) :
  OsPath.isabs od = true -> valid_name name = true ->
  Fs.canon r c od = Some p -> dir_at r p ->
  Fs.canon r c' (OsPath.join od name) = Some (p ++ [name])%list.
Proof.
  intros Ha Hv Hc Hd.
  destruct (valid_name_relative name Hv) as [Hrel Hne].
  assert (Hod : od <> "") by (intros ->; discriminate).
  unfold OsPath.join. rewrite Hrel.
  replace (String.eqb od "") with false
    by (symmetry; now apply String.eqb_neq).
  unfold Fs.canon in Hc.
  replace (String.eqb od "") with false in Hc
    by (symmetry; now apply String.eqb_neq).
  rewrite Ha in Hc. simpl orb.
  destruct (Str.endswith od "/") eqn:Ee.
  - apply StrFacts.endswith_spec in Ee as [pre ->].
    unfold Fs.canon.
    replace (String.eqb ((pre ++ "/") ++ name) "") with false
      by (symmetry; apply String.eqb_neq; destruct pre; discriminate).
    rewrite (FsFacts.isabs_append _ name Hod), Ha.
    rewrite StrFacts.append_assoc.
    change ("/" ++ name) with (String OsPath.sep name).
    change (pre ++ "/") with (pre ++ String OsPath.sep "") in Hc.
    rewrite StrFacts.split_on_append, fold_left_app in *.
    rewrite (StrFacts.split_on_absent _ _ (FsFacts.valid_name_sep name Hv)).
    simpl in Hc |- *.
    destruct (fold_left (Fs.step r) (Str.split_on OsPath.sep pre) (Some []))
      as [p0|] eqn:E0; [|discriminate].
    assert (p0 = p).
    { unfold Fs.step in Hc.
      destruct (Fs.lookup r p0) as [n0|]; [|discriminate].
      destruct (Fs.as_dir n0); [|discriminate].
      simpl in Hc. now injection Hc. }
    subst p0. now apply step_name.
  - unfold Fs.canon.
    replace (String.eqb (od ++ "/" ++ name) "") with false
      by (symmetry; apply String.eqb_neq; destruct od; [contradiction | discriminate]).
    rewrite (FsFacts.isabs_append _ _ Hod), Ha.
    change ("/" ++ name) with (String OsPath.sep name).
    rewrite StrFacts.split_on_append, fold_left_app, Hc.
    rewrite (StrFacts.split_on_absent _ _ (FsFacts.valid_name_sep name Hv)).
    simpl. now apply step_name.
Qed.

End OutputFacts.

(** ** A run into an absolute output directory *)

Module AbsoluteFacts.
Import OutputFacts.

Lemma check_directories_ok (st : settings) (w w1 : world) :
  check_directories st w = (Ok tt, w1) ->
  w1 = w /\ is_directory w (data_directory st) = true
  /\ is_directory w (output_directory st) = true
  /\ path_exists w (OsPath.join (output_directory st) (output_name st)) = false.
Proof.
  rewrite StepFacts.check_directories_eq.
  destruct (is_directory w (data_directory st)); [|discriminate].
  destruct (is_directory w (output_directory st)); [|discriminate].
  destruct (path_exists w _); [discriminate|].
  intros H. injection H as <-. now repeat split.
Qed.

Lemma is_directory_dir_at (w : world) (p : string) :
  is_directory w p = true ->
  exists names, Fs.canon (root w) (cwd w) p = Some names /\ dir_at (root w) names.
Proof.
  unfold is_directory, Fs.stat, Fs.lstat.
  destruct (Fs.canon (root w) (cwd w) p) as [names|]; [|discriminate].
  destruct (Fs.lookup (root w) names) as [m|] eqn:El; [|discriminate].
  destruct (Fs.follow m) as [[| es | |]|] eqn:Ef; try discriminate.
  intros _. exists names. split; [reflexivity|].
  exists m, es. split; [exact El|]. unfold Fs.as_dir. now rewrite Ef.
Qed.

Lemma chdir_ok (p : string) (w w' : world) :
  chdir p w = (Ok tt, w') ->
  exists names, Fs.canon (root w) (cwd w) p = Some names
                /\ root w' = root w /\ cwd w' = names.
Proof.
  unfold chdir.
  destruct (Fs.canon (root w) (cwd w) p) as [names|]; [|discriminate].
  destruct (Fs.lookup (root w) names) as [n|]; [|discriminate].
  destruct (Glob.is_dir n); [|discriminate].
  intros H. injection H as <-. now exists names.
Qed.

(** A run that completes with an absolute output directory and a plain
    output name has written into that directory, as the guard saw it. *)
Lemma completed_absolute (env : environ) (a : Cli.argv) (w w' : world) (st : settings) :
  main env a w = (Ok tt, w') ->
  use_arguments env (parse_args a) w = (Ok st, w) ->
  OsPath.isabs (output_directory st) = true ->
  valid_name (output_name st) = true ->
  exists dir s,
    Fs.canon (root w) (cwd w) (output_directory st) = Some dir
    /\ dir_at (root w) dir
    /\ path_exists w (OsPath.join (output_directory st) (output_name st)) = false
    /\ Fs.write_at (readme st env s) (dir ++ [output_name st]) (root w)
       = Some (root w').
Proof.
  intros H Hst Habs Hname.
  apply MainFacts.main_ok in H
    as [st' [w1 [w2 [w3 [w4 [w5 [afs [s [H0 [H1 [H2 [H3 [H4 [H5 [H6 H7]]]]]]]]]]]]]]].
  rewrite Hst in H0. injection H0 as <-.
  apply check_directories_ok in H1 as [-> [_ [Hod Hfree]]].
  apply is_directory_dir_at in Hod as [dir [Hc Hd]].
  apply StopFacts.keeps_tree_chdir in H2.
  apply StopFacts.keeps_tree_confirm in H4.
  apply StopFacts.keeps_tree_scan in H5.
  assert (Hr4 : root w4 = root w) by congruence.
  apply chdir_ok in H6 as [names [Hc6 [Hr5 Hcwd5]]].
  rewrite Hr4 in Hc6.
  rewrite (canon_absolute _ _ (cwd w) _ Habs), Hc in Hc6. injection Hc6 as <-.
  apply RestFacts.write_file_tree in H7 as [nm [Hc7 [Hw7 _]]].
  assert (Hr5' : root w5 = root w) by congruence.
  rewrite Hr5', Hcwd5 in Hc7. rewrite Hr5' in Hw7.
  rewrite (canon_name _ _ _ Hname Hd) in Hc7. injection Hc7 as <-.
  now exists dir, s.
Qed.

End AbsoluteFacts.

(** ** Floats that are not negative *)

Module SignFacts.

Lemma shr_1_nonneg (mrs : shr_record) : 0 <= shr_m mrs -> 0 <= shr_m (shr_1 mrs).
Proof.
  destruct mrs as [m r s]. destruct m as [|[p|p|]|p]; simpl; lia.
Qed.

Lemma iter_pos_nonneg (p : positive) (mrs : shr_record) :
  0 <= shr_m mrs -> 0 <= shr_m (iter_pos shr_1 p mrs).
Proof.
  revert mrs. induction p as [p IH|p IH|]; intros mrs H; simpl.
  - apply IH, IH. now apply shr_1_nonneg.
  - now apply IH, IH.
  - now apply shr_1_nonneg.
Qed.

Lemma shr_fexp_nonneg (m e : Z) (l : location) :
  0 <= m -> 0 <= shr_m (fst (shr_fexp Float64.prec Float64.emax m e l)).
Proof.
  intros H. unfold shr_fexp, shr.
  assert (H0 : 0 <= shr_m (shr_record_of_loc m l))
    by (destruct l as [|[| |]]; exact H).
  destruct (fexp Float64.prec Float64.emax (Zdigits2 m + e) - e); simpl;
    try exact H0.
  now apply iter_pos_nonneg.
Qed.

Lemma round_nearest_even_nonneg (m : Z) (l : location) :
  0 <= m -> 0 <= round_nearest_even m l.
Proof.
  intros H. destruct l as [|[| |]]; simpl; try lia.
  destruct (Z.even m); lia.
Qed.

Lemma binary_round_aux_nonneg (m e : Z) (l : location) :
  0 <= m -> nonnegative (binary_round_aux Float64.prec Float64.emax false m e l).
Proof.
  intros H. unfold binary_round_aux.
  pose proof (shr_fexp_nonneg m e l H) as H1.
  destruct (shr_fexp Float64.prec Float64.emax m e l) as [mrs' e']. simpl in H1.
  pose proof (shr_fexp_nonneg _ e' loc_Exact
                (round_nearest_even_nonneg _ (loc_of_shr_record mrs') H1)) as H2.
  destruct (shr_fexp Float64.prec Float64.emax _ e' loc_Exact) as [mrs'' e''].
  simpl in H2.
  destruct (shr_m mrs'') as [|p|p]; simpl; [exact I| |lia].
  destruct (e'' <=? _); exact I.
Qed.

Lemma add_nonneg (x y : Float64.float) :
  nonnegative x -> nonnegative y -> nonnegative (Float64.add x y).
Proof.
  unfold Float64.add.
  destruct x as [[|]|[|]| |[|] mx ex], y as [[|]|[|]| |[|] my ey]; simpl;
    try contradiction; try (intros; exact I).
  intros _ _. unfold binary_round.
  destruct (shl_align _ _ _) as [mz ez]. now apply binary_round_aux_nonneg.
Qed.

Lemma truediv_nonneg (a b : Z) :
  0 <= a -> 0 < b -> nonnegative (Float64.truediv_Z a b).
Proof.
  intros Ha Hb. unfold Float64.truediv_Z, Float64.unrounded, Float64.div.
  destruct a as [|a|a]; [|  |lia]; destruct b as [|b|b]; try lia; simpl; [exact I|].
  destruct (SFdiv_core_binary Float64.prec Float64.emax (Z.pos a) 0 (Z.pos b) 0)
    as [[mz ez] lz] eqn:E.
  apply binary_round_aux_nonneg.
  unfold SFdiv_core_binary in E.
  set (s := (0 - 0 - _)) in E.
  set (m' := match s with Z0 => Z.pos a | Zpos _ => Z.shiftl (Z.pos a) s | Zneg _ => 0 end) in E.
  assert (Hm : 0 <= m').
  { unfold m'. destruct s; try lia. apply Z.shiftl_nonneg. lia. }
  pose proof (Z.div_pos m' (Z.pos b) Hm eq_refl) as Hq.
  unfold Z.div in Hq.
  destruct (Z.div_eucl m' (Z.pos b)) as [q r]. now injection E as <- _ _.
Qed.

Lemma gigabytes_nonneg (bytes : list Z) (start : Float64.float) :
  Forall (fun b => 0 <= b) bytes -> nonnegative start ->
  nonnegative (gigabytes bytes start).
Proof.
  unfold gigabytes. intros H. revert start.
  induction H as [|b bytes Hb _ IH]; intros start Hs; simpl; [exact Hs|].
  apply IH, add_nonneg; [exact Hs|]. apply truediv_nonneg; [exact Hb | reflexivity].
Qed.

(** A number that is not negative is printed without a sign. *)
Lemma of_Z_unsigned (n : Z) :
  0 <= n -> Str.starts_with_char "-" (Str.of_Z n) = false.
Proof.
  intros H. unfold Str.of_Z, Z.to_int.
  destruct n as [|p|p]; [reflexivity| |lia].
  simpl. destruct (Pos.to_uint p); reflexivity.
Qed.

Lemma format_2f_unsigned (x : Float64.float) :
  nonnegative x ->
  Str.starts_with_char "-" (Float64.format_2f x) = false
  /\ Float64.format_2f x <> "nan".
Proof.
  destruct x as [[|]|[|]| |[|] m e]; simpl; try contradiction; intros _;
    try (split; [reflexivity | discriminate]).
  assert (Hh : 0 <= Float64.hundredths m e / 100).
  { apply Z.div_pos; [|lia]. unfold Float64.hundredths.
    destruct e as [|k|k].
    - lia.
    - pose proof (Z.pow_pos_nonneg 2 (Z.pos k)). lia.
    - cbv zeta.
      assert (0 <= Z.pos m * 100 / Z.pos (2 ^ k)) by (apply Z.div_pos; lia).
      destruct (2 * _ ?= _); [destruct (Z.even _)| |]; lia. }
  pose proof (of_Z_unsigned _ Hh) as Hu.
  destruct (Str.of_Z (Float64.hundredths m e / 100)) as [|c r] eqn:E.
  - split; [|discriminate].
    simpl. reflexivity.
  - simpl in Hu |- *. split; [exact Hu|].
    intros Hn. injection Hn as -> Hn.
    unfold Str.of_Z, Z.to_int in E.
    destruct (Float64.hundredths m e / 100) as [|p|p]; [discriminate| |lia].
    simpl in E. destruct (Pos.to_uint p); discriminate.
Qed.

End SignFacts.

(** ** A relative data directory *)

Module RelativeFacts.
Import OutputFacts.

Lemma join_snoc_names (p : list string) (x : string) :
  p <> [] -> Str.join "/" (p ++ [x]) = Str.join "/" p ++ "/" ++ x.
Proof.
  induction p as [|c p IH]; [contradiction|]. intros _.
  destruct p as [|c' p].
  - reflexivity.
  - change ((c :: c' :: p) ++ [x])%list with (c :: (c' :: p) ++ [x])%list.
    rewrite GlobFacts.join_cons by (cbn; discriminate).
    rewrite IH by discriminate.
    rewrite (GlobFacts.join_cons c (c' :: p)) by discriminate.
    now rewrite !StrFacts.append_assoc.
Qed.

Lemma split_root (p : list string) :
  p <> [] -> Forall (fun x => valid_name x = true) p ->
  Str.split_on OsPath.sep ("/" ++ Str.join "/" p) = "" :: p.
Proof.
  intros Hne Hv.
  change ("/" ++ Str.join "/" p) with ("" ++ String OsPath.sep (Str.join "/" p)).
  rewrite StrFacts.split_on_append. simpl.
  now rewrite FsFacts.split_join.
Qed.

(** The absolute path of a directory below the root does not end in a
    slash. *)
Lemma names_no_trailing_slash (p : list string) :
  p <> [] -> Forall (fun x => valid_name x = true) p ->
  Str.endswith ("/" ++ Str.join "/" p) "/" = false.
Proof.
  intros Hne Hv.
  destruct (Str.endswith ("/" ++ Str.join "/" p) "/") eqn:E; [|reflexivity].
  apply StrFacts.endswith_spec in E as [a E]. exfalso.
  apply (f_equal (Str.split_on OsPath.sep)) in E.
  rewrite (split_root p Hne Hv) in E.
  change (a ++ "/") with (a ++ String OsPath.sep "") in E.
  rewrite StrFacts.split_on_append in E. simpl in E.
  apply (f_equal (fun l => last l "x")) in E.
  rewrite last_last in E.
  destruct (exists_last Hne) as [p' [x Hp]]. rewrite Hp in E, Hv.
  change ("" :: p' ++ [x])%list with (("" :: p') ++ [x])%list in E.
  rewrite last_last in E. subst x.
  apply Forall_app in Hv as [_ Hv]. inversion Hv as [|? ? Hx _]. discriminate.
Qed.

Lemma norm_comps_names (acc p : list string) :
  Forall (fun x => valid_name x = true) p ->
  OsPath.norm_comps true acc p = (acc ++ p)%list.
Proof.
  revert acc. induction p as [|x p IH]; intros acc Hv; simpl.
  - now rewrite app_nil_r.
  - inversion Hv as [|? ? Hx Hp]; subst.
    destruct (FsFacts.valid_name_step x Hx) as [-> ->]. simpl.
    rewrite IH by exact Hp. now rewrite <- app_assoc.
Qed.

(** [normpath] leaves the absolute path of valid names as it is. *)
Lemma normpath_names (p : list string) :
  p <> [] -> Forall (fun x => valid_name x = true) p ->
  OsPath.normpath ("/" ++ Str.join "/" p) = "/" ++ Str.join "/" p.
Proof.
  intros Hne Hv. unfold OsPath.normpath.
  rewrite (split_root p Hne Hv).
  change (String.eqb ("/" ++ Str.join "/" p) "") with false.
  change (Str.starts_with_char OsPath.sep ("/" ++ Str.join "/" p)) with true.
  change (Str.drop 1 ("/" ++ Str.join "/" p)) with (Str.join "/" p).
  cbv zeta.
  assert (Hfirst : Str.starts_with_char OsPath.sep (Str.join "/" p) = false).
  { destruct p as [|x p]; [contradiction|].
    inversion Hv as [|? ? Hx _]; subst.
    destruct (valid_name_relative x Hx) as [Hrel Hx0].
    destruct x as [|ch x]; [contradiction|].
    destruct p; exact Hrel. }
  rewrite Hfirst. simpl andb. cbn [OsPath.norm_comps String.eqb orb].
  rewrite (norm_comps_names [] p Hv). reflexivity.
Qed.

Lemma chdir_name (d : string) (w w2 : world) :
  valid_name d = true -> chdir d w = (Ok tt, w2) ->
  root w2 = root w /\ cwd w2 = (cwd w ++ [d])%list.
Proof.
  intros Hv H. apply AbsoluteFacts.chdir_ok in H as [names [Hc [Hr Hcwd]]].
  split; [exact Hr|]. rewrite Hcwd.
  unfold Fs.canon in Hc.
  destruct (valid_name_relative d Hv) as [Hrel Hne].
  apply String.eqb_neq in Hne. rewrite Hne, Hrel in Hc.
  rewrite (StrFacts.split_on_absent _ _ (FsFacts.valid_name_sep d Hv)) in Hc.
  simpl in Hc. unfold Fs.step in Hc.
  destruct (Fs.lookup (root w) (cwd w)) as [n|]; [|discriminate].
  destruct (Fs.as_dir n); [|discriminate].
  destruct (FsFacts.valid_name_step d Hv) as [E1 E2]. rewrite E1, E2 in Hc.
  now injection Hc.
Qed.

(** Where line 179 looks for a data directory given by a plain name. *)
Lemma abspath_inside (d : string) (w : world) :
  valid_name d = true -> cwd w <> [] ->
  Forall (fun x => valid_name x = true) (cwd w) ->
  OsPath.normpath (OsPath.join ("/" ++ Str.join "/" (cwd w)) d)
  = "/" ++ Str.join "/" (cwd w ++ [d]).
Proof.
  intros Hv Hne Hc. unfold OsPath.join.
  destruct (valid_name_relative d Hv) as [-> _].
  rewrite (names_no_trailing_slash _ Hne Hc).
  change (String.eqb ("/" ++ Str.join "/" (cwd w)) "") with false. simpl orb.
  replace (("/" ++ Str.join "/" (cwd w)) ++ "/" ++ d)
    with ("/" ++ Str.join "/" (cwd w ++ [d]))
    by (rewrite join_snoc_names by exact Hne; now rewrite StrFacts.append_assoc).
  apply normpath_names.
  - now destruct (cwd w).
  - apply Forall_app. split; [exact Hc | now constructor].
Qed.

Lemma fold_names (r : node) (p p0 q : list string) :
  Forall (fun x => valid_name x = true) p ->
  fold_left (Fs.step r) p (Some p0) = Some q -> q = (p0 ++ p)%list.
Proof.
  revert p0. induction p as [|x p IH]; intros p0 Hv H.
  - simpl in H. injection H as <-. now rewrite app_nil_r.
  - inversion Hv as [|? ? Hx Hp]; subst. cbn [fold_left] in H.
    destruct (Fs.step r (Some p0) x) as [p1|] eqn:E;
      [|now rewrite fold_step_none in H].
    unfold Fs.step in E.
    destruct (Fs.lookup r p0) as [n|]; [|discriminate].
    destruct (Fs.as_dir n); [|discriminate].
    destruct (FsFacts.valid_name_step x Hx) as [E1 E2]. rewrite E1, E2 in E.
    injection E as <-. rewrite (IH _ Hp H). now rewrite <- app_assoc.
Qed.

End RelativeFacts.

(** ** Extensions of the files read *)

Module ExtFacts.

(** A record carries the extension of its path, one of the four. *)
Lemma record_ext (w : world) (af : string) (r : FileRecord) :
  record_of w af = Ok r ->
  ext r = snd (OsPath.splitext af) /\ In (ext r) extensions.
Proof.
  unfold record_of, parse_data.
  destruct (OsPath.split af) as [p f]. destruct (OsPath.splitext af) as [nm e].
  unfold bind, getsize, PyPSRFITS, FilReader, ret, raise. cbn [snd].
  change extensions with (psrfits_exts ++ fil_exts)%list.
  destruct (str_in e psrfits_exts) eqn:E1; [|destruct (str_in e fil_exts) eqn:E2];
    destruct (Fs.stat (root w) (cwd w) af) as [[b c| | |]|] eqn:E;
    cbv beta iota zeta; rewrite ?E; try destruct c; intros H; simpl in H;
    try discriminate; injection H as <-; cbn [ext];
    (split; [reflexivity|]); apply in_or_app.
  - left. now apply TallyFacts.str_in_iff.
  - right. now apply TallyFacts.str_in_iff.
Qed.

Lemma records_ext (w : world) (fs : list string) (rs : list FileRecord) :
  map Ok rs = map (record_of w) fs ->
  map ext rs = map (fun af => snd (OsPath.splitext af)) fs
  /\ Forall (fun e => In e extensions) (map ext rs).
Proof.
  revert rs. induction fs as [|af fs IH]; intros [|r rs] H; try discriminate.
  - split; [reflexivity | constructor].
  - simpl in H. injection H as Hr Hrs.
    destruct (IH rs Hrs) as [H1 H2].
    destruct (record_ext w af r (eq_sym Hr)) as [He Hin].
    split.
    + cbn [map]. now rewrite H1, He.
    + cbn [map]. constructor; [exact Hin | exact H2].
Qed.

End ExtFacts.

(** ** Paths that do not resolve *)

Module ErrnoFacts.
Import OutputFacts.

Lemma through_file_app (r : node) (l1 l2 : list string) (cur q : list string) :
  fold_left (Fs.step r) l1 (Some cur) = Some q ->
  Fs.through_file r (l1 ++ l2) cur = Fs.through_file r l2 q.
Proof.
  revert cur. induction l1 as [|c l1 IH]; intros cur H.
  - simpl in H. now injection H as <-.
  - cbn [fold_left] in H. cbn [app Fs.through_file].
    destruct (Fs.step r (Some cur) c) as [q1|] eqn:E;
      [now apply IH | now rewrite fold_step_none in H].
Qed.

(** A path that resolves to names, with or without an entry there, is not
    stopped by a file. *)
Lemma errno_resolved (r : node) (c : list string) (path : string) (p : list string) :
  Fs.canon r c path = Some p -> Fs.errno r c path = FileNotFoundError.
Proof.
  unfold Fs.canon, Fs.errno. destruct (String.eqb path ""); [discriminate|].
  intros H. rewrite <- (app_nil_r (Str.split_on OsPath.sep path)).
  now rewrite (through_file_app _ _ _ _ _ H).
Qed.

Lemma split_after (pre rest : string) :
  Str.split_on OsPath.sep (pre ++ "/" ++ rest)
  = (Str.split_on OsPath.sep pre ++ Str.split_on OsPath.sep rest)%list.
Proof.
  change ("/" ++ rest) with (String OsPath.sep rest).
  apply StrFacts.split_on_append.
Qed.

(** A path that goes on after something that is no directory leads
    nowhere, and what stands there decides the error. *)
Lemma after_blocked (r : node) (c : list string) (pre rest : string) (p : list string) :
  Fs.canon r c pre = Some p ->
  (forall n, Fs.lookup r p = Some n -> Fs.as_dir n = None) ->
  Fs.stat r c (pre ++ "/" ++ rest) = None
  /\ Fs.errno r c (pre ++ "/" ++ rest)
     = match Fs.lookup r p with
       | Some n => match Fs.follow n with
                   | Some (File _ _) => NotADirectoryError
                   | _ => FileNotFoundError
                   end
       | None => FileNotFoundError
       end.
Proof.
  intros Hc Hd. unfold Fs.canon in Hc.
  destruct (String.eqb pre "") eqn:Ee; [discriminate|].
  apply String.eqb_neq in Ee.
  unfold Fs.stat, Fs.lstat, Fs.canon, Fs.errno.
  replace (String.eqb (pre ++ "/" ++ rest) "") with false
    by (destruct pre; [contradiction | reflexivity]).
  rewrite (FsFacts.isabs_append pre _ Ee), split_after, fold_left_app, Hc.
  rewrite (through_file_app _ _ _ _ _ Hc).
  destruct (Str.split_on OsPath.sep rest) as [|c1 l] eqn:Es;
    [now apply StrFacts.split_on_nonempty in Es|].
  cbn [fold_left Fs.through_file negb andb].
  assert (Hstep : Fs.step r (Some p) c1 = None).
  { unfold Fs.step. destruct (Fs.lookup r p) as [n|]; [|reflexivity].
    now rewrite (Hd n eq_refl). }
  rewrite Hstep, fold_step_none. split; [reflexivity|].
  destruct (Fs.lookup r p) as [n|]; [|reflexivity].
  now destruct (Fs.follow n) as [[| | |]|].
Qed.

(** [parse_data] on a path that leads nowhere fails at [getsize]. *)
Lemma record_of_unresolved (w : world) (data_file : string) :
  Fs.stat (root w) (cwd w) data_file = None ->
  record_of w data_file = Stop (Raise (Fs.errno (root w) (cwd w) data_file)).
Proof.
  intros E. unfold record_of, parse_data.
  destruct (OsPath.split data_file) as [p f].
  destruct (OsPath.splitext data_file) as [nm e].
  unfold bind, getsize, PyPSRFITS, FilReader, ret, raise.
  destruct (str_in e psrfits_exts); [|destruct (str_in e fil_exts)];
    cbv beta iota zeta; rewrite ?E; reflexivity.
Qed.

End ErrnoFacts.

(** ** The report and the run it comes from *)

Module ReportFacts.
Import ScanFacts.

Lemma confirm_same (env : environ) (afs : list string) (w w' : world)
      (r : result unit) :
  confirm env afs w = (r, w') -> same_files w w'.
Proof.
  unfold confirm, when, input, bind, print, ret, raise, sys_exit.
  destruct (10 ^ 3 <? Z.of_nat (List.length afs)).
  - destruct (answer env) as [reply|].
    + destruct (negb (String.eqb reply "Y")); intros H; injection H as _ <-;
        split; reflexivity.
    + intros H. injection H as _ <-. split; reflexivity.
  - intros H. injection H as _ <-. split; reflexivity.
Qed.

(** The steps of a run that completes, from the state it starts in. *)
Lemma main_steps (env : environ) (a : Cli.argv) (w w' : world) :
  main env a w = (Ok tt, w') ->
  exists st w2 w5 available_files s names,
    use_arguments env (parse_args a) w = (Ok st, w)
    /\ chdir (data_directory st) w = (Ok tt, w2)
    /\ pick_files st extensions [] w2 = (Ok available_files, w2)
    /\ scan_result w2 available_files empty_summary = Ok s
    /\ chdir (output_directory st) w2 = (Ok tt, w5)
    /\ opened st w5 = Some names
    /\ file_at (root w') names
       = Some (File (Str.len (readme st env s)) (Text (readme st env s))).
Proof.
  intros H. apply MainFacts.main_ok in H
    as (st & w1 & w2 & w3 & w4 & w5 & afs & s & H0 & H1 & H2 & H3 & H4 & H5 & H6 & H7).
  apply AbsoluteFacts.check_directories_ok in H1 as [-> _].
  pose proof (confirm_same _ _ _ _ _ H4) as S23.
  pose proof (scan_same_files st afs empty_summary w3) as S34.
  rewrite H5 in S34. cbn [snd] in S34.
  assert (S24 : same_files w2 w4) by (eapply same_files_trans; eauto).
  destruct (AgreeFacts.agree_chdir (output_directory st) w2 w4 S24) as [E1 E2].
  rewrite H6 in E1, E2. cbn [fst snd] in E1, E2.
  destruct (chdir (output_directory st) w2) as [r w5'] eqn:E6.
  cbn [fst snd] in E1, E2. subst r.
  apply MainFacts.write_file_ok in H7 as [names [Hn Hf]].
  exists st, w2, w5', afs, s, names.
  split; [exact H0|]. split; [exact H2|]. split; [exact H3|].
  split.
  { rewrite (LoopFacts.scan_result_same w2 w3 afs empty_summary S23).
    rewrite <- LoopFacts.scan_result_eq with (st := st). now rewrite H5. }
  split; [exact E6|]. split; [|exact Hf].
  unfold opened. destruct E2 as [Er Ec]. now rewrite Er, Ec.
Qed.

(** What the loop returns is the tally of the records it read. *)
Lemma scan_result_records (w : world) (afs : list string) (s0 s : Summary) :
  scan_result w afs s0 = Ok s ->
  exists rs, map Ok rs = map (record_of w) (read_files w afs)
             /\ s = fold_left tally rs s0.
Proof.
  intros H.
  pose (st := {| data_directory := ""; output_name := ""; output_directory := "";
                 owner := ""; generator := ""; verbose := false |}).
  rewrite <- (LoopFacts.scan_result_eq st) in H.
  destruct (scan st afs s0 w) as [r w'] eqn:E. cbn [fst] in H. subst r.
  now apply scan_ok in E.
Qed.

(** [==] on floats: everything but a NaN equals itself. *)
Lemma eqb_refl (x : Float64.float) : x <> S754_nan -> Float64.eqb x x = true.
Proof.
  unfold Float64.eqb, SFeqb, SFcompare.
  destruct x as [[|]|[|]| |[|] m e]; try reflexivity; intros H;
    try contradiction; rewrite Z.compare_refl, Pos.compare_cont_refl; reflexivity.
Qed.

Lemma pairwise_nodup (l : list Float64.float) :
  pairwise_distinct Float64.eqb l -> (forall x, In x l -> x <> S754_nan) ->
  NoDup l.
Proof.
  unfold pairwise_distinct.
  induction 1 as [|a l Ha Hl IH]; intros Hn; constructor.
  - intros Hin. rewrite Forall_forall in Ha. specialize (Ha a Hin).
    rewrite eqb_refl in Ha; [discriminate|]. apply Hn. now left.
  - apply IH. intros x Hx. apply Hn. now right.
Qed.

(** The lists of a summary that a loop ended on hold no value twice. *)
Lemma summary_distinct (rs : list FileRecord) :
  let s := fold_left tally rs empty_summary in
  NoDup (exts s) /\ NoDup (telescopes s) /\ NoDup (observers s)
  /\ NoDup (project_ids s) /\ NoDup (sources s) /\ NoDup (modes s)
  /\ pairwise_distinct Float64.eqb (center_freqs s).
Proof.
  intros s.
  pose proof (TallyFacts.tally_fields rs empty_summary) as H. cbv zeta in H.
  fold s in H. destruct H as (_ & _ & He & Ht & Ho & Hp & Hs & Hm & _ & Hc).
  cbn [empty_summary exts telescopes observers project_ids sources
       modes center_freqs] in He, Ht, Ho, Hp, Hs, Hm, Hc.
  rewrite He, Ht, Ho, Hp, Hs, Hm, Hc.
  repeat split; try (apply TallyFacts.collect_str_nodup; constructor).
  apply TallyFacts.collect_pairwise. constructor.
Qed.



End ReportFacts.

(** ** Candidates and the entries they name *)

Module EntryFacts.



(** Below something that is no directory [glob] finds nothing. *)
Lemma rlistdir_not_dir (n : node) : Fs.as_dir n = None -> Glob.rlistdir n = [].
Proof.
  unfold Fs.as_dir. induction n as [b c|es|t IH|]; simpl; intros H;
    try reflexivity; [discriminate | now apply IH].
Qed.

Lemma glob_not_dir (r : node) (c : list string) (top e : string) :
  (forall n, Fs.stat r c top = Some n -> Fs.as_dir n = None) ->
  Glob.glob r c top e = [].
Proof.
  intros H. unfold Glob.glob.
  destruct (Fs.stat r c top) as [n|]; [|reflexivity].
  specialize (H n eq_refl). unfold Glob.matches.
  rewrite (rlistdir_not_dir n H). simpl. unfold Glob.glob1. now rewrite H.
Qed.

(** What [stat] finds at the absolute path of valid names. *)
Lemma stat_names (r : node) (c p : list string) (n : node) :
  p <> [] -> Forall (fun x => valid_name x = true) p ->
  Fs.stat r c ("/" ++ Str.join "/" p) = Some n ->
  exists m, Fs.lookup r p = Some m /\ Fs.follow m = Some n.
Proof.
  intros Hne Hv. unfold Fs.stat, Fs.lstat, Fs.canon.
  change (String.eqb ("/" ++ Str.join "/" p) "") with false.
  change (OsPath.isabs ("/" ++ Str.join "/" p)) with true.
  rewrite (RelativeFacts.split_root p Hne Hv). cbv iota.
  destruct (fold_left (Fs.step r) ("" :: p) (Some [])) as [q|] eqn:E; [|discriminate].
  cbn [fold_left] in E.
  destruct (Fs.step r (Some []) "") as [q0|] eqn:E0;
    [|now rewrite OutputFacts.fold_step_none in E].
  assert (q0 = []).
  { unfold Fs.step in E0. destruct (Fs.lookup r []); [|discriminate].
    destruct (Fs.as_dir n0); [|discriminate]. simpl in E0. now injection E0. }
  subst q0. apply RelativeFacts.fold_names in E; [|exact Hv]. simpl in E. subst q.
  destruct (Fs.lookup r p) as [m|]; [|discriminate].
  intros H. now exists m.
Qed.

End EntryFacts.

(** ** The search for a relative data directory *)

Module InsideFacts.

(** Inside a data directory entered by its plain name [d], the search
    goes to [d/d] and finds nothing unless that is a directory. *)
Lemma pick_nothing (st : settings) (w w2 : world) :
  valid_name (data_directory st) = true ->
  Forall (fun x => valid_name x = true) (cwd w) ->
  chdir (data_directory st) w = (Ok tt, w2) ->
  ~ dir_at (root w) (cwd w ++ [data_directory st; data_directory st]) ->
  pick_files st extensions [] w2 = (Ok [], w2).
Proof.
  intros Hd Hc H Hno.
  destruct (RelativeFacts.chdir_name _ _ _ Hd H) as [Hr Hcwd].
  assert (Hc2 : Forall (fun x => valid_name x = true) (cwd w2)).
  { rewrite Hcwd. apply Forall_app. split; [exact Hc | now constructor]. }
  assert (Hne : cwd w2 <> []) by (rewrite Hcwd; now destruct (cwd w)).
  pose proof (RelativeFacts.abspath_inside _ w2 Hd Hne Hc2) as Ha.
  rewrite Hcwd in Ha at 2. rewrite <- app_assoc in Ha. simpl app in Ha.
  pose proof (LoopFacts.pick_files_eq st extensions [] w2) as E. cbv zeta in E.
  rewrite E, Ha. f_equal. rewrite app_nil_l.
  assert (Hg : forall e,
             Glob.glob (root w2) (cwd w2)
               ("/" ++ Str.join "/" (cwd w ++ [data_directory st; data_directory st])) e
             = []).
  { intros e. apply EntryFacts.glob_not_dir. intros n Hs.
    apply EntryFacts.stat_names in Hs as [m [Hl Hf]].
    - destruct (Fs.as_dir n) as [es|] eqn:Ed; [|reflexivity].
      exfalso. apply Hno. exists m, es. split; [now rewrite <- Hr|].
      now rewrite <- (FsFacts.as_dir_follow m n Hf).
    - now destruct (cwd w).
    - apply Forall_app. split; [exact Hc | now repeat constructor]. }
  unfold extensions. simpl. now rewrite !Hg.
Qed.

End InsideFacts.

(** * The claims *)

(** C1. The specification says that the candidates are exactly the files
    that are not links and have one of the four extensions. They are not,
    see the counterexample that follows. What holds, for a data directory
    given by an absolute path without wildcard characters, in a tree whose
    names are valid: the candidates are the paths of the entries of any
    kind, links and directories included, that lie below the directory,
    whose name ends in one of the four extensions, and that are reached,
    themselves included, through names that do not start with a dot; each
    candidate has one of the four extensions, so that nothing else reaches
    [parse_data]; the path of a candidate leads back to the entry it was
    made for; and the loop, when it ends, has read the candidates that are
    not links, in order, and nothing else. *)
Theorem candidates_enumerated (st : settings) (w : world) (n : node) :
  OsPath.isabs (data_directory st) = true ->
  Glob.has_magic (OsPath.normpath (data_directory st)) = false ->
  Fs.stat (root w) (cwd w) (OsPath.normpath (data_directory st)) = Some n ->
  well_formed n = true ->
  exists available_files,
    pick_files st extensions [] w = (Ok available_files, w)
    /\ (forall af,
           In af available_files
           <-> exists p e,
               af = Glob.render (OsPath.normpath (data_directory st)) p
               /\ In e extensions /\ p <> [] /\ visible n p
               /\ Str.endswith (last p "") e = true)
    /\ (forall af, In af available_files ->
                   In (snd (OsPath.splitext af)) extensions)
    /\ (forall p m, p <> [] -> Fs.lookup n p = Some m ->
                    Fs.lstat (root w) (cwd w)
                      (Glob.render (OsPath.normpath (data_directory st)) p)
                    = Some m)
    /\ (forall s s' w', scan st available_files s w = (Ok s', w') ->
          exists rs,
            map Ok rs = map (record_of w) (read_files w available_files)
            /\ s' = fold_left tally rs s).
Proof.
  intros Habs _ Hs Hw.
  pose proof (LoopFacts.pick_files_eq st extensions [] w) as E. cbv zeta in E.
  unfold OsPath.join in E. rewrite Habs in E. rewrite app_nil_l in E.
  eexists. split; [exact E|].
  set (top := OsPath.normpath (data_directory st)) in *.
  assert (Hg : forall e af, In af (Glob.glob (root w) (cwd w) top e)
                            <-> exists p, af = Glob.render top p
                                          /\ In p (Glob.matches n e)).
  { intros e af. unfold Glob.glob. rewrite Hs, in_map_iff.
    split; intros [p [H1 H2]]; exists p; split; congruence. }
  split; [|split; [|split]].
  - intros af. rewrite in_flat_map. split.
    + intros [e [He Haf]]. apply Hg in Haf as [p [-> Hp]].
      apply (GlobFacts.matches_spec n e p Hw) in Hp as [Hne [Hv Hend]].
      now exists p, e.
    + intros [p [e [-> [He [Hne [Hv Hend]]]]]].
      exists e. split; [exact He|]. apply Hg. exists p. split; [reflexivity|].
      now apply GlobFacts.matches_spec.
  - intros af Haf. apply in_flat_map in Haf as [e [He Haf]].
    apply Hg in Haf as [p [-> Hp]].
    now rewrite (GlobFacts.render_splitext n top e p Hw He Hp).
  - intros p m Hne Hm.
    destruct (GlobFacts.lookup_valid n p m Hw Hm) as [Hv _].
    now apply FsFacts.lstat_render with n.
  - intros s s' w' H. now apply ScanFacts.scan_ok in H.
Qed.

(** The plain data file of a directory that also has a hidden one. *)
Lemma candidates_enumerated_witness :
  exists available_files,
    pick_files (Runs.settings_of "/data" false) extensions [] Hidden.searched
    = (Ok available_files, Hidden.searched)
    /\ In "/data/a.fits" available_files
    /\ (forall af, In af available_files ->
                   In (snd (OsPath.splitext af)) extensions).
Proof.
  destruct (candidates_enumerated (Runs.settings_of "/data" false) Hidden.searched
              (Dir (Hidden.entries ++ [("out", Dir [])])))
    as [afs [Hp [Hin [Hext _]]]].
  - reflexivity.
  - reflexivity.
  - reflexivity.
  - reflexivity.
  - exists afs. split; [exact Hp|]. split; [|exact Hext].
    apply Hin. exists ["a.fits"], ".fits".
    split; [reflexivity|]. split; [now left|]. split; [discriminate|].
    split; [|reflexivity].
    split; [now repeat constructor|]. eexists. reflexivity.
Defined.

(** C1, the counterexample. In a data directory with the regular files
    [.hidden.fits] and [a.fits] and the directory [dir.fits], the candidates
    are [dir.fits], which is no file, and [a.fits]; the file [.hidden.fits],
    which is no link and has the extension [.fits], is not among them. *)
Lemma hidden_file_is_not_enumerated :
  fst (pick_files (Runs.settings_of "/data" false) extensions [] Hidden.searched)
  = Ok ["/data/dir.fits"; "/data/a.fits"]
  /\ Fs.stat (root Hidden.searched) (cwd Hidden.searched) "/data/dir.fits"
     = Some (Dir [])
  /\ bytes_of Hidden.searched "/data/.hidden.fits" = Some 10
  /\ is_link Hidden.searched "/data/.hidden.fits" = false
  /\ snd (OsPath.splitext "/data/.hidden.fits") = ".fits".
Proof. repeat split; vm_compute; reflexivity. Qed.

(** With the relative option [-d data], given in [/], the working
    directory is [/data] when line 179 takes the absolute path of
    ["data"]: the search goes to [/data/data] and finds nothing. *)
Lemma relative_data_directory_is_missed :
  fst (abspath "data" Hidden.searched) = Ok "/data/data"
  /\ fst (pick_files (Runs.settings_of "data" false) extensions [] Hidden.searched)
     = Ok [].
Proof. split; vm_compute; reflexivity. Qed.

(** C2. The specification says that a run that stops early writes nothing,
    which holds ([StopFacts.stopped_run_keeps_tree], and
    [StopFacts.taken_output_stops] for a file at the guarded path), and that
    a second run with the same output path fails and leaves the first README
    as it is. With a relative output directory the second run does not fail:
    run twice from [/home/u] with [-d /data -l out], both runs complete, and
    the README the first run left at [/data/out/README.txt] is overwritten
    by the second. *)
Theorem second_run_overwrites :
  fst (main Sample.env Runs.relative_out (Sample.at_home Sample.scenario)) = Ok tt
  /\ fst (main Sample.env_later Runs.relative_out
            (start_again (Sample.at_home Sample.scenario)
               (main Sample.env Runs.relative_out (Sample.at_home Sample.scenario))))
     = Ok tt
  /\ option_map (line 3)
       (Runs.readme_at Runs.data_out
          (main Sample.env Runs.relative_out (Sample.at_home Sample.scenario)))
     = Some "Started at 2024-01-01 00:00:00; completed at 2024-01-01 00:00:01."
  /\ option_map (line 3)
       (Runs.readme_at Runs.data_out
          (main Sample.env_later Runs.relative_out
             (start_again (Sample.at_home Sample.scenario)
                (main Sample.env Runs.relative_out (Sample.at_home Sample.scenario)))))
     = Some "Started at 2024-01-02 00:00:00; completed at 2024-01-02 00:00:01.".
Proof. repeat split; vm_compute; reflexivity. Qed.

(** With an absolute output directory the guard does its work: the
    second run stops at line 162 and the README stays as the first run
    wrote it. *)
Lemma second_run_stops_with_absolute_output :
  fst (main Sample.env Runs.absolute (Sample.at_home Sample.scenario)) = Ok tt
  /\ fst (main Sample.env_later Runs.absolute
            (start_again (Sample.at_home Sample.scenario)
               (main Sample.env Runs.absolute (Sample.at_home Sample.scenario))))
     = Stop SystemExit
  /\ Runs.readme_at Runs.home_out
       (main Sample.env_later Runs.absolute
          (start_again (Sample.at_home Sample.scenario)
             (main Sample.env Runs.absolute (Sample.at_home Sample.scenario))))
     = Runs.readme_at Runs.home_out
         (main Sample.env Runs.absolute (Sample.at_home Sample.scenario))
  /\ option_map (line 3)
       (Runs.readme_at Runs.home_out
          (main Sample.env Runs.absolute (Sample.at_home Sample.scenario)))
     = Some "Started at 2024-01-01 00:00:00; completed at 2024-01-01 00:00:01.".
Proof. repeat split; vm_compute; reflexivity. Qed.

(** C3. A run that completes has written one file, at the name it opened
    in the output directory, whose text is these lines in this order,
    joined by newlines: the header with the directory searched and the
    program; the owner; the generator; the two timestamps; the number of
    files; the total size to two decimal places; then, each joined by a
    comma and a space and in ascending lexicographic order, the file types,
    telescopes, observers, project ids, sources, modes and the textual
    forms of the centre frequencies; an empty line; and [Notes:] with
    nothing after it. The summary in it is the one the loop returns for
    the candidates picked in the data directory. The total is printed as
    the hundredths nearest to its binary value, the whole part, a point
    and two digits. No list of the summary holds a value twice, the centre
    frequencies as long as none is a NaN. [sorted] returns the ascending
    rearrangement of its argument; and the epochs have no part in the
    text. *)
Theorem readme_contents (env : environ) (a : Cli.argv) (w w' : world) :
  main env a w = (Ok tt, w') ->
  exists st w2 w5 available_files s names,
    use_arguments env (parse_args a) w = (Ok st, w)
    /\ chdir (data_directory st) w = (Ok tt, w2)
    /\ pick_files st extensions [] w2 = (Ok available_files, w2)
    /\ scan_result w2 available_files empty_summary = Ok s
    /\ chdir (output_directory st) w2 = (Ok tt, w5)
    /\ opened st w5 = Some names
    /\ file_at (root w') names
       = Some (File (Str.len (readme st env s)) (Text (readme st env s)))
    /\ readme st env s
       = Str.join nl
           ["README file for " ++ data_directory st ++ " generated by "
              ++ script_file env ++ ".";
            "Owner: " ++ owner st;
            "Generated by: " ++ generator st;
            "Started at " ++ start_timestamp env ++ "; completed at "
              ++ end_timestamp env ++ ".";
            "Number of files: " ++ Str.of_Z (n_files s);
            "Total size (GB): " ++ Float64.format_2f (tot_size s);
            "File types: " ++ Str.join ", " (Str.sorted (exts s));
            "Telescope: " ++ Str.join ", " (Str.sorted (telescopes s));
            "Observers: " ++ Str.join ", " (Str.sorted (observers s));
            "Project IDs: " ++ Str.join ", " (Str.sorted (project_ids s));
            "Sources: " ++ Str.join ", " (Str.sorted (sources s));
            "Modes: " ++ Str.join ", " (Str.sorted (modes s));
            "Center frequencies (MHz): "
              ++ Str.join ", " (Str.sorted (map Float64.repr (center_freqs s)));
            "";
            "Notes:"]
    /\ (tot_size s = Float64.zero -> Float64.format_2f (tot_size s) = "0.00")
    /\ (forall m e, tot_size s = S754_finite false m e ->
          exists h,
            Float64.format_2f (tot_size s)
            = Str.of_Z (h / 100) ++ "." ++ Float64.two_digits (h mod 100)
            /\ match e with
               | Zneg k => 2 * Z.abs (Zpos m * 100 - h * Zpos (2 ^ k)) <= Zpos (2 ^ k)
               | _ => h = Zpos m * 2 ^ e * 100
               end)
    /\ (NoDup (exts s) /\ NoDup (telescopes s) /\ NoDup (observers s)
        /\ NoDup (project_ids s) /\ NoDup (sources s) /\ NoDup (modes s)
        /\ pairwise_distinct Float64.eqb (center_freqs s)
        /\ ((forall x, In x (center_freqs s) -> x <> S754_nan) ->
            NoDup (center_freqs s)))
    /\ (forall l, StronglySorted Str.le (Str.sorted l)
                  /\ Permutation (Str.sorted l) l)
    /\ (forall epochs, readme st env (with_MJDs s epochs) = readme st env s).
Proof.
  intros H.
  apply ReportFacts.main_steps in H
    as (st & w2 & w5 & afs & s & names & H0 & H2 & H3 & Hs & H6 & Ho & Hf).
  exists st, w2, w5, afs, s, names.
  split; [exact H0|]. split; [exact H2|]. split; [exact H3|].
  split; [exact Hs|]. split; [exact H6|]. split; [exact Ho|].
  split; [exact Hf|].
  split; [apply MainFacts.readme_lines|].
  split; [now intros ->|].
  split.
  { intros m e ->. exists (Float64.hundredths m e). split; [reflexivity|].
    destruct e as [|k|k]; [reflexivity | reflexivity |].
    apply FloatFacts.hundredths_nearest. }
  split.
  { apply ReportFacts.scan_result_records in Hs as [rs [_ ->]].
    destruct (ReportFacts.summary_distinct rs) as (A & B & C & D & E & F & G).
    repeat split; try assumption.
    now apply ReportFacts.pairwise_nodup. }
  split; [|reflexivity].
  intros l. split; [apply SortFacts.sorted_sorted | apply SortFacts.sorted_perm].
Qed.

(** The scenario of the specification, line by line; the same files with
    other epochs, which leave the same text; two files at 350 and at
    1400 MHz, whose frequencies come in the order of their text; and two
    files with the same header, whose values are listed once. *)
Lemma readme_contents_witness :
  Runs.readme_at Runs.home_out
    (main Sample.env Runs.absolute (Sample.at_home Sample.scenario))
  = Some (Str.join nl
            ["README file for /data generated by make_readme.py.";
             "Owner: Unknown";
             "Generated by: u";
             "Started at 2024-01-01 00:00:00; completed at 2024-01-01 00:00:01.";
             "Number of files: 2";
             "Total size (GB): 0.03";
             "File types: .fil, .fits";
             "Telescope: GBT";
             "Observers: Smith, Unknown";
             "Project IDs: P001, Unknown";
             "Sources: J0000+00";
             "Modes: SEARCH, Unknown";
             "Center frequencies (MHz): 1400.0, 1450.5";
             "";
             "Notes:"])
  /\ Runs.readme_at Runs.home_out
       (main Sample.env Runs.absolute (Sample.at_home Sample.other_epochs))
     = Runs.readme_at Runs.home_out
         (main Sample.env Runs.absolute (Sample.at_home Sample.scenario))
  /\ option_map (line 12)
       (Runs.readme_at Runs.home_out
          (main Sample.env Runs.absolute (Sample.at_home Runs.two_bands)))
     = Some "Center frequencies (MHz): 1400.0, 350.0"
  /\ option_map (fun text => (line 4 text, line 5 text, line 7 text, line 12 text))
       (Runs.readme_at Runs.home_out
          (main Sample.env Runs.absolute (Sample.at_home Runs.two_files)))
     = Some ("Number of files: 2", "Total size (GB): 0.02", "Telescope: GBT",
             "Center frequencies (MHz): 1400.0").
Proof.
  split; [|repeat split; vm_compute; reflexivity].
  destruct (main Sample.env Runs.absolute (Sample.at_home Sample.scenario))
    as [[[]|sig] w'] eqn:E; [|vm_compute in E; discriminate E].
  destruct (readme_contents _ _ _ _ E)
    as (st & w2 & w5 & afs & s & names & H0 & _ & _ & _ & _ & _ & _ & Ht & _).
  vm_compute in E. injection E as <-.
  vm_compute. reflexivity.
Defined.




(** C5. The specification says that the two orderings of a band give the
    same centre. In binary64 they need not, see the counterexample that follows. What holds: a [.fil] file with a
    filterbank header is parsed into a record whose centre frequency is
    [fch1 + foff*(nchans - 1)/2], each operation rounded to binary64; the
    half-band offset of a header with the opposite channel width is the
    exact opposite, for every width and channel count; and over the
    rationals, where nothing is rounded, the header with first channel
    [f_low + w*(n - 1)] and width [-w] has the centre of the header with
    first channel [f_low] and width [w]. *)
Theorem fil_center_freq (w : world) (data_file : string) (bytes : Z) (h : Fil.header) :
  snd (OsPath.splitext data_file) = ".fil" ->
  Fs.stat (root w) (cwd w) data_file = Some (File bytes (FilterbankData h)) ->
  (exists r, parse_data data_file w = (Ok r, w)
             /\ center_freq r
                = Float64.add (Fil.fch1 h)
                    (Float64.div
                       (Float64.mul (Fil.foff h) (Float64.of_Z (Fil.nchans h - 1)))
                       (Float64.of_Z 2))
             /\ center_freq r = Float64.add (Fil.fch1 h) (half_band (Fil.foff h) (Fil.nchans h)))
  /\ (forall (foff : Float64.float) (nchans : Z),
         half_band (Float64.opp foff) nchans = Float64.opp (half_band foff nchans))
  /\ (forall (f_low wd : Q) (n : Z),
         center_exact (f_low + wd * inject_Z (n - 1)) (- wd) n
         == center_exact f_low wd n)%Q.
Proof.
  intros He Hs. split; [|split].
  - unfold parse_data.
    destruct (OsPath.split data_file) as [p f];
      destruct (OsPath.splitext data_file) as [nm e]; simpl in He. subst e.
    unfold bind, getsize, FilReader, ret. rewrite Hs. cbv beta iota zeta.
    change (str_in ".fil" psrfits_exts) with false.
    change (str_in ".fil" fil_exts) with true. cbv beta iota zeta.
    rewrite Hs. eexists. split; [reflexivity|]. split; reflexivity.
  - apply FloatFacts.half_band_opp.
  - apply FloatFacts.center_exact_mirror.
Qed.

(** The filterbank file of the scenario: 1500 MHz down in 100 channels
    of 1 MHz. *)
Lemma fil_center_freq_witness :
  exists r, parse_data "/data/sub/b.fil" (Sample.at_home Sample.scenario)
            = (Ok r, Sample.at_home Sample.scenario)
            /\ Float64.repr (center_freq r) = "1450.5".
Proof.
  destruct (fil_center_freq (Sample.at_home Sample.scenario) "/data/sub/b.fil"
              3000000 Sample.fil_hdr) as [[r [Hr [Hc _]]] _].
  - vm_compute. reflexivity.
  - vm_compute. reflexivity.
  - exists r. split; [exact Hr|]. rewrite Hc. vm_compute. reflexivity.
Defined.

(** C5, the counterexample. The band from 1400 MHz in 2 channels of 0.2 MHz:
    ascending, [fch1 = 1400.0] and [foff = 0.2]; descending, [fch1 =
    1400.2], which is the double nearest the upper edge and the one that
    [1400.0 + 0.2*1] computes, and [foff = -0.2]. The centres are 1400.1 and
    1400.1000000000001. The same happens with a band whose upper edge [f_low
    + w*(n - 1)] is a double exactly. *)
Lemma mirrored_band_centres_differ :
  (Band.f_high = Float64.add Band.f_low (Float64.mul Band.width (Float64.of_Z 1))
   /\ option_map Float64.repr (Band.center_of "/data/up.fil") = Some "1400.1"
   /\ option_map Float64.repr (Band.center_of "/data/down.fil")
      = Some "1400.1000000000001")
  /\ (match Float64.to_Q Band.edge, Float64.to_Q Band.tiny, Float64.to_Q Band.wide with
      | Some hi, Some lo, Some wd => (hi == lo + wd * inject_Z (4 - 1))%Q
      | _, _, _ => False
      end
      /\ Band.center_of "/data/up2.fil" <> Band.center_of "/data/down2.fil").
Proof.
  split; [repeat split; vm_compute; reflexivity|].
  split; [vm_compute; reflexivity|].
  vm_compute. discriminate.
Qed.

(** C6. The specification says that every accumulator holds each value once
    and that the result does not depend on the order of the files. For the
    two lists of floats that fails, see the counterexample that follows. What
    holds, for every sequence of records read into the empty summary: the
    six lists of strings have no duplicate; sorted, they and the file count
    are the same for every order of the records; the telescope list of the
    report is sorted, without duplicate, and holds exactly the telescope
    names of the records, as many as there are distinct ones; in the lists
    of epochs and of centre frequencies no two entries compare equal, and
    every value read is in the list or compares equal to an entry. *)
Theorem distinct_values (rs : list FileRecord) :
  let s := fold_left tally rs empty_summary in
  (NoDup (exts s) /\ NoDup (telescopes s) /\ NoDup (observers s)
   /\ NoDup (project_ids s) /\ NoDup (sources s) /\ NoDup (modes s))
  /\ (forall rs', Permutation rs rs' ->
        let s' := fold_left tally rs' empty_summary in
        n_files s = n_files s'
        /\ Str.sorted (exts s) = Str.sorted (exts s')
        /\ Str.sorted (telescopes s) = Str.sorted (telescopes s')
        /\ Str.sorted (observers s) = Str.sorted (observers s')
        /\ Str.sorted (project_ids s) = Str.sorted (project_ids s')
        /\ Str.sorted (sources s) = Str.sorted (sources s')
        /\ Str.sorted (modes s) = Str.sorted (modes s'))
  /\ (let reported := Str.sorted (telescopes s) in
      List.length reported = List.length (nodup string_dec (map telescope rs))
      /\ NoDup reported
      /\ StronglySorted Str.le reported
      /\ forall t, In t reported <-> In t (map telescope rs))
  /\ (pairwise_distinct Float64.eqb (MJDs s)
      /\ pairwise_distinct Float64.eqb (center_freqs s))
  /\ (forall r, In r rs ->
        (exists y, In y (MJDs s) /\ (y = MJD r \/ Float64.eqb y (MJD r) = true))
        /\ (exists y, In y (center_freqs s)
                      /\ (y = center_freq r \/ Float64.eqb y (center_freq r) = true))).
Proof.
  intros s.
  pose proof (TallyFacts.tally_fields rs empty_summary) as H. cbv zeta in H.
  fold s in H. destruct H as (Hn & _ & He & Ht & Ho & Hp & Hs & Hm & Hj & Hc).
  cbn [empty_summary n_files exts telescopes observers project_ids sources
       modes MJDs center_freqs] in Hn, He, Ht, Ho, Hp, Hs, Hm, Hj, Hc.
  split; [|split; [|split; [|split]]].
  - rewrite He, Ht, Ho, Hp, Hs, Hm.
    repeat split; apply TallyFacts.collect_str_nodup; constructor.
  - intros rs' Hperm. cbv zeta.
    pose proof (TallyFacts.tally_fields rs' empty_summary) as H. cbv zeta in H.
    destruct H as (Hn' & _ & He' & Ht' & Ho' & Hp' & Hs' & Hm' & _).
    cbn [empty_summary n_files exts telescopes observers project_ids sources
         modes MJDs center_freqs] in Hn', He', Ht', Ho', Hp', Hs', Hm'.
    rewrite Hn, Hn', He, He', Ht, Ht', Ho, Ho', Hp, Hp', Hs, Hs', Hm, Hm'.
    split; [now rewrite (Permutation_length Hperm)|].
    repeat split; apply SortFacts.sorted_of_perm, TallyFacts.collect_str_perm;
      now apply Permutation_map.
  - cbv zeta. rewrite Ht. repeat split.
    + rewrite (Permutation_length (SortFacts.sorted_perm _)).
      apply Permutation_length, TallyFacts.collect_str_nodup_perm.
    + eapply Permutation_NoDup; [symmetry; apply SortFacts.sorted_perm|].
      apply TallyFacts.collect_str_nodup. constructor.
    + apply SortFacts.sorted_sorted.
    + intros H. eapply Permutation_in in H; [|apply SortFacts.sorted_perm].
      apply TallyFacts.collect_str_in in H as [[] | H]. exact H.
    + intros H. eapply Permutation_in; [symmetry; apply SortFacts.sorted_perm|].
      apply TallyFacts.collect_str_in. now right.
  - rewrite Hj, Hc. split; apply TallyFacts.collect_pairwise; constructor.
  - intros r Hr. rewrite Hj, Hc. split; apply TallyFacts.collect_covers;
      now apply in_map.
Qed.

(** Two records of one telescope, in both orders. *)
Lemma distinct_values_witness :
  Str.sorted (telescopes (fold_left tally [Sample.record_a; Sample.record_b] empty_summary))
  = ["GBT"]
  /\ Str.sorted (modes (fold_left tally [Sample.record_a; Sample.record_b] empty_summary))
     = Str.sorted (modes (fold_left tally [Sample.record_b; Sample.record_a] empty_summary)).
Proof.
  destruct (distinct_values [Sample.record_a; Sample.record_b])
    as [_ [Hperm [[Hlen [_ [_ Hin]]] _]]].
  split.
  - vm_compute. reflexivity.
  - destruct (Hperm [Sample.record_b; Sample.record_a]) as (_ & _ & _ & _ & _ & _ & Hm).
    + apply perm_swap.
    + exact Hm.
Defined.

(** C6, the counterexample. Two filterbank files whose band centres are
    [0.0] and [-0.0]: listed in one order the README gives [0.0], in the
    other [-0.0]. And two files whose centre is NaN both get into the list. *)
Lemma float_lists_depend_on_order :
  option_map (line 12)
    (Runs.readme_at Runs.home_out
       (main Sample.env Runs.absolute
          (Sample.at_home [("a.fil", Zeros.plus); ("b.fil", Zeros.minus)])))
  = Some "Center frequencies (MHz): 0.0"
  /\ option_map (line 12)
       (Runs.readme_at Runs.home_out
          (main Sample.env Runs.absolute
             (Sample.at_home [("b.fil", Zeros.minus); ("a.fil", Zeros.plus)])))
     = Some "Center frequencies (MHz): -0.0"
  /\ option_map (line 12)
       (Runs.readme_at Runs.home_out
          (main Sample.env Runs.absolute
             (Sample.at_home [("a.fil", Zeros.nan); ("b.fil", Zeros.nan)])))
     = Some "Center frequencies (MHz): nan, nan".
Proof. repeat split; vm_compute; reflexivity. Qed.

(** C7. The specification says that the total printed is the sum of the byte
    sizes over 10^9, rounded to two places. As the script adds binary64
    quotients, that holds up to rounding only, see the counterexample that follows. What holds: when the loop ends, the
    total is the sum, taken in binary64 in the order of the scan and
    starting from zero, of the size of each file read divided by 10^9; files
    behind links are not in it; over the rationals that sum is the sum of
    the bytes over 10^9; and the README prints the total to the nearest
    hundredth of its binary value. *)
Theorem total_size_reported (st : settings) (env : environ)
        (available_files : list string) (s : Summary) (w w' : world) :
  scan st available_files empty_summary w = (Ok s, w') ->
  exists bytes,
    map Some bytes = map (bytes_of w) (read_files w available_files)
    /\ tot_size s = gigabytes bytes Float64.zero
    /\ (gigabytes_exact bytes
        == inject_Z (fold_left Z.add bytes 0%Z) / inject_Z (10 ^ 9))%Q
    /\ (exists before after,
           readme st env s
           = before ++ "Total size (GB): " ++ Float64.format_2f (tot_size s)
               ++ nl ++ after)
    /\ (forall m k, 2 * Z.abs (Zpos m * 100 - Float64.hundredths m (Zneg k) * Zpos (2 ^ k))
                    <= Zpos (2 ^ k)).
Proof.
  intros H. destruct (SizeFacts.scan_sizes _ _ _ _ _ _ H) as [bytes [H1 [_ H2]]].
  exists bytes. split; [exact H1|]. split; [exact H2|].
  split; [apply FloatFacts.gigabytes_exact_sum|].
  split; [|apply FloatFacts.hundredths_nearest].
  exists ("README file for " ++ data_directory st ++ " generated by "
            ++ script_file env ++ "." ++ nl
          ++ "Owner: " ++ owner st ++ nl
          ++ "Generated by: " ++ generator st ++ nl
          ++ "Started at " ++ start_timestamp env ++ "; completed at "
            ++ end_timestamp env ++ "." ++ nl
          ++ "Number of files: " ++ Str.of_Z (n_files s) ++ nl).
  eexists. unfold readme. rewrite !StrFacts.append_assoc. reflexivity.
Qed.

(** Two files of 3 000 000 and 22 000 000 bytes. *)
Lemma total_size_reported_witness :
  exists s bytes,
    fst (scan (Runs.settings_of "/data" false) ["/data/a.fits"; "/data/b.fits"]
           empty_summary (Sample.at_home Runs.two_files)) = Ok s
    /\ bytes = [3000000; 22000000]
    /\ tot_size s = gigabytes bytes Float64.zero.
Proof.
  destruct (scan (Runs.settings_of "/data" false) ["/data/a.fits"; "/data/b.fits"]
              empty_summary (Sample.at_home Runs.two_files)) as [[s|sig] w'] eqn:E;
    [|vm_compute in E; discriminate E].
  destruct (total_size_reported (Runs.settings_of "/data" false) Sample.env
              _ _ _ _ E) as [bytes [H1 [H2 _]]].
  exists s, bytes. split; [reflexivity|]. split; [|exact H2].
  vm_compute in H1. destruct bytes as [|b1 [|b2 [|b3 bytes]]]; try discriminate H1.
  now injection H1 as <- <-.
Defined.

(** C7, the counterexample. One file of 25 000 000 bytes, and the same bytes
    in two files of 3 000 000 and 22 000 000: over the rationals the total
    is 1/40 GB both times, and the README says 0.03 for the one and 0.02 for
    the other. The number printed is not a function of the sum of the sizes. *)
Lemma total_size_depends_on_the_split :
  (gigabytes_exact [25000000%Z] == gigabytes_exact [3000000%Z; 22000000%Z])%Q
  /\ option_map (line 5)
       (Runs.readme_at Runs.home_out
          (main Sample.env Runs.absolute (Sample.at_home Runs.one_file)))
     = Some "Total size (GB): 0.03"
  /\ option_map (line 5)
       (Runs.readme_at Runs.home_out
          (main Sample.env Runs.absolute (Sample.at_home Runs.two_files)))
     = Some "Total size (GB): 0.02".
Proof. repeat split; vm_compute; reflexivity. Qed.

(** C8. A candidate that is a symbolic link changes nothing: the loop
    returns what it returns without it, count, size and lists alike. And
    when the directory searched, its path free of wildcard characters and
    its names valid, holds symbolic links to files and nothing else, the
    candidates are found, every one is skipped, and the loop ends on the
    summary it started from, with a file count of 0. *)
Theorem symlinks_are_skipped (st : settings) (w : world) :
  (forall (l1 l2 : list string) (af : string) (s : Summary),
      is_link w af = true ->
      fst (scan st (l1 ++ af :: l2) s w) = fst (scan st (l1 ++ l2) s w))
  /\ (forall es : list (string * node),
         Fs.stat (root w) (cwd w)
           (OsPath.normpath
              (OsPath.join ("/" ++ Str.join "/" (cwd w)) (data_directory st)))
         = Some (Dir es) ->
         Glob.has_magic
           (OsPath.normpath
              (OsPath.join ("/" ++ Str.join "/" (cwd w)) (data_directory st)))
         = false ->
         well_formed (Dir es) = true ->
         Forall (fun x => links_to_file (snd x) = true) es ->
         exists available_files s,
           pick_files st extensions [] w = (Ok available_files, w)
           /\ fst (scan st available_files empty_summary w) = Ok s
           /\ n_files s = 0 /\ s = empty_summary).
Proof.
  split.
  - intros l1 l2 af s H. rewrite !LoopFacts.scan_result_eq.
    now apply LoopFacts.scan_result_skip.
  - intros es Hs _ Hw Hl. rewrite LoopFacts.pick_files_eq.
    eexists. exists empty_summary. split; [reflexivity|].
    split; [|now split].
    rewrite LoopFacts.scan_result_eq. apply LoopFacts.scan_result_links.
    apply Forall_forall. intros af Haf. rewrite app_nil_l in Haf.
    apply in_flat_map in Haf as [e [_ Haf]].
    eapply LoopFacts.candidates_are_links; eauto.
Qed.

(** A directory with two links, to a PSRFITS and to a filterbank file. *)
Lemma symlinks_are_skipped_witness :
  fst (scan (Runs.settings_of "/data" true) ["/data/l1.fits"; "/data/l2.fil"]
         empty_summary Runs.only_links)
  = fst (scan (Runs.settings_of "/data" true) ["/data/l2.fil"]
           empty_summary Runs.only_links)
  /\ exists available_files,
      pick_files (Runs.settings_of "/data" true) extensions [] Runs.only_links
      = (Ok available_files, Runs.only_links)
      /\ available_files = ["/data/l1.fits"; "/data/l2.fil"]
      /\ fst (scan (Runs.settings_of "/data" true) available_files
                empty_summary Runs.only_links) = Ok empty_summary.
Proof.
  destruct (symlinks_are_skipped (Runs.settings_of "/data" true) Runs.only_links)
    as [H1 H2].
  split.
  - apply (H1 [] ["/data/l2.fil"] "/data/l1.fits" empty_summary). reflexivity.
  - destruct (H2 [("l1.fits", Link (Sample.fits_file 10));
                  ("l2.fil", Link (Sample.fil_file 20))])
      as [afs [s [Hp [Hs [_ ->]]]]].
    + reflexivity.
    + reflexivity.
    + reflexivity.
    + repeat constructor.
    + exists afs. split; [exact Hp|]. split; [|exact Hs].
      vm_compute in Hp. now injection Hp as <-.
Defined.

(** C9. The specification says that a [-v] value other than true or false is
    a fatal usage error. The script does not do that: [argparse] turns the
    value [s] into [bool(s)], which is [True] for every string but the empty
    one, so that the test of line 92 never fires: whatever the options, the
    settings are resolved without printing and without exiting, and
    [verbose] is [True] exactly when a non-empty value was given, be it
    ["maybe"] or ["False"]; without the option it is [False]. *)
Theorem verbose_value_never_rejected (env : environ) (a : Cli.argv) (w : world) :
  exists st, use_arguments env (parse_args a) w = (Ok st, w)
             /\ verbose st = match Cli.v a with
                             | Some s => negb (String.eqb s "")
                             | None => false
                             end.
Proof.
  rewrite RunFacts.use_arguments_eq. eexists. split; [reflexivity|].
  simpl. destruct (Cli.v a) as [s|]; simpl; [|reflexivity].
  unfold py_bool. now destruct (String.eqb s "").
Qed.

(** C10. The specification says that the guard of line 160 tests the file
    that line 252 opens. With a relative output directory it does not. Run
    from [/home/u] with [-d /data -l out], both [/home/u/out] and
    [/data/out] being directories: the guard looks at
    [/home/u/out/README.txt], resolved from the directory the process
    started in; the run then changes to [/data] and from there to [out],
    opens [/data/out/README.txt] and writes the README there; nothing
    appears at the path the guard looked at. *)
Theorem guard_misses_the_written_file :
  exists st w',
    use_arguments Sample.env (parse_args Runs.relative_out)
      (Sample.at_home Sample.scenario) = (Ok st, Sample.at_home Sample.scenario)
    /\ main Sample.env Runs.relative_out (Sample.at_home Sample.scenario) = (Ok tt, w')
    /\ guarded st (Sample.at_home Sample.scenario)
       = Some ["home"; "u"; "out"; "README.txt"]
    /\ opened st w' = Some ["data"; "out"; "README.txt"]
    /\ Fs.lookup (root w') ["home"; "u"; "out"; "README.txt"] = None
    /\ exists bytes text,
        file_at (root w') ["data"; "out"; "README.txt"]
        = Some (File bytes (Text text))
        /\ line 0 text = "README file for /data generated by make_readme.py.".
Proof.
  eexists. eexists. split; [vm_compute; reflexivity|].
  split; [vm_compute; reflexivity|].
  split; [vm_compute; reflexivity|].
  split; [vm_compute; reflexivity|].
  split; [vm_compute; reflexivity|].
  eexists. eexists. split; vm_compute; reflexivity.
Qed.

(** * Further properties *)

(** X1 (lines 154-162).  Each of the three tests before the search ends
    the run by [sys.exit()] with its own message as the only thing
    printed, the tree and the working directory as they were: a data
    directory that is no directory, then an output directory that is none,
    then something at the path of the output file. *)
Theorem guards_stop_with_their_message (env : environ) (a : Cli.argv) (w : world)
        (st : settings) :
  use_arguments env (parse_args a) w = (Ok st, w) ->
  (is_directory w (data_directory st) = false ->
   main env a w
   = (Stop SystemExit,
      printed w ("Data directory " ++ data_directory st ++ " does not exist!")))
  /\ (is_directory w (data_directory st) = true ->
      is_directory w (output_directory st) = false ->
      main env a w
      = (Stop SystemExit,
         printed w ("Output directory " ++ output_directory st ++ " does not exist!")))
  /\ (is_directory w (data_directory st) = true ->
      is_directory w (output_directory st) = true ->
      path_exists w (OsPath.join (output_directory st) (output_name st)) = true ->
      main env a w
      = (Stop SystemExit,
         printed w ("There is already a file named "
                    ++ OsPath.join (output_directory st) (output_name st) ++ "!"))).
Proof.
  intros Hst. unfold main. rewrite (StepFacts.bind_eq _ _ _ _ _ Hst).
  split; [|split].
  - intros Hd. apply StepFacts.bind_stop_eq.
    rewrite StepFacts.check_directories_eq. now rewrite Hd.
  - intros Hd Ho. apply StepFacts.bind_stop_eq.
    rewrite StepFacts.check_directories_eq. now rewrite Hd, Ho.
  - intros Hd Ho Hx. apply StepFacts.bind_stop_eq.
    rewrite StepFacts.check_directories_eq. now rewrite Hd, Ho, Hx.
Qed.

Lemma guards_stop_with_their_message_witness :
  main Sample.env Broken.no_data (Sample.at_home Sample.scenario)
  = (Stop SystemExit,
     printed (Sample.at_home Sample.scenario)
       "Data directory /nowhere does not exist!")
  /\ main Sample.env Broken.no_output (Sample.at_home Sample.scenario)
     = (Stop SystemExit,
        printed (Sample.at_home Sample.scenario)
          "Output directory /nowhere does not exist!")
  /\ main Sample.env Broken.into_data Broken.taken
     = (Stop SystemExit,
        printed Broken.taken "There is already a file named /data/README.txt!").
Proof.
  split; [|split].
  - apply (proj1 (guards_stop_with_their_message Sample.env Broken.no_data
                    (Sample.at_home Sample.scenario) _ eq_refl)).
    reflexivity.
  - apply (proj1 (proj2 (guards_stop_with_their_message Sample.env Broken.no_output
                           (Sample.at_home Sample.scenario) _ eq_refl)));
      reflexivity.
  - apply (proj2 (proj2 (guards_stop_with_their_message Sample.env Broken.into_data
                           Broken.taken _ eq_refl)));
      reflexivity.
Defined.

(** X2 (lines 185-189).  With a thousand candidates or fewer nothing is
    asked and nothing is printed.  With more, the question is printed
    once, and the run goes on for the answer [Y] alone: any other answer
    ends it by [sys.exit()], and no answer at all is an [EOFError]. *)
Theorem confirm_asks_above_a_thousand (env : environ) (available_files : list string)
        (w : world) :
  ((List.length available_files <= 1000)%nat ->
   confirm env available_files w = (Ok tt, w))
  /\ ((1000 < List.length available_files)%nat ->
      confirm env available_files w
      = (match answer env with
         | Some reply => if String.eqb reply "Y" then Ok tt else Stop SystemExit
         | None => Stop (Raise EOFError)
         end,
         printed w (prompt available_files))).
Proof.
  unfold confirm. change (10 ^ 3) with 1000. split; intros H.
  - replace (1000 <? Z.of_nat (List.length available_files)) with false
      by (symmetry; apply Z.ltb_ge; lia).
    reflexivity.
  - replace (1000 <? Z.of_nat (List.length available_files)) with true
      by (symmetry; apply Z.ltb_lt; lia).
    unfold when, input, bind, print, prompt, printed.
    destruct (answer env) as [reply|]; [|reflexivity].
    unfold ret. destruct (String.eqb reply "Y"); reflexivity.
Qed.

Lemma confirm_asks_above_a_thousand_witness :
  confirm Sample.env [] (Sample.at_home Sample.scenario)
  = (Ok tt, Sample.at_home Sample.scenario)
  /\ confirm Broken.yes Broken.many (Sample.at_home Sample.scenario)
     = (Ok tt,
        printed (Sample.at_home Sample.scenario)
          "There are 1001 files to read. Are you sure you want to proceed? [Y/N] ").
Proof.
  split.
  - apply (proj1 (confirm_asks_above_a_thousand Sample.env []
                    (Sample.at_home Sample.scenario))).
    simpl. lia.
  - apply (proj2 (confirm_asks_above_a_thousand Broken.yes Broken.many
                    (Sample.at_home Sample.scenario))).
    unfold Broken.many. rewrite repeat_length. lia.
Defined.

(** X3 (lines 118-149).  [parse_data] chooses the reader by the extension
    of the path alone, and fails in these ways.  A path that leads nowhere
    fails at [os.path.getsize]: with [NotADirectoryError] when it goes on
    after a regular file, with [FileNotFoundError] when its names resolve
    and nothing is there, or when it goes on after a name that is missing
    or after a link that dangles.  A [.fits], [.sf], [.rf] or [.fil] path
    whose file is not of the format the extension names, a directory
    included, fails with the error of the reader.  A path that exists and
    has any other extension fails with [UnboundLocalError]. *)
Theorem parse_data_failures (w : world) (data_file : string) :
  (forall p, Fs.canon (root w) (cwd w) data_file = Some p ->
      Fs.stat (root w) (cwd w) data_file = None ->
      record_of w data_file = Stop (Raise FileNotFoundError))
  /\ (forall pre rest b c, data_file = pre ++ "/" ++ rest ->
      Fs.stat (root w) (cwd w) pre = Some (File b c) ->
      record_of w data_file = Stop (Raise NotADirectoryError))
  /\ (forall pre rest p, data_file = pre ++ "/" ++ rest ->
      Fs.canon (root w) (cwd w) pre = Some p ->
      Fs.stat (root w) (cwd w) pre = None ->
      record_of w data_file = Stop (Raise FileNotFoundError))
  /\ (forall n, Fs.stat (root w) (cwd w) data_file = Some n ->
      str_in (snd (OsPath.splitext data_file)) extensions = false ->
      record_of w data_file = Stop (Raise UnboundLocalError))
  /\ (forall n, Fs.stat (root w) (cwd w) data_file = Some n ->
      str_in (snd (OsPath.splitext data_file)) psrfits_exts = true ->
      (forall b h, n <> File b (PsrfitsData h)) ->
      record_of w data_file = Stop (Raise ReaderError))
  /\ (forall n, Fs.stat (root w) (cwd w) data_file = Some n ->
      str_in (snd (OsPath.splitext data_file)) fil_exts = true ->
      (forall b h, n <> File b (FilterbankData h)) ->
      record_of w data_file = Stop (Raise ReaderError)).
Proof.
  split; [|split; [|split]].
  - intros p Hc Hs. rewrite (ErrnoFacts.record_of_unresolved w _ Hs).
    now rewrite (ErrnoFacts.errno_resolved _ _ _ _ Hc).
  - intros pre rest b c -> Hs.
    unfold Fs.stat, Fs.lstat in Hs.
    destruct (Fs.canon (root w) (cwd w) pre) as [p|] eqn:Hc; [|discriminate].
    destruct (Fs.lookup (root w) p) as [n|] eqn:El; [|discriminate].
    destruct (ErrnoFacts.after_blocked (root w) (cwd w) pre rest p Hc) as [Hn He].
    { intros n' Hn'. rewrite El in Hn'. injection Hn' as <-.
      unfold Fs.as_dir. now rewrite Hs. }
    rewrite (ErrnoFacts.record_of_unresolved w _ Hn), He, El. now rewrite Hs.
  - intros pre rest p -> Hc Hs.
    unfold Fs.stat, Fs.lstat in Hs. rewrite Hc in Hs.
    destruct (ErrnoFacts.after_blocked (root w) (cwd w) pre rest p Hc) as [Hn He].
    { intros n' Hn'. rewrite Hn' in Hs. unfold Fs.as_dir. now rewrite Hs. }
    rewrite (ErrnoFacts.record_of_unresolved w _ Hn), He.
    destruct (Fs.lookup (root w) p) as [n|]; [|reflexivity]. now rewrite Hs.
  - unfold record_of, parse_data.
    destruct (OsPath.split data_file) as [p f].
    destruct (OsPath.splitext data_file) as [nm e]. cbn [snd].
    unfold bind, getsize, PyPSRFITS, FilReader, ret, raise.
    repeat split.
    + intros n E He.
      change extensions with (psrfits_exts ++ fil_exts)%list in He.
      unfold str_in in He. rewrite existsb_app in He.
      apply orb_false_iff in He as [H1 H2].
      unfold str_in. rewrite H1, H2.
      destruct n as [b c| | |]; cbv beta iota zeta; rewrite ?E; reflexivity.
    + intros n E He Hn. rewrite He.
      destruct n as [b c| | |]; cbv beta iota zeta; rewrite ?E;
        try reflexivity.
      destruct c; try reflexivity. now destruct (Hn b h).
    + intros n E He Hn.
      assert (Hp : str_in e psrfits_exts = false).
      { apply TallyFacts.str_in_iff in He. destruct He as [<-|[]]. reflexivity. }
      rewrite Hp, He.
      destruct n as [b c| | |]; cbv beta iota zeta; rewrite ?E;
        try reflexivity.
      destruct c; try reflexivity. now destruct (Hn b h).
Qed.

Lemma parse_data_failures_witness :
  record_of Broken.searched "/data/none.fits" = Stop (Raise FileNotFoundError)
  /\ record_of Broken.searched "/data/good.fits/x.fits"
     = Stop (Raise NotADirectoryError)
  /\ record_of Broken.searched "/data/none/x.fits" = Stop (Raise FileNotFoundError)
  /\ record_of Broken.searched "/data/notes.txt" = Stop (Raise UnboundLocalError)
  /\ record_of Broken.searched "/data/bad.fits" = Stop (Raise ReaderError)
  /\ record_of Broken.searched "/data/x.fil" = Stop (Raise ReaderError).
Proof.
  split; [|split; [|split; [|split; [|split]]]].
  - apply (proj1 (parse_data_failures Broken.searched "/data/none.fits")
             ["data"; "none.fits"]); reflexivity.
  - apply (proj1 (proj2 (parse_data_failures Broken.searched "/data/good.fits/x.fits"))
             "/data/good.fits" "x.fits" 8 (PsrfitsData Sample.fits_hdr));
      reflexivity.
  - apply (proj1 (proj2 (proj2 (parse_data_failures Broken.searched
                                  "/data/none/x.fits")))
             "/data/none" "x.fits" ["data"; "none"]); reflexivity.
  - apply (proj1 (proj2 (proj2 (proj2 (parse_data_failures Broken.searched
                                         "/data/notes.txt"))))
             (File 5 (Text "hello"))); reflexivity.
  - apply (proj1 (proj2 (proj2 (proj2 (proj2 (parse_data_failures Broken.searched
                                                "/data/bad.fits")))))
             (File 5 OtherData)); [reflexivity | reflexivity | discriminate].
  - apply (proj2 (proj2 (proj2 (proj2 (proj2 (parse_data_failures Broken.searched
                                                "/data/x.fil")))))
             (Sample.fits_file 8)); [reflexivity | reflexivity | discriminate].
Defined.

(** X4 (lines 208-233).  Scanning a list of candidates is scanning a first
    part of it and going on with the rest from the summary reached; when
    the first part fails, that failure is the outcome, whatever the rest
    holds. *)
Theorem scan_in_two_parts (st : settings) (l1 l2 : list string) (s : Summary)
        (w : world) :
  fst (scan st (l1 ++ l2) s w)
  = match fst (scan st l1 s w) with
    | Ok s1 => fst (scan st l2 s1 w)
    | Stop sig => Stop sig
    end.
Proof.
  rewrite !LoopFacts.scan_result_eq, TurnFacts.scan_result_app.
  destruct (scan_result w l1 s) as [s1|sig]; [|reflexivity].
  now rewrite LoopFacts.scan_result_eq.
Qed.

(** X5 (lines 208-233).  The loop has no error handling: the first
    candidate that is not a link and that [parse_data] fails on ends it
    with that failure, also when every other candidate is a good file. *)
Theorem first_unreadable_file_ends_the_scan (st : settings) (l1 l2 : list string)
        (af : string) (s s1 : Summary) (w : world) (sig : signal) :
  fst (scan st l1 s w) = Ok s1 ->
  is_link w af = false ->
  record_of w af = Stop sig ->
  fst (scan st (l1 ++ af :: l2) s w) = Stop sig.
Proof.
  intros H1 Hl Hr.
  rewrite LoopFacts.scan_result_eq in *.
  rewrite TurnFacts.scan_result_app, H1. simpl. now rewrite Hl, Hr.
Qed.

Lemma first_unreadable_file_ends_the_scan_witness :
  fst (scan (Runs.settings_of "/data" false)
         (["/data/good.fits"] ++ "/data/bad.fits" :: ["/data/good.fits"])
         empty_summary Broken.searched)
  = Stop (Raise ReaderError).
Proof.
  apply (first_unreadable_file_ends_the_scan (Runs.settings_of "/data" false)
           ["/data/good.fits"] ["/data/good.fits"] "/data/bad.fits" empty_summary
           (tally empty_summary
              {| path := "/data"; file := "good.fits"; ext := ".fits";
                 size := Float64.truediv_Z 8 (10 ^ 9);
                 telescope := "GBT"; observer := "Smith"; project_id := "P001";
                 source := "J0000+00"; mode := "SEARCH";
                 MJD := Float64.of_Z 59000; center_freq := Float64.of_Z 1400 |})
           Broken.searched (Raise ReaderError)).
  - vm_compute. reflexivity.
  - reflexivity.
  - reflexivity.
Defined.

(** X6 (lines 208-214).  When the loop ends, the number of files has
    grown by the number of candidates that are not symbolic links: every
    one of them was read and counted once, no link was counted. *)
Theorem files_counted_are_the_files_read (st : settings) (available_files : list string)
        (s s' : Summary) (w w' : world) :
  scan st available_files s w = (Ok s', w') ->
  n_files s' = n_files s + Z.of_nat (List.length (read_files w available_files)).
Proof.
  intros H. apply SizeFacts.scan_sizes in H as [bytes [Hb [Hn _]]].
  rewrite Hn. do 2 f_equal.
  rewrite <- (length_map Some bytes), Hb. apply length_map.
Qed.

Lemma files_counted_are_the_files_read_witness :
  n_files (fold_left tally [Sample.record_a] empty_summary)
  = n_files empty_summary
    + Z.of_nat (List.length (read_files Broken.searched ["/data/good.fits"])).
Proof.
  apply (files_counted_are_the_files_read (Runs.settings_of "/data" false)
           ["/data/good.fits"] empty_summary _ Broken.searched Broken.searched).
  vm_compute. reflexivity.
Defined.

(** X7 (lines 208-233).  What the loop prints: nothing at all when it is
    not verbose, however it ends; when it is verbose and ends, one line
    for each candidate in the order of the list, saying that its header is
    read or that it is a link and is not.  Nothing else of the state
    changes. *)
Theorem scan_prints_one_line_for_each_candidate (st : settings)
        (available_files : list string) (s : Summary) (w : world) :
  (verbose st = false -> snd (scan st available_files s w) = w)
  /\ (verbose st = true ->
      forall s' w', scan st available_files s w = (Ok s', w') ->
        w' = {| root := root w; cwd := cwd w;
                stdout := (stdout w ++ map (scan_message w) available_files)%list |}).
Proof.
  split.
  - apply TurnFacts.scan_quiet.
  - intros Hv s' w'. now apply TurnFacts.scan_verbose.
Qed.

Lemma scan_prints_one_line_for_each_candidate_witness :
  snd (scan (Runs.settings_of "/data" false) ["/data/l1.fits"; "/data/l2.fil"]
         empty_summary Runs.only_links)
  = Runs.only_links
  /\ snd (scan (Runs.settings_of "/data" true) ["/data/l1.fits"; "/data/l2.fil"]
            empty_summary Runs.only_links)
     = {| root := root Runs.only_links; cwd := cwd Runs.only_links;
          stdout := ["/data/l1.fits is a symlink and will not be read.";
                     "/data/l2.fil is a symlink and will not be read."] |}.
Proof.
  split.
  - apply (proj1 (scan_prints_one_line_for_each_candidate
                    (Runs.settings_of "/data" false) ["/data/l1.fits"; "/data/l2.fil"]
                    empty_summary Runs.only_links)).
    reflexivity.
  - apply (proj2 (scan_prints_one_line_for_each_candidate
                    (Runs.settings_of "/data" true) ["/data/l1.fits"; "/data/l2.fil"]
                    empty_summary Runs.only_links) eq_refl empty_summary).
    vm_compute. reflexivity.
Defined.

(** X8 (lines 69-88).  The five string options are tested by their truth
    value, and the value of [-v] is turned into one: an option given the
    empty string does in the whole run what the option left out does. *)
Theorem empty_option_is_no_option (env : environ) (a : Cli.argv) (w : world) :
  main env (without_empty a) w = main env a w.
Proof.
  rewrite !RestFacts.main_run. unfold bind.
  now rewrite OptionFacts.use_arguments_without_empty.
Qed.

(** X9 (lines 154-268).  The script writes in its last statements only: a
    run that ends early, by [sys.exit()] at a guard or at the question, or
    by an exception of [os.chdir], of a header reader, of [parse_data] or
    of [open], leaves the directory tree exactly as it found it. *)
Theorem stopped_run_writes_nothing (env : environ) (a : Cli.argv) (w w' : world)
        (sig : signal) :
  main env a w = (Stop sig, w') -> root w' = root w.
Proof.
  revert w sig w'. change (stops_clean (main env a)). unfold main.
  apply StopFacts.stops_clean_bind; [apply StopFacts.keeps_tree_use_arguments|].
  intros st.
  apply StopFacts.stops_clean_bind; [apply StopFacts.keeps_tree_check_directories|].
  intros _.
  apply StopFacts.stops_clean_bind; [apply StopFacts.keeps_tree_chdir|]. intros _.
  apply StopFacts.stops_clean_bind; [apply StopFacts.keeps_tree_pick_files|].
  intros available_files.
  apply StopFacts.stops_clean_bind; [apply StopFacts.keeps_tree_confirm|]. intros _.
  apply StopFacts.stops_clean_bind; [apply StopFacts.keeps_tree_scan|]. intros s.
  apply StopFacts.stops_clean_bind; [apply StopFacts.keeps_tree_chdir|]. intros _.
  apply StopFacts.stops_clean_write_file.
Qed.

Lemma stopped_run_writes_nothing_witness :
  fst (main Sample.env Runs.absolute (Sample.at_home Broken.entries))
  = Stop (Raise ReaderError)
  /\ root (snd (main Sample.env Runs.absolute (Sample.at_home Broken.entries)))
     = root (Sample.at_home Broken.entries).
Proof.
  split; [vm_compute; reflexivity|].
  apply (stopped_run_writes_nothing Sample.env Runs.absolute
           (Sample.at_home Broken.entries) _ (Raise ReaderError)).
  vm_compute. reflexivity.
Defined.

(** X10 (lines 250-268).  In a tree without symbolic links, a run that
    completes has written one file, and no directory entry off the way to
    that file has been added, removed or replaced: at every list of names
    that parts from the names of the output file, the tree holds what it
    held before. *)
Theorem completed_run_changes_one_file (env : environ) (a : Cli.argv) (w w' : world) :
  link_free (root w) = true ->
  main env a w = (Ok tt, w') ->
  exists names text,
    file_at (root w') names = Some (File (Str.len text) (Text text))
    /\ forall q, diverge names q -> Fs.lookup (root w') q = Fs.lookup (root w) q.
Proof.
  intros _ H. apply MainFacts.main_ok in H
    as [st [w1 [w2 [w3 [w4 [w5 [afs [s [H0 [H1 [H2 [H3 [H4 [H5 [H6 H7]]]]]]]]]]]]]]].
  apply StopFacts.keeps_tree_check_directories in H1.
  apply StopFacts.keeps_tree_chdir in H2.
  apply StopFacts.keeps_tree_confirm in H4.
  apply StopFacts.keeps_tree_scan in H5.
  apply StopFacts.keeps_tree_chdir in H6.
  assert (Hr : root w5 = root w) by congruence.
  destruct (RestFacts.write_file_tree _ _ _ _ H7) as [names [Hc [Hw _]]].
  exists names, (readme st env s). split.
  - now apply FsFacts.write_at_file_at with (root w5).
  - intros q Hq. rewrite <- Hr. now apply RestFacts.write_at_elsewhere with (readme st env s) names.
Qed.

Lemma completed_run_changes_one_file_witness :
  exists names text,
    file_at (root (snd (main Sample.env Runs.absolute (Sample.at_home Sample.scenario))))
      names = Some (File (Str.len text) (Text text))
    /\ forall q, diverge names q ->
         Fs.lookup (root (snd (main Sample.env Runs.absolute
                                 (Sample.at_home Sample.scenario)))) q
         = Fs.lookup (root (Sample.at_home Sample.scenario)) q.
Proof.
  apply (completed_run_changes_one_file Sample.env Runs.absolute
           (Sample.at_home Sample.scenario)).
  - reflexivity.
  - vm_compute. reflexivity.
Defined.

(** X11 (lines 57, 90-96, 208-233).  The value of [-v] decides what is
    printed and nothing else: with any other value for it, or with none,
    the run ends the same way, by the same exit or exception or with the
    same README, in the same tree and working directory. *)
Theorem verbosity_changes_the_prints_only (env : environ) (a : Cli.argv)
        (v : option string) (w : world) :
  fst (main env (with_v a v) w) = fst (main env a w)
  /\ same_files (snd (main env (with_v a v) w)) (snd (main env a w)).
Proof.
  pose proof (RunFacts.use_arguments_eq env (parse_args a) w) as Hst.
  cbv zeta in Hst.
  pose proof (OptionFacts.use_arguments_with_v env a v w _ Hst) as Hv.
  rewrite !RestFacts.main_run.
  rewrite (StepFacts.bind_eq _ _ _ _ _ Hst), (StepFacts.bind_eq _ _ _ _ _ Hv).
  apply RestFacts.agree_run, ScanFacts.same_files_refl.
Qed.



(** A file below a directory and below a link to that directory: it is a
    candidate under both paths, neither of which is a link, and the loop
    reads and counts it twice. *)
Lemma linked_directory_is_listed_twice :
  well_formed (root Broken.linked) = true
  /\ fst (pick_files (Runs.settings_of "/data" false) extensions [] Broken.linked)
     = Ok ["/data/sub/a.fits"; "/data/lnk/a.fits"]
  /\ read_files Broken.linked ["/data/sub/a.fits"; "/data/lnk/a.fits"]
     = ["/data/sub/a.fits"; "/data/lnk/a.fits"]
  /\ option_map n_files
       (match scan_result Broken.linked ["/data/sub/a.fits"; "/data/lnk/a.fits"]
                empty_summary with
        | Ok s => Some s
        | Stop _ => None
        end)
     = Some 2.
Proof. repeat split; vm_compute; reflexivity. Qed.

(** X13 (lines 160-162, 250-252).  With an absolute output directory and
    an output name that is a plain file name, the guard and the write
    agree: the path the guard looked at, where it found nothing, is where
    the README is when the run has completed. *)
Theorem absolute_output_is_written_where_guarded (env : environ) (a : Cli.argv)
        (w w' : world) (st : settings) :
  main env a w = (Ok tt, w') ->
  use_arguments env (parse_args a) w = (Ok st, w) ->
  OsPath.isabs (output_directory st) = true ->
  valid_name (output_name st) = true ->
  exists names text,
    guarded st w = Some names
    /\ file_at (root w) names = None
    /\ file_at (root w') names = Some (File (Str.len text) (Text text)).
Proof.
  intros H Hst Habs Hname.
  destruct (AbsoluteFacts.completed_absolute env a w w' st H Hst Habs Hname)
    as [dir [s [Hc [Hd [Hfree Hw]]]]].
  pose proof (OutputFacts.canon_join (root w) (cwd w) (cwd w) _ _ dir Habs Hname Hc Hd)
    as Hg.
  exists (dir ++ [output_name st])%list, (readme st env s).
  split; [exact Hg|]. split.
  - unfold path_exists, Fs.stat, Fs.lstat in Hfree. rewrite Hg in Hfree.
    unfold file_at.
    destruct (Fs.lookup (root w) (dir ++ [output_name st])) as [m|]; [|reflexivity].
    now destruct (Fs.follow m).
  - now apply FsFacts.write_at_file_at with (root w).
Qed.

Lemma absolute_output_is_written_where_guarded_witness :
  exists names text,
    guarded (Runs.settings_of "/data" false) (Sample.at_home Sample.scenario)
    = Some names
    /\ file_at (root (Sample.at_home Sample.scenario)) names = None
    /\ file_at (root (snd (main Sample.env Runs.absolute
                             (Sample.at_home Sample.scenario)))) names
       = Some (File (Str.len text) (Text text)).
Proof.
  apply (absolute_output_is_written_where_guarded Sample.env Runs.absolute
           (Sample.at_home Sample.scenario) _ (Runs.settings_of "/data" false)).
  - vm_compute. reflexivity.
  - reflexivity.
  - reflexivity.
  - reflexivity.
Defined.

(** X14 (lines 160-162, 250-268).  After a run that completed with an
    absolute output directory and a plain output name, every later run
    with that output directory and name, from whatever working directory
    and for whatever data, ends by [sys.exit()] at one of the guards and
    leaves the README and the rest of the tree as they are. *)
Theorem later_run_is_refused (env env2 : environ) (a a2 : Cli.argv)
        (w w' w2 : world) (st st2 : settings) :
  main env a w = (Ok tt, w') ->
  use_arguments env (parse_args a) w = (Ok st, w) ->
  OsPath.isabs (output_directory st) = true ->
  valid_name (output_name st) = true ->
  root w2 = root w' ->
  use_arguments env2 (parse_args a2) w2 = (Ok st2, w2) ->
  output_directory st2 = output_directory st ->
  output_name st2 = output_name st ->
  exists w2', main env2 a2 w2 = (Stop SystemExit, w2') /\ root w2' = root w2.
Proof.
  intros H Hst Habs Hname Hroot Hst2 Hod Hon.
  destruct (AbsoluteFacts.completed_absolute env a w w' st H Hst Habs Hname)
    as [dir [s [Hc [Hd [_ Hw]]]]].
  assert (Hdirs : forall p, dir_at (root w) p -> dir_at (root w') p).
  { intros p. now apply OutputFacts.write_at_dir_at with (readme st env s)
                          (dir ++ [output_name st])%list. }
  pose proof (OutputFacts.canon_stable _ _ Hdirs _ _ _ Hc) as Hc'.
  pose proof (OutputFacts.canon_join (root w') (cwd w) (cwd w2) _ _ dir
                Habs Hname Hc' (Hdirs _ Hd)) as Hg.
  pose proof (FsFacts.write_at_file_at _ _ _ _ Hw) as Hf.
  assert (Hx : path_exists w2 (OsPath.join (output_directory st2) (output_name st2))
               = true).
  { unfold path_exists, Fs.stat, Fs.lstat. rewrite Hod, Hon, Hroot, Hg.
    unfold file_at in Hf.
    destruct (Fs.lookup (root w') (dir ++ [output_name st])) as [m|]; [|discriminate].
    now rewrite Hf. }
  assert (Hstop : exists w2', main env2 a2 w2 = (Stop SystemExit, w2')).
  { rewrite RestFacts.main_run, (StepFacts.bind_eq _ _ _ _ _ Hst2).
    unfold run.
    pose proof (StepFacts.check_directories_eq st2 w2) as E. rewrite Hx in E.
    destruct (negb (is_directory w2 (data_directory st2)));
      [|destruct (negb (is_directory w2 (output_directory st2)))];
      eexists; apply StepFacts.bind_stop_eq; exact E. }
  destruct Hstop as [w2' Hstop]. exists w2'. split; [exact Hstop|].
  now apply (StopFacts.stopped_run_keeps_tree env2 a2 w2 SystemExit w2').
Qed.

Lemma later_run_is_refused_witness :
  exists w2',
    main Sample.env_later Runs.absolute
      (start_again (Sample.at_home Sample.scenario)
         (main Sample.env Runs.absolute (Sample.at_home Sample.scenario)))
    = (Stop SystemExit, w2')
    /\ root w2'
       = root (start_again (Sample.at_home Sample.scenario)
                 (main Sample.env Runs.absolute (Sample.at_home Sample.scenario))).
Proof.
  apply (later_run_is_refused Sample.env Sample.env_later Runs.absolute Runs.absolute
           (Sample.at_home Sample.scenario)
           (snd (main Sample.env Runs.absolute (Sample.at_home Sample.scenario)))
           _ (Runs.settings_of "/data" false) (Runs.settings_of "/data" false)).
  - vm_compute. reflexivity.
  - reflexivity.
  - reflexivity.
  - reflexivity.
  - reflexivity.
  - reflexivity.
  - reflexivity.
  - reflexivity.
Defined.

(** X15 (lines 120, 212, 258).  Files have sizes that are not negative,
    and then the total is never negative and never a NaN, however many
    files are added and however the sums round: the README never shows a
    signed total or [nan]. *)
Theorem total_size_is_never_negative (st : settings) (available_files : list string)
        (s s' : Summary) (w w' : world) :
  scan st available_files s w = (Ok s', w') ->
  nonnegative (tot_size s) ->
  (forall af b, In af available_files -> bytes_of w af = Some b -> 0 <= b) ->
  nonnegative (tot_size s')
  /\ Str.starts_with_char "-" (Float64.format_2f (tot_size s')) = false
  /\ Float64.format_2f (tot_size s') <> "nan".
Proof.
  intros H Hs Hb.
  apply SizeFacts.scan_sizes in H as [bytes [Hbytes [_ Ht]]].
  assert (Hn : nonnegative (tot_size s')).
  { rewrite Ht. apply SignFacts.gigabytes_nonneg; [|exact Hs].
    apply Forall_forall. intros b Hin.
    apply (in_map Some) in Hin. rewrite Hbytes in Hin.
    apply in_map_iff in Hin as [af [Haf Hin]].
    apply filter_In in Hin as [Hin _]. now apply (Hb af). }
  split; [exact Hn|]. now apply SignFacts.format_2f_unsigned.
Qed.

Lemma total_size_is_never_negative_witness :
  nonnegative (tot_size (fold_left tally [Sample.record_a] empty_summary))
  /\ Str.starts_with_char "-"
       (Float64.format_2f (tot_size (fold_left tally [Sample.record_a] empty_summary)))
     = false
  /\ Float64.format_2f (tot_size (fold_left tally [Sample.record_a] empty_summary))
     <> "nan".
Proof.
  apply (total_size_is_never_negative (Runs.settings_of "/data" false)
           ["/data/good.fits"] empty_summary _ Broken.searched Broken.searched).
  - vm_compute. reflexivity.
  - exact I.
  - intros af b [<- | []] H. vm_compute in H. injection H as <-. lia.
Defined.

(** X16 (lines 173-179, 185-268).  The data directory is entered before
    its absolute path is taken.  For a data directory given by a plain
    relative name [d] without wildcard characters, in a tree without
    symbolic links, the search therefore goes to [d/d] below the starting
    directory, not to [d]; and unless the data directory holds a
    directory of its own name the whole run does what a run without any
    candidate does: after the checks and the two changes of directory it
    writes the README of the empty summary, whatever files the data
    directory holds. *)
Theorem relative_data_directory_is_searched_inside (env : environ) (a : Cli.argv)
        (w : world) (st : settings) :
  use_arguments env (parse_args a) w = (Ok st, w) ->
  link_free (root w) = true ->
  Glob.has_magic ("/" ++ Str.join "/" (cwd w ++ [data_directory st; data_directory st]))
  = false ->
  valid_name (data_directory st) = true ->
  Forall (fun x => valid_name x = true) (cwd w) ->
  (forall w2, chdir (data_directory st) w = (Ok tt, w2) ->
     fst (abspath (data_directory st) w2)
     = Ok ("/" ++ Str.join "/" (cwd w ++ [data_directory st; data_directory st])))
  /\ (~ dir_at (root w) (cwd w ++ [data_directory st; data_directory st]) ->
      main env a w
      = (check_directories st ;;
         chdir (data_directory st) ;;
         chdir (output_directory st) ;;
         write_file (output_name st) (readme st env empty_summary)) w).
Proof.
  intros Hst _ _ Hd Hc. split.
  - intros w2 H.
    destruct (RelativeFacts.chdir_name _ _ _ Hd H) as [Hr Hcwd].
    assert (Hc2 : Forall (fun x => valid_name x = true) (cwd w2)).
    { rewrite Hcwd. apply Forall_app. split; [exact Hc | now constructor]. }
    assert (Hne : cwd w2 <> []) by (rewrite Hcwd; now destruct (cwd w)).
    pose proof (RelativeFacts.abspath_inside _ w2 Hd Hne Hc2) as Ha.
    rewrite Hcwd in Ha at 2. rewrite <- app_assoc in Ha. simpl app in Ha.
    unfold abspath, bind, getcwd, ret. cbn [fst]. now rewrite Ha.
  - intros Hno.
    rewrite RestFacts.main_run, (StepFacts.bind_eq _ _ _ _ _ Hst).
    unfold run, bind.
    destruct (check_directories st w) as [[[]|sig] w1] eqn:E1; [|reflexivity].
    apply AbsoluteFacts.check_directories_ok in E1 as [-> _].
    destruct (chdir (data_directory st) w) as [[[]|sig] w2] eqn:E2; [|reflexivity].
    rewrite (InsideFacts.pick_nothing st w w2 Hd Hc E2 Hno).
    reflexivity.
Qed.

Lemma relative_data_directory_is_searched_inside_witness :
  fst (abspath "data"
         {| root := root Broken.at_start; cwd := ["home"; "u"; "data"];
            stdout := [] |})
  = Ok "/home/u/data/data"
  /\ main Sample.env Broken.relative Broken.at_start
     = (check_directories Broken.relative_settings ;;
        chdir "data" ;;
        chdir "/home/u/" ;;
        write_file "README.txt"
          (readme Broken.relative_settings Sample.env empty_summary))
         Broken.at_start.
Proof.
  destruct (relative_data_directory_is_searched_inside Sample.env Broken.relative
              Broken.at_start Broken.relative_settings) as [H1 H2].
  - reflexivity.
  - reflexivity.
  - reflexivity.
  - reflexivity.
  - repeat constructor.
  - split.
    + apply H1. reflexivity.
    + apply H2. intros [m [es [Hl _]]]. vm_compute in Hl. discriminate.
Defined.

(** The run of that witness: the data directory holds [a.fits], nothing
    is at [data/data], and the README says that there are no files. *)
Lemma relative_run_reports_no_file :
  ~ dir_at (root Broken.at_start) ["home"; "u"; "data"; "data"]
  /\ fst (main Sample.env Broken.relative Broken.at_start) = Ok tt
  /\ option_map (line 4)
       (Runs.readme_at ["home"; "u"]
          (main Sample.env Broken.relative Broken.at_start))
     = Some "Number of files: 0".
Proof.
  split; [|split; vm_compute; reflexivity].
  intros [m [es [Hl _]]]. vm_compute in Hl. discriminate.
Qed.

(** X17 (lines 118, 122-149, 214-215).  When the loop ends, the file
    types it has collected are the extensions of the candidates it read,
    no more and no fewer, and each is one of [.fits], [.sf], [.rf] and
    [.fil]: a file of another extension cannot be read without ending the
    run, whatever the list of candidates. *)
Theorem file_types_are_those_read (st : settings) (available_files : list string)
        (s' : Summary) (w w' : world) :
  scan st available_files empty_summary w = (Ok s', w') ->
  (forall e, In e (exts s')
             <-> exists af, In af (read_files w available_files)
                            /\ snd (OsPath.splitext af) = e)
  /\ (forall e, In e (exts s') -> In e extensions).
Proof.
  intros H. apply ScanFacts.scan_ok in H as [rs [Hrs ->]].
  destruct (TallyFacts.tally_fields rs empty_summary) as (_ & _ & He & _).
  destruct (ExtFacts.records_ext w _ rs Hrs) as [Hm Hall].
  rewrite He. split.
  - intros e. rewrite TallyFacts.collect_str_in, Hm, in_map_iff. simpl.
    split.
    + intros [[] | [af [E Hin]]]. now exists af.
    + intros [af [Hin E]]. right. now exists af.
  - intros e Hin. apply TallyFacts.collect_str_in in Hin as [[] | Hin].
    rewrite Forall_forall in Hall. now apply Hall.
Qed.

Lemma file_types_are_those_read_witness :
  (forall e, In e (exts (fold_left tally [Sample.record_a] empty_summary))
             <-> exists af, In af (read_files Broken.searched ["/data/good.fits"])
                            /\ snd (OsPath.splitext af) = e)
  /\ (forall e, In e (exts (fold_left tally [Sample.record_a] empty_summary)) ->
                In e extensions).
Proof.
  apply (file_types_are_those_read (Runs.settings_of "/data" false)
           ["/data/good.fits"] _ Broken.searched Broken.searched).
  vm_compute. reflexivity.
Defined.

